(** * Asteroid Insights Platform: scoring, classification and storage

    A shallow embedding of [src/utils.py] and [src/asteroid_processor.py]
    and the properties of the platform's specification that concern them.

    Conventions of the embedding.
    - JSON-shaped Python data is the inductive type [pyval]; a [dict] is an
      association list in insertion order, looked up at its first match.
    - Python [float]s are exact rationals ([Q]); rounding, infinities and
      NaN are outside the model, and results are compared with [==].
    - A Python exception is a constructor of [exn]; code that can raise
      returns a [result].
    - Built-in conversions whose text grammar belongs to the interpreter
      ([float] on a [str], [strptime], [isoformat]) are the fields of the
      class [Builtins]; every theorem holds for any instance.
    - The clock, the feed, the blob sink and the database are an [Env];
      what a call changes is a [World], which also keeps the trace of the
      requests made.
    - [format_asteroid_data] writes into objects it shares with its
      argument; it is modelled over a heap of objects.
    - [logging] calls are modelled only where a property speaks of them
      ([validate_asteroid_data]). *)

From Stdlib Require Import ZArith QArith Qminmax Lqa Lia String Ascii List Bool.
From stdpp Require Import base gmap strings list pretty.
Import ListNotations.

Set Warnings "-register-all".

Local Open Scope string_scope.

(** ** Python values, exceptions and results *)

Inductive pyval : Type :=
| PNone
| PBool (b : bool)
| PInt (z : Z)
| PFloat (q : Q)
| PStr (s : string)
| PList (l : list pyval)
| PDict (d : list (string * pyval)).

Inductive exn : Type :=
| ValueError
| KeyError
| TypeError
| AttributeError
| IndexError
| OverflowError  (* float() of an int beyond the range of a float *)
| StorageError   (* pyodbc.Error raised by connect / execute *)
| ArchivalError  (* raised by the blob client *)
| FeedError      (* raised by the NASA client *)
| RetryError.    (* tenacity, after the last attempt *)

Inductive result (A : Type) : Type :=
| Ok (a : A)
| Raise (e : exn).
Arguments Ok {A} a.
Arguments Raise {A} e.

Definition bind {A B : Type} (m : result A) (k : A -> result B) : result B :=
  match m with
  | Ok a => k a
  | Raise e => Raise e
  end.

Declare Scope result_scope.
Delimit Scope result_scope with result.
Notation "x <- e ;; k" := (bind e (fun x => k))
  (at level 100, e at next level, right associativity) : result_scope.
Local Open Scope result_scope.

(** [try: body except (classes): handler] *)
Definition try_except {A : Type} (body : result A) (catches : exn -> bool)
  (handler : exn -> result A) : result A :=
  match body with
  | Ok a => Ok a
  | Raise e => if catches e then handler e else Raise e
  end.

(** What the interpreter and [datetime] provide.  Times are microseconds
    since the epoch. *)
Class Builtins : Type := {
  (* float(s) for a str s; None when it raises ValueError *)
  float_of_str : string -> option Q;
  (* datetime.strptime(s, '%Y-%m-%d'); None when it raises ValueError *)
  strptime_ymd : string -> option Z;
  (* datetime.isoformat() *)
  isoformat : Z -> string;
  (* datetime.strftime('%Y%m%d_%H%M%S') *)
  strftime_stamp : Z -> string;
  (* str(e) *)
  exn_str : exn -> string
}.

(** ** Dictionaries as association lists *)

Fixpoint dict_lookup {V : Type} (k : string) (d : list (string * V)) : option V :=
  match d with
  | [] => None
  | (k', v) :: rest => if String.eqb k k' then Some v else dict_lookup k rest
  end.

Definition dict_mem {V : Type} (k : string) (d : list (string * V)) : bool :=
  match dict_lookup k d with
  | Some _ => true
  | None => false
  end.

(** [d[k] = v]: an existing key keeps its position, a new one goes last. *)
Fixpoint dict_set {V : Type} (k : string) (v : V) (d : list (string * V))
  : list (string * V) :=
  match d with
  | [] => [(k, v)]
  | (k', v') :: rest =>
      if String.eqb k k' then (k, v) :: rest else (k', v') :: dict_set k v rest
  end.

(** ** Operations of the language on [pyval] *)

Definition Qltb (x y : Q) : bool := negb (Qle_bool y x).

(** [bool(o)] *)
Definition py_truthy (o : pyval) : bool :=
  match o with
  | PNone => false
  | PBool b => b
  | PInt z => negb (Z.eqb z 0)
  | PFloat q => negb (Qeq_bool q 0)
  | PStr s => negb (String.eqb s "")
  | PList l => match l with [] => false | _ => true end
  | PDict d => match d with [] => false | _ => true end
  end.

(** [o.get(k, default)]: only a dict has the method. *)
Definition py_get (o : pyval) (k : string) (default : pyval) : result pyval :=
  match o with
  | PDict d => Ok (match dict_lookup k d with Some v => v | None => default end)
  | _ => Raise AttributeError
  end.

(** [o[k]] for a string key. *)
Definition py_getitem (o : pyval) (k : string) : result pyval :=
  match o with
  | PDict d => match dict_lookup k d with Some v => Ok v | None => Raise KeyError end
  | _ => Raise TypeError
  end.

(** [o[0]] *)
Definition py_getitem0 (o : pyval) : result pyval :=
  match o with
  | PList [] => Raise IndexError
  | PList (x :: _) => Ok x
  | PStr EmptyString => Raise IndexError
  | PStr (String c _) => Ok (PStr (String c EmptyString))
  | PDict _ => Raise KeyError
  | _ => Raise TypeError
  end.

Definition is_str (k : string) (o : pyval) : bool :=
  match o with
  | PStr s => String.eqb k s
  | _ => false
  end.

(** [k in o] for a string [k]. *)
Definition py_contains (k : string) (o : pyval) : result bool :=
  match o with
  | PDict d => Ok (dict_mem k d)
  | PList l => Ok (existsb (is_str k) l)
  | PStr s => Ok (match index 0 k s with Some _ => true | None => false end)
  | _ => Raise TypeError
  end.

(** The least magnitude of an int that rounds beyond the largest float:
    from there on [float(z)] raises OverflowError. *)
Definition float_overflow : Z := (2 ^ 1024 - 2 ^ 970)%Z.

(** [float(o)] *)
Definition py_float `{Builtins} (o : pyval) : result Q :=
  match o with
  | PFloat q => Ok q
  | PInt z =>
      if (Z.abs z <? float_overflow)%Z then Ok (inject_Z z) else Raise OverflowError
  | PBool b => Ok (if b then 1%Q else 0%Q)
  | PStr s => match float_of_str s with Some q => Ok q | None => Raise ValueError end
  | _ => Raise TypeError
  end.

(** The value of a number in an ordering comparison with a numeric
    literal; anything else makes [<] and [>] raise TypeError. *)
Definition py_number (o : pyval) : result Q :=
  match o with
  | PFloat q => Ok q
  | PInt z => Ok (inject_Z z)
  | PBool b => Ok (if b then 1%Q else 0%Q)
  | _ => Raise TypeError
  end.

Definition py_lt (o : pyval) (c : Q) : result bool :=
  x <- py_number o ;; Ok (Qltb x c).

Definition py_gt (o : pyval) (c : Q) : result bool :=
  x <- py_number o ;; Ok (Qltb c x).

(** ** utils.py *)

Module utils.

Definition diameter_km_of `{Builtins} (diameter_data : pyval) : result Q :=
  km <- py_get diameter_data "kilometers" (PDict []) ;;
  dmax <- py_get km "estimated_diameter_max" (PInt 0) ;;
  py_float dmax.

Definition miss_distance_km_of `{Builtins} (miss_distance : pyval) : result Q :=
  v <- py_get miss_distance "kilometers" (PInt 0) ;;
  py_float v.

Definition velocity_kmh_of `{Builtins} (velocity : pyval) : result Q :=
  v <- py_get velocity "kilometers_per_hour" (PInt 0) ;;
  py_float v.

(** The body of [calculate_risk_score] once the three numbers are read. *)
Definition weighted_risk (diameter_km miss_distance_km velocity_kmh : Q) : Q :=
  let diameter_factor := Qmin (diameter_km / 10.0) 1.0 in
  let distance_factor := Qmax 0 (1.0 - miss_distance_km / 1000000.0) in
  let velocity_factor := Qmin (velocity_kmh / 100000.0) 1.0 in
  let risk_score :=
    (diameter_factor * 0.4 + distance_factor * 0.4 + velocity_factor * 0.2)%Q in
  Qmin risk_score 1.0.

Definition risk_catches (e : exn) : bool :=
  match e with
  | ValueError | KeyError | TypeError => true
  | _ => false
  end.

Definition calculate_risk_score `{Builtins}
  (diameter_data miss_distance velocity : pyval) : result Q :=
  try_except
    (diameter_km <- diameter_km_of diameter_data ;;
     miss_distance_km <- miss_distance_km_of miss_distance ;;
     velocity_kmh <- velocity_kmh_of velocity ;;
     Ok (weighted_risk diameter_km miss_distance_km velocity_kmh))
    risk_catches
    (fun _ => Ok 0.0%Q).

(** The loop over [required_fields]: the first field that is not [in]
    the record, if any. *)
Fixpoint first_missing (fields : list string) (asteroid : pyval)
  : result (option string) :=
  match fields with
  | [] => Ok None
  | field :: rest =>
      present <- py_contains field asteroid ;;
      if present then first_missing rest asteroid else Ok (Some field)
  end.

Definition is_dict (o : pyval) : bool :=
  match o with PDict _ => true | _ => false end.

Definition is_list (o : pyval) : bool :=
  match o with PList _ => true | _ => false end.

(** Returns the verdict and the warnings it logged. *)
Definition validate_asteroid_data (asteroid : pyval) : result (bool * list string) :=
  missing <- first_missing ["id"; "name"; "estimated_diameter"] asteroid ;;
  match missing with
  | Some field => Ok (false, ["Missing required field: " ++ field])
  | None =>
      diameter <- py_get asteroid "estimated_diameter" (PDict []) ;;
      if negb (is_dict diameter)
      then Ok (false, ["Invalid estimated_diameter structure"])
      else
        close_approach <- py_get asteroid "close_approach_data" (PList []) ;;
        if py_truthy close_approach && negb (is_list close_approach)
        then Ok (false, ["Invalid close_approach_data structure"])
        else Ok (true, [])
  end.

End utils.

(** ** The world of the processor: clock, feed, blob sink and SQL tables *)

(** A bound parameter of an INSERT: a Python value handed to the driver,
    the text [json.dumps] makes of a value, or a [datetime]. *)
Inductive sqlval : Type :=
| SqlParam (v : pyval)
| SqlJson (v : pyval)
| SqlDatetime (t : Z).

(** A row: column name and bound value, in the order of the statement. *)
Definition Row : Type := list (string * sqlval).

Inductive Event : Type :=
| EvFeed (days : Z)
| EvUpload (filename : string)
| EvConnect
| EvExecute (table : string) (row : Row)
| EvCommit (table : string)
| EvRollback (table : string)
| EvPost (sent : nat).

(** The collaborators the processor talks to: the clock by the number
    of the reading, the feed by the number of the request, the database
    by the number of the connection.  A table's [rejects] is the verdict
    of driver and schema on one INSERT given the rows the transaction
    sees; the schema file itself is not part of the sources. *)
Record Env : Type := {
  clock : nat -> Z;
  feed : Z -> nat -> result (list (string * list pyval));
  blob_accepts : string -> list pyval -> bool;
  sql_connects : nat -> bool;
  sql_commits : nat -> bool;
  raw_rejects : Row -> list Row -> bool;
  insights_rejects : Row -> list Row -> bool;
  function_url : option string
}.

Record World : Type := {
  now_calls : nat;
  feed_calls : nat;
  sql_connections : nat;
  raw_asteroid_data : list Row;
  processed_asteroid_insights : list Row;
  blobs : list (string * list pyval);
  trace : list Event
}.

Definition M (A : Type) : Type := World -> result A * World.

Definition ret {A : Type} (a : A) : M A := fun w => (Ok a, w).

Definition raise {A : Type} (e : exn) : M A := fun w => (Raise e, w).

Definition lift {A : Type} (r : result A) : M A := fun w => (r, w).

Definition mbindW {A B : Type} (m : M A) (k : A -> M B) : M B :=
  fun w =>
    match m w with
    | (Ok a, w') => k a w'
    | (Raise e, w') => (Raise e, w')
    end.

Notation "x <~ e ;; k" := (mbindW e (fun x => k))
  (at level 100, e at next level, right associativity) : result_scope.

Definition tick (w : World) : World :=
  {| now_calls := S (now_calls w); feed_calls := feed_calls w;
     sql_connections := sql_connections w;
     raw_asteroid_data := raw_asteroid_data w;
     processed_asteroid_insights := processed_asteroid_insights w;
     blobs := blobs w; trace := trace w |}.

Definition log_event (ev : Event) (w : World) : World :=
  {| now_calls := now_calls w; feed_calls := feed_calls w;
     sql_connections := sql_connections w;
     raw_asteroid_data := raw_asteroid_data w;
     processed_asteroid_insights := processed_asteroid_insights w;
     blobs := blobs w; trace := trace w ++ [ev] |}.

Definition set_raw (t : list Row) (w : World) : World :=
  {| now_calls := now_calls w; feed_calls := feed_calls w;
     sql_connections := sql_connections w;
     raw_asteroid_data := t;
     processed_asteroid_insights := processed_asteroid_insights w;
     blobs := blobs w; trace := trace w |}.

Definition set_insights (t : list Row) (w : World) : World :=
  {| now_calls := now_calls w; feed_calls := feed_calls w;
     sql_connections := sql_connections w;
     raw_asteroid_data := raw_asteroid_data w;
     processed_asteroid_insights := t;
     blobs := blobs w; trace := trace w |}.

Definition set_blobs (b : list (string * list pyval)) (w : World) : World :=
  {| now_calls := now_calls w; feed_calls := feed_calls w;
     sql_connections := sql_connections w;
     raw_asteroid_data := raw_asteroid_data w;
     processed_asteroid_insights := processed_asteroid_insights w;
     blobs := b; trace := trace w |}.

Definition count_feed (w : World) : World :=
  {| now_calls := now_calls w; feed_calls := S (feed_calls w);
     sql_connections := sql_connections w;
     raw_asteroid_data := raw_asteroid_data w;
     processed_asteroid_insights := processed_asteroid_insights w;
     blobs := blobs w; trace := trace w |}.

Definition count_connection (w : World) : World :=
  {| now_calls := now_calls w; feed_calls := feed_calls w;
     sql_connections := S (sql_connections w);
     raw_asteroid_data := raw_asteroid_data w;
     processed_asteroid_insights := processed_asteroid_insights w;
     blobs := blobs w; trace := trace w |}.

(** [datetime.now()] *)
Definition now (E : Env) : M Z :=
  fun w => (Ok (clock E (now_calls w)), tick w).

Definition emit (ev : Event) : M unit :=
  fun w => (Ok tt, log_event ev w).

(** ** asteroid_processor.py: enrichment and insights *)

Module processor.

(** The hazard classification of [_enrich_asteroid_data]. *)
Definition hazard_level (risk_score : Q) : string :=
  if Qltb 0.7 risk_score then "HIGH"
  else if Qltb 0.4 risk_score then "MEDIUM"
  else "LOW".

Definition orbital_catches (e : exn) : bool :=
  match e with
  | ValueError | KeyError => true
  | _ => false
  end.

Definition orbital_period_step `{Builtins} (orbital_data : pyval)
  (insights : list (string * pyval)) : result (list (string * pyval)) :=
  present <- py_contains "orbital_period" orbital_data ;;
  if present then
    v <- py_getitem orbital_data "orbital_period" ;;
    p <- py_float v ;;
    Ok (dict_set "orbital_period_days" (PFloat p) insights)
  else Ok insights.

Definition orbit_type_step `{Builtins} (orbital_data : pyval)
  (insights : list (string * pyval)) : result (list (string * pyval)) :=
  present <- py_contains "eccentricity" orbital_data ;;
  if present then
    v <- py_getitem orbital_data "eccentricity" ;;
    ecc <- py_float v ;;
    if Qltb ecc 0.1 then Ok (dict_set "orbit_type" (PStr "Nearly Circular") insights)
    else if Qltb ecc 0.3 then Ok (dict_set "orbit_type" (PStr "Low Eccentricity") insights)
    else Ok (dict_set "orbit_type" (PStr "High Eccentricity") insights)
  else Ok insights.

Definition inclination_type_step `{Builtins} (orbital_data : pyval)
  (insights : list (string * pyval)) : result (list (string * pyval)) :=
  present <- py_contains "inclination" orbital_data ;;
  if present then
    v <- py_getitem orbital_data "inclination" ;;
    incl <- py_float v ;;
    if Qltb incl 5 then Ok (dict_set "inclination_type" (PStr "Low Inclination") insights)
    else if Qltb incl 20 then Ok (dict_set "inclination_type" (PStr "Medium Inclination") insights)
    else Ok (dict_set "inclination_type" (PStr "High Inclination") insights)
  else Ok insights.

(** The [insights] dict is kept when an exception is caught: a step that
    raises leaves the entries of the steps before it. *)
Definition _calculate_orbital_insights `{Builtins} (orbital_data : pyval)
  : result pyval :=
  let fail (insights : list (string * pyval)) (e : exn) :=
    if orbital_catches e
    then Ok (PDict (dict_set "error" (PStr (exn_str e)) insights))
    else Raise e in
  match orbital_period_step orbital_data [] with
  | Raise e => fail [] e
  | Ok i1 =>
      match orbit_type_step orbital_data i1 with
      | Raise e => fail i1 e
      | Ok i2 =>
          match inclination_type_step orbital_data i2 with
          | Raise e => fail i2 e
          | Ok i3 => Ok (PDict i3)
          end
      end
  end.

(** ['close_approach_data' in asteroid and asteroid['close_approach_data']] *)
Definition has_close_approach (asteroid : pyval) : result bool :=
  present <- py_contains "close_approach_data" asteroid ;;
  if present then
    cad <- py_getitem asteroid "close_approach_data" ;;
    Ok (py_truthy cad)
  else Ok false.

(** [asteroid['close_approach_data'][0]] *)
Definition first_approach (asteroid : pyval) : result pyval :=
  cad <- py_getitem asteroid "close_approach_data" ;;
  py_getitem0 cad.

Definition risk_step `{Builtins} (asteroid : pyval)
  (enriched : list (string * pyval)) : result (list (string * pyval)) :=
  close <- has_close_approach asteroid ;;
  if close then
    approach_data <- first_approach asteroid ;;
    diameter <- py_getitem asteroid "estimated_diameter" ;;
    miss_distance <- py_getitem approach_data "miss_distance" ;;
    relative_velocity <- py_getitem approach_data "relative_velocity" ;;
    risk_score <- utils.calculate_risk_score diameter miss_distance relative_velocity ;;
    Ok (dict_set "hazard_level" (PStr (hazard_level risk_score))
          (dict_set "risk_score" (PFloat risk_score) enriched))
  else Ok enriched.

Definition orbital_step `{Builtins} (asteroid : pyval)
  (enriched : list (string * pyval)) : result (list (string * pyval)) :=
  present <- py_contains "orbital_data" asteroid ;;
  if present then
    orbital_data <- py_getitem asteroid "orbital_data" ;;
    orbital_insights <- _calculate_orbital_insights orbital_data ;;
    Ok (dict_set "orbital_insights" orbital_insights enriched)
  else Ok enriched.

(** [asteroid.copy()] exists on dicts and lists only, and only the copy
    of a dict takes a string key. *)
Definition _enrich_asteroid_data `{Builtins} (E : Env) (asteroid : pyval)
  (date : string) : M pyval :=
  match asteroid with
  | PDict d =>
      t <~ now E ;;
      let enriched :=
        dict_set "data_source" (PStr "NASA NEO API")
          (dict_set "processed_date" (PStr (isoformat t)) d) in
      enriched <~ lift (risk_step asteroid enriched) ;;
      enriched <~ lift (orbital_step asteroid enriched) ;;
      ret (PDict enriched)
  | PList _ => t <~ now E ;; raise TypeError
  | _ => raise AttributeError
  end.

(** *** [_calculate_insights] *)

Definition size_step (asteroid : pyval) (insights : list (string * pyval))
  : result (list (string * pyval)) :=
  ed <- py_get asteroid "estimated_diameter" (PDict []) ;;
  km <- py_get ed "kilometers" (PDict []) ;;
  diameter <- py_get km "estimated_diameter_max" (PInt 0) ;;
  small <- py_lt diameter 0.1 ;;
  if small then Ok (dict_set "size_category" (PStr "Small (< 100m)") insights)
  else
    medium <- py_lt diameter 1 ;;
    if medium then Ok (dict_set "size_category" (PStr "Medium (100m - 1km)") insights)
    else Ok (dict_set "size_category" (PStr "Large (> 1km)") insights).

Definition velocity_step (asteroid : pyval) (insights : list (string * pyval))
  : result (list (string * pyval)) :=
  close <- has_close_approach asteroid ;;
  if close then
    approach <- first_approach asteroid ;;
    rv <- py_get approach "relative_velocity" (PDict []) ;;
    velocity <- py_get rv "kilometers_per_hour" (PInt 0) ;;
    slow <- py_lt velocity 20000 ;;
    if slow then Ok (dict_set "velocity_category" (PStr "Slow") insights)
    else
      medium <- py_lt velocity 50000 ;;
      if medium then Ok (dict_set "velocity_category" (PStr "Medium") insights)
      else Ok (dict_set "velocity_category" (PStr "Fast") insights)
  else Ok insights.

Definition distance_step (asteroid : pyval) (insights : list (string * pyval))
  : result (list (string * pyval)) :=
  close <- has_close_approach asteroid ;;
  if close then
    approach <- first_approach asteroid ;;
    md <- py_get approach "miss_distance" (PDict []) ;;
    distance <- py_get md "kilometers" (PInt 0) ;;
    very_close <- py_lt distance 1000000 ;;
    if very_close then Ok (dict_set "distance_category" (PStr "Very Close") insights)
    else
      near <- py_lt distance 5000000 ;;
      if near then Ok (dict_set "distance_category" (PStr "Close") insights)
      else
        moderate <- py_lt distance 20000000 ;;
        if moderate then Ok (dict_set "distance_category" (PStr "Moderate") insights)
        else Ok (dict_set "distance_category" (PStr "Far") insights)
  else Ok insights.

Definition microseconds_per_day : Z := 86400000000.

(** [strptime] takes a str only; [timedelta.days] rounds down. *)
Definition days_step `{Builtins} (E : Env) (asteroid : pyval)
  (insights : list (string * pyval)) : M (list (string * pyval)) :=
  close <~ lift (has_close_approach asteroid) ;;
  if (close : bool) then
    approach <~ lift (first_approach asteroid) ;;
    approach_date_str <~ lift (py_get approach "close_approach_date" PNone) ;;
    if py_truthy approach_date_str then
      match approach_date_str with
      | PStr s =>
          match strptime_ymd s with
          | Some approach_date =>
              t <~ now E ;;
              let days_to_approach := ((approach_date - t) / microseconds_per_day)%Z in
              ret (dict_set "days_to_approach" (PInt days_to_approach) insights)
          | None => ret (dict_set "days_to_approach" PNone insights)
          end
      | _ => raise TypeError
      end
    else ret insights
  else ret insights.

Definition threat_level (risk_score : pyval) : result string :=
  critical <- py_gt risk_score 0.8 ;;
  if critical then Ok "CRITICAL"
  else
    high <- py_gt risk_score 0.6 ;;
    if high then Ok "HIGH"
    else
      medium <- py_gt risk_score 0.4 ;;
      if medium then Ok "MEDIUM" else Ok "LOW".

Definition recommended_action (threat : string) : string :=
  if String.eqb threat "CRITICAL" then "Immediate monitoring and analysis required"
  else if String.eqb threat "HIGH" then "Enhanced monitoring recommended"
  else if String.eqb threat "MEDIUM" then "Standard monitoring sufficient"
  else "Routine observation".

Definition priority_step (asteroid : pyval) (insights : list (string * pyval))
  : result (list (string * pyval)) :=
  risk_score <- py_get asteroid "risk_score" (PFloat 0.0) ;;
  high_priority <- py_gt risk_score 0.5 ;;
  let insights := dict_set "is_high_priority" (PBool high_priority) insights in
  threat <- threat_level risk_score ;;
  let insights := dict_set "threat_level" (PStr threat) insights in
  Ok (dict_set "recommended_action" (PStr (recommended_action threat)) insights).

Definition _calculate_insights `{Builtins} (E : Env) (asteroid : pyval) : M pyval :=
  insights <~ lift (size_step asteroid []) ;;
  orbital_data <~ lift (py_get asteroid "orbital_data" (PDict [])) ;;
  insights <~ lift (orbit_type_step orbital_data insights) ;;
  insights <~ lift (inclination_type_step orbital_data insights) ;;
  insights <~ lift (velocity_step asteroid insights) ;;
  insights <~ lift (distance_step asteroid insights) ;;
  insights <~ days_step E asteroid insights ;;
  insights <~ lift (priority_step asteroid insights) ;;
  t <~ now E ;;
  ret (PDict (dict_set "processing_metadata"
                (PDict [("processed_at", PStr (isoformat t));
                        ("processor_version", PStr "1.0.0");
                        ("data_source", PStr "NASA NEO API")])
                insights)).

End processor.

(** ** asteroid_processor.py: storage and the processing cycle *)

Module storage.

Import processor.

(** [(column, object, key)]: the column is bound to [object.get(key)]. *)
Definition bind_columns (cols : list (string * pyval * string)) : result Row :=
  fold_right
    (fun '(col, src, key) rest =>
       v <- py_get src key PNone ;;
       r <- rest ;;
       Ok ((col, SqlParam v) :: r))
    (Ok []) cols.

(** The [values] tuple of [store_raw_data_sql], paired with the column
    list of its INSERT. *)
Definition raw_values (E : Env) (asteroid : pyval) : M Row :=
  cad <~ lift (py_get asteroid "close_approach_data" PNone) ;;
  close_approach_data <~
    lift (if py_truthy cad
          then l <- py_get asteroid "close_approach_data" (PList [PDict []]) ;;
               py_getitem0 l
          else Ok (PDict [])) ;;
  orbital_data <~ lift (py_get asteroid "orbital_data" (PDict [])) ;;
  diameter <~ lift (py_get asteroid "estimated_diameter" (PDict [])) ;;
  diameter_km <~ lift (py_get diameter "kilometers" (PDict [])) ;;
  velocity <~ lift (py_get close_approach_data "relative_velocity" (PDict [])) ;;
  distance <~ lift (py_get close_approach_data "miss_distance" (PDict [])) ;;
  orbital <~ lift (py_get orbital_data "orbit" (PDict [])) ;;
  cols <~ lift (bind_columns
    [("id", asteroid, "id");
     ("name", asteroid, "name");
     ("nasa_jpl_url", asteroid, "nasa_jpl_url");
     ("absolute_magnitude_h", asteroid, "absolute_magnitude_h");
     ("estimated_diameter_min_km", diameter_km, "estimated_diameter_min");
     ("estimated_diameter_max_km", diameter_km, "estimated_diameter_max");
     ("is_potentially_hazardous_asteroid", asteroid, "is_potentially_hazardous_asteroid");
     ("is_sentry_object", asteroid, "is_sentry_object");
     ("close_approach_date", close_approach_data, "close_approach_date");
     ("close_approach_full", close_approach_data, "close_approach_full");
     ("epoch_osculation", orbital, "epoch_osculation");
     ("eccentricity", orbital, "eccentricity");
     ("semi_major_axis", orbital, "semi_major_axis");
     ("inclination", orbital, "inclination");
     ("ascending_node_longitude", orbital, "ascending_node_longitude");
     ("orbital_period", orbital, "orbital_period");
     ("perihelion_distance", orbital, "perihelion_distance");
     ("perihelion_argument", orbital, "perihelion_argument");
     ("aphelion_distance", orbital, "aphelion_distance");
     ("perihelion_time", orbital, "perihelion_time");
     ("mean_anomaly", orbital, "mean_anomaly");
     ("mean_motion", orbital, "mean_motion");
     ("equinox", orbital, "equinox");
     ("orbit_determination_date", orbital, "orbit_determination_date");
     ("orbit_uncertainty", orbital, "orbit_uncertainty");
     ("minimum_orbit_intersection", orbital, "minimum_orbit_intersection");
     ("jupiter_tisserand_invariant", orbital, "jupiter_tisserand_invariant");
     ("earth_minimum_orbit_intersection_distance", orbital,
        "earth_minimum_orbit_intersection_distance");
     ("orbit_id", orbital, "orbit_id");
     ("object_designation", orbital, "object_designation");
     ("close_approach_epoch_unix", close_approach_data, "epoch_osculation");
     ("relative_velocity_km_per_sec", velocity, "kilometers_per_second");
     ("relative_velocity_km_per_hour", velocity, "kilometers_per_hour");
     ("relative_velocity_miles_per_hour", velocity, "miles_per_hour");
     ("miss_distance_astronomical", distance, "astronomical");
     ("miss_distance_lunar", distance, "lunar");
     ("miss_distance_kilometers", distance, "kilometers");
     ("orbiting_body", close_approach_data, "orbiting_body")]) ;;
  t <~ now E ;;
  ret (cols ++ [("nasa_data_json", SqlJson asteroid);
                ("fetched_at", SqlDatetime t)])%list.

(** The [values] tuple of [store_processed_insights_sql]. *)
Definition insight_values `{Builtins} (E : Env) (asteroid : pyval) : M Row :=
  insights <~ _calculate_insights E asteroid ;;
  id <~ lift (py_get asteroid "id" PNone) ;;
  name <~ lift (py_get asteroid "name" PNone) ;;
  risk_score <~ lift (py_get asteroid "risk_score" (PFloat 0.0)) ;;
  hazard <~ lift (py_get asteroid "hazard_level" (PStr "LOW")) ;;
  cols <~ lift (bind_columns
    [("size_category", insights, "size_category");
     ("orbit_type", insights, "orbit_type");
     ("inclination_type", insights, "inclination_type");
     ("velocity_category", insights, "velocity_category");
     ("distance_category", insights, "distance_category");
     ("days_to_approach", insights, "days_to_approach")]) ;;
  high_priority <~ lift (py_get insights "is_high_priority" (PBool false)) ;;
  threat <~ lift (py_get insights "threat_level" PNone) ;;
  action <~ lift (py_get insights "recommended_action" PNone) ;;
  orbital_insights <~ lift (py_get insights "orbital_insights" (PDict [])) ;;
  size_insights <~ lift (py_get insights "size_insights" (PDict [])) ;;
  velocity_insights <~ lift (py_get insights "velocity_insights" (PDict [])) ;;
  distance_insights <~ lift (py_get insights "distance_insights" (PDict [])) ;;
  processing_metadata <~ lift (py_get insights "processing_metadata" (PDict [])) ;;
  t <~ now E ;;
  ret ([("raw_asteroid_id", SqlParam id);
        ("name", SqlParam name);
        ("risk_score", SqlParam risk_score);
        ("hazard_level", SqlParam hazard)]
       ++ cols ++
       [("is_high_priority", SqlParam high_priority);
        ("threat_level", SqlParam threat);
        ("recommended_action", SqlParam action);
        ("orbital_insights", SqlJson orbital_insights);
        ("size_insights", SqlJson size_insights);
        ("velocity_insights", SqlJson velocity_insights);
        ("distance_insights", SqlJson distance_insights);
        ("processing_metadata", SqlJson processing_metadata);
        ("processed_at", SqlDatetime t)])%list.

(** [cursor.execute(sql, values)] of a plain INSERT inside the open
    transaction: the row is appended to what the transaction sees, or
    the statement is refused. *)
Definition execute_insert (table : string) (rejects : Row -> list Row -> bool)
  (row : Row) (pending : list Row) : M (list Row) :=
  _ <~ emit (EvExecute table row) ;;
  if rejects row pending then raise StorageError else ret (pending ++ [row])%list.

(** The [for asteroid in asteroid_data] loop of either store. *)
Fixpoint insert_all (table : string) (values : pyval -> M Row)
  (rejects : Row -> list Row -> bool) (asteroid_data : list pyval)
  (pending : list Row) : M (list Row) :=
  match asteroid_data with
  | [] => ret pending
  | asteroid :: rest =>
      row <~ values asteroid ;;
      pending <~ execute_insert table rejects row pending ;;
      insert_all table values rejects rest pending
  end.

(** [_get_sql_connection] *)
Definition _get_sql_connection (E : Env) : M unit :=
  fun w =>
    let w' := log_event EvConnect (count_connection w) in
    if sql_connects E (sql_connections w) then (Ok tt, w') else (Raise StorageError, w').

(** One connection, one transaction: [commit] publishes the pending
    rows; when the loop or the commit raises, [rollback] drops them and
    the exception is raised again. *)
Definition store_raw_data_sql (E : Env) (asteroid_data : list pyval) : M unit :=
  _ <~ _get_sql_connection E ;;
  fun w =>
    match insert_all "raw_asteroid_data" (raw_values E) (raw_rejects E)
            asteroid_data (raw_asteroid_data w) w with
    | (Ok pending, w') =>
        if sql_commits E (sql_connections w)
        then (Ok tt, log_event (EvCommit "raw_asteroid_data") (set_raw pending w'))
        else (Raise StorageError, log_event (EvRollback "raw_asteroid_data") w')
    | (Raise e, w') =>
        (Raise e, log_event (EvRollback "raw_asteroid_data") w')
    end.

Definition store_processed_insights_sql `{Builtins} (E : Env)
  (asteroid_data : list pyval) : M unit :=
  _ <~ _get_sql_connection E ;;
  fun w =>
    match insert_all "processed_asteroid_insights" (insight_values E)
            (insights_rejects E) asteroid_data (processed_asteroid_insights w) w with
    | (Ok pending, w') =>
        if sql_commits E (sql_connections w)
        then (Ok tt, log_event (EvCommit "processed_asteroid_insights")
                       (set_insights pending w'))
        else (Raise StorageError,
              log_event (EvRollback "processed_asteroid_insights") w')
    | (Raise e, w') =>
        (Raise e, log_event (EvRollback "processed_asteroid_insights") w')
    end.

(** [upload_blob(json_data, overwrite=True)] under a timestamped name. *)
Definition store_raw_data_blob `{Builtins} (E : Env) (asteroid_data : list pyval)
  : M unit :=
  timestamp <~ now E ;;
  let filename := "asteroid_data_" ++ strftime_stamp timestamp ++ ".json" in
  _ <~ emit (EvUpload filename) ;;
  if blob_accepts E filename asteroid_data
  then fun w => (Ok tt, set_blobs (dict_set filename asteroid_data (blobs w)) w)
  else raise ArchivalError.

(** The two nested loops of [fetch_asteroid_data]. *)
Fixpoint enrich_all `{Builtins} (E : Env) (date : string) (asteroids : list pyval)
  : M (list pyval) :=
  match asteroids with
  | [] => ret []
  | asteroid :: rest =>
      enriched <~ _enrich_asteroid_data E asteroid date ;;
      more <~ enrich_all E date rest ;;
      ret (enriched :: more)
  end.

Fixpoint enrich_dates `{Builtins} (E : Env) (neo_data : list (string * list pyval))
  : M (list pyval) :=
  match neo_data with
  | [] => ret []
  | (date, asteroids) :: rest =>
      here <~ enrich_all E date asteroids ;;
      more <~ enrich_dates E rest ;;
      ret (here ++ more)%list
  end.

(** One attempt of [fetch_asteroid_data].  [feed E days n] is what
    [self.nasa_client.get_near_earth_objects(days)] hands back the n-th
    time it is asked; before it asks, the client reads the clock for
    the end of its window. *)
Definition fetch_once `{Builtins} (E : Env) (days : Z) : M (list pyval) :=
  _ <~ emit (EvFeed days) ;;
  end_date <~ now E ;;
  neo_data <~ (fun w => (feed E days (feed_calls w), count_feed w)) ;;
  enrich_dates E neo_data.

(** [@retry(stop=stop_after_attempt(n))]: the call is repeated while it
    raises; after the last attempt tenacity raises RetryError. *)
Fixpoint retry {A : Type} (attempts : nat) (call : M A) : M A :=
  match attempts with
  | O => raise RetryError
  | S n =>
      fun w =>
        match call w with
        | (Ok a, w') => (Ok a, w')
        | (Raise _, w') => retry n call w'
        end
  end.

Definition fetch_asteroid_data `{Builtins} (E : Env) (days : Z) : M (list pyval) :=
  retry 3 (fetch_once E days).

(** The POST is best effort: whatever it raises is logged and dropped. *)
Definition _call_azure_function (asteroid_data : list pyval) : M unit :=
  emit (EvPost (length (firstn 10 asteroid_data))).

Definition days_of_mode (mode : string) : Z :=
  if String.eqb mode "manual-full" then 30%Z
  else if String.eqb mode "manual-incremental" then 1%Z
  else 7%Z.

(** The steps of [process_data] after the fetch. *)
Definition store_batch `{Builtins} (E : Env) (asteroid_data : list pyval) : M unit :=
  _ <~ store_raw_data_blob E asteroid_data ;;
  _ <~ store_raw_data_sql E asteroid_data ;;
  _ <~ store_processed_insights_sql E asteroid_data ;;
  match function_url E with
  | Some url =>
      if negb (String.eqb url "") then _call_azure_function asteroid_data else ret tt
  | None => ret tt
  end.

(** [except Exception: logger.error(...); raise] hands every exception
    of the body to the caller. *)
Definition process_data `{Builtins} (E : Env) (mode : string) : M unit :=
  let days := days_of_mode mode in
  asteroid_data <~ fetch_asteroid_data E days ;;
  match asteroid_data with
  | [] => ret tt
  | _ => store_batch E asteroid_data
  end.

End storage.

(** ** utils.py: [format_asteroid_data], over a heap of shared objects

    The function writes into objects it shares with its argument, so this
    part keeps the objects in a heap: a value is a scalar or a reference,
    a location holds a dict or a list.  A dict is a finite map here: the
    function never adds or removes a key, and the order in which it visits
    the entries cannot be told from its result. *)

Module formatting.

Abbreviation loc := nat.

Inductive val : Type :=
| VNone
| VBool (b : bool)
| VInt (z : Z)
| VFloat (q : Q)
| VStr (s : string)
| VRef (l : loc).

Inductive obj : Type :=
| ODict (d : gmap string val)
| OList (items : list val).

Abbreviation heap := (list obj).

(** [s.replace(',', '')] *)
Fixpoint remove_commas (s : string) : string :=
  match s with
  | EmptyString => EmptyString
  | String c rest =>
      if Ascii.eqb c ","%char then remove_commas rest
      else String c (remove_commas rest)
  end.

(** [{...}] and [[]]: a new object at the next free location. *)
Definition alloc (o : obj) (h : heap) : loc * heap := (length h, (h ++ [o])%list).

Definition h_truthy (h : heap) (v : val) : bool :=
  match v with
  | VNone => false
  | VBool b => b
  | VInt z => negb (Z.eqb z 0)
  | VFloat q => negb (Qeq_bool q 0)
  | VStr s => negb (String.eqb s "")
  | VRef l =>
      match h !! l with
      | Some (ODict d) => match map_to_list d with [] => false | _ => true end
      | Some (OList items) => match items with [] => false | _ => true end
      | None => true
      end
  end.

(** [o.get(k, default)] *)
Definition h_get (h : heap) (o : val) (k : string) (default : val) : result val :=
  match o with
  | VRef l =>
      match h !! l with
      | Some (ODict d) => Ok (match d !! k with Some v => v | None => default end)
      | _ => Raise AttributeError
      end
  | _ => Raise AttributeError
  end.

(** [o[k]] for a string key. *)
Definition h_getitem (h : heap) (o : val) (k : string) : result val :=
  match o with
  | VRef l =>
      match h !! l with
      | Some (ODict d) => match d !! k with Some v => Ok v | None => Raise KeyError end
      | _ => Raise TypeError
      end
  | _ => Raise TypeError
  end.

Definition is_vstr (k : string) (v : val) : bool :=
  match v with
  | VStr s => String.eqb k s
  | _ => false
  end.

(** [k in o] *)
Definition h_contains (h : heap) (k : string) (o : val) : result bool :=
  match o with
  | VRef l =>
      match h !! l with
      | Some (ODict d) => Ok (match d !! k with Some _ => true | None => false end)
      | Some (OList items) => Ok (existsb (is_vstr k) items)
      | None => Raise TypeError
      end
  | VStr s => Ok (match index 0 k s with Some _ => true | None => false end)
  | _ => Raise TypeError
  end.

(** [o[k] = v] for a string key: only a dict takes it. *)
Definition h_setitem (o : val) (k : string) (v : val) (h : heap) : result unit * heap :=
  match o with
  | VRef l =>
      match h !! l with
      | Some (ODict d) => (Ok tt, <[l := ODict (<[k := v]> d)]> h)
      | _ => (Raise TypeError, h)
      end
  | _ => (Raise TypeError, h)
  end.

(** [float(value.replace(',', ''))]: only a str has [replace]. *)
Definition parse_value `{Builtins} (value : val) : result Q :=
  match value with
  | VStr s =>
      match float_of_str (remove_commas s) with
      | Some q => Ok q
      | None => Raise ValueError
      end
  | _ => Raise AttributeError
  end.

Definition coerce_catches (e : exn) : bool :=
  match e with
  | ValueError | AttributeError => true
  | _ => false
  end.

(** The body of the innermost loop:
    [try: approach[key][unit] = float(value.replace(',', ''))]
    [except (ValueError, AttributeError): pass]. *)
Definition coerce_entry `{Builtins} (approach : val) (key unit_ : string)
  (value : val) (h : heap) : result unit * heap :=
  match parse_value value with
  | Ok q =>
      match h_getitem h approach key with
      | Ok target =>
          match h_setitem target unit_ (VFloat q) h with
          | (Raise e, h') => if coerce_catches e then (Ok tt, h') else (Raise e, h')
          | ok => ok
          end
      | Raise e => if coerce_catches e then (Ok tt, h) else (Raise e, h)
      end
  | Raise e => if coerce_catches e then (Ok tt, h) else (Raise e, h)
  end.

(** [for unit, value in approach[key].items()], the dict being the one
    at [lu]: the view hands out, for each key, the value the dict holds
    when the key is reached. *)
Fixpoint coerce_items `{Builtins} (approach : val) (key : string) (lu : loc)
  (units : list string) (h : heap) : result unit * heap :=
  match units with
  | [] => (Ok tt, h)
  | unit_ :: rest =>
      match h !! lu with
      | Some (ODict d) =>
          match d !! unit_ with
          | Some value =>
              match coerce_entry approach key unit_ value h with
              | (Ok _, h') => coerce_items approach key lu rest h'
              | (Raise e, h') => (Raise e, h')
              end
          | None => coerce_items approach key lu rest h
          end
      | _ => coerce_items approach key lu rest h
      end
  end.

(** [if key in approach: for unit, value in approach[key].items(): ...] *)
Definition coerce_key `{Builtins} (approach : val) (key : string) (h : heap)
  : result unit * heap :=
  match h_contains h key approach with
  | Raise e => (Raise e, h)
  | Ok false => (Ok tt, h)
  | Ok true =>
      match h_getitem h approach key with
      | Raise e => (Raise e, h)
      | Ok (VRef lu) =>
          match h !! lu with
          | Some (ODict d) => coerce_items approach key lu (map fst (map_to_list d)) h
          | _ => (Raise AttributeError, h)
          end
      | Ok _ => (Raise AttributeError, h)
      end
  end.

(** [for key in ['miss_distance', 'relative_velocity']] *)
Definition coerce_approach `{Builtins} (approach : val) (h : heap)
  : result unit * heap :=
  match coerce_key approach "miss_distance" h with
  | (Ok _, h') => coerce_key approach "relative_velocity" h'
  | (Raise e, h') => (Raise e, h')
  end.

Fixpoint coerce_approaches `{Builtins} (approaches : list val) (h : heap)
  : result unit * heap :=
  match approaches with
  | [] => (Ok tt, h)
  | approach :: rest =>
      match coerce_approach approach h with
      | (Ok _, h') => coerce_approaches rest h'
      | (Raise e, h') => (Raise e, h')
      end
  end.

Fixpoint chars (s : string) : list val :=
  match s with
  | EmptyString => []
  | String c rest => VStr (String c EmptyString) :: chars rest
  end.

(** What [for approach in o] goes through: the items of a list, the keys
    of a dict, the characters of a str. *)
Definition h_iter (h : heap) (o : val) : result (list val) :=
  match o with
  | VRef l =>
      match h !! l with
      | Some (OList items) => Ok items
      | Some (ODict d) => Ok (map (fun kv => VStr (fst kv)) (map_to_list d))
      | None => Raise TypeError
      end
  | VStr s => Ok (chars s)
  | _ => Raise TypeError
  end.

(** [formatted = {...}]: each [{}] or [[]] given as a default is built
    before the [get] that takes it, the record itself last.  Returns the
    value of its close_approach_data, its location and the heap. *)
Definition new_formatted (asteroid : val) (h : heap) : result (val * loc * heap) :=
  id <- h_get h asteroid "id" VNone ;;
  name <- h_get h asteroid "name" VNone ;;
  nasa_jpl_url <- h_get h asteroid "nasa_jpl_url" VNone ;;
  absolute_magnitude_h <- h_get h asteroid "absolute_magnitude_h" VNone ;;
  let '(l1, h1) := alloc (ODict ∅) h in
  estimated_diameter <- h_get h1 asteroid "estimated_diameter" (VRef l1) ;;
  hazardous <- h_get h1 asteroid "is_potentially_hazardous_asteroid" (VBool false) ;;
  let '(l2, h2) := alloc (OList []) h1 in
  close_approach_data <- h_get h2 asteroid "close_approach_data" (VRef l2) ;;
  let '(l3, h3) := alloc (ODict ∅) h2 in
  orbital_data <- h_get h3 asteroid "orbital_data" (VRef l3) ;;
  is_sentry_object <- h_get h3 asteroid "is_sentry_object" (VBool false) ;;
  let '(l4, h4) := alloc (ODict ∅) h3 in
  links <- h_get h4 asteroid "links" (VRef l4) ;;
  let '(formatted, h5) :=
    alloc (ODict (list_to_map
      [("id", id); ("name", name); ("nasa_jpl_url", nasa_jpl_url);
       ("absolute_magnitude_h", absolute_magnitude_h);
       ("estimated_diameter", estimated_diameter);
       ("is_potentially_hazardous_asteroid", hazardous);
       ("close_approach_data", close_approach_data);
       ("orbital_data", orbital_data);
       ("is_sentry_object", is_sentry_object);
       ("links", links)])) h4 in
  Ok (close_approach_data, formatted, h5).

Definition format_asteroid_data `{Builtins} (asteroid : val) (h : heap)
  : result val * heap :=
  match new_formatted asteroid h with
  | Raise e => (Raise e, h)
  | Ok (close_approach_data, formatted, h5) =>
      if h_truthy h5 close_approach_data then
        match h_iter h5 close_approach_data with
        | Raise e => (Raise e, h5)
        | Ok approaches =>
            match coerce_approaches approaches h5 with
            | (Ok _, h') => (Ok (VRef formatted), h')
            | (Raise e, h') => (Raise e, h')
            end
        end
      else (Ok (VRef formatted), h5)
  end.

(** The locations an object graph reaches from a value. *)
Inductive reaches (h : heap) : val -> loc -> Prop :=
| reaches_here (l : loc) : reaches h (VRef l) l
| reaches_dict (l : loc) (d : gmap string val) (k : string) (v : val) (l' : loc) :
    h !! l = Some (ODict d) -> d !! k = Some v -> reaches h v l' ->
    reaches h (VRef l) l'
| reaches_list (l : loc) (items : list val) (i : nat) (v : val) (l' : loc) :
    h !! l = Some (OList items) -> items !! i = Some v -> reaches h v l' ->
    reaches h (VRef l) l'.

(** What the loop makes of one value: a str that parses becomes the
    float, anything else stays. *)
Definition coerced_value `{Builtins} (v : val) : val :=
  match parse_value v with
  | Ok q => VFloat q
  | Raise _ => v
  end.

(** [v'] is [v], or the float that [v] parses to. *)
Definition value_coerced `{Builtins} (v v' : val) : Prop :=
  v' = v \/ v' = coerced_value v.

(** A list is what it was; a dict has the keys it had, each with its
    value kept or coerced. *)
Definition obj_coerced `{Builtins} (o o' : obj) : Prop :=
  match o, o' with
  | ODict d, ODict d' =>
      forall k,
        match d !! k, d' !! k with
        | Some v, Some v' => value_coerced v v'
        | None, None => True
        | _, _ => False
        end
  | OList items, OList items' => items' = items
  | _, _ => False
  end.

Definition heap_coerced `{Builtins} (h h' : heap) : Prop :=
  forall l o, h !! l = Some o -> exists o', h' !! l = Some o' /\ obj_coerced o o'.

(** Between [h] and [h'], the unit mappings of [approach] were coerced
    throughout. *)
Definition units_coerced `{Builtins} (approach : val) (key : string) (h h' : heap)
  : Prop :=
  forall lp ap lu d,
    approach = VRef lp ->
    h !! lp = Some (ODict ap) ->
    ap !! key = Some (VRef lu) ->
    h !! lu = Some (ODict d) ->
    h' !! lu = Some (ODict (coerced_value <$> d)).

(** The innermost loop, as a function of the dict it walks. *)
Definition coerce_keys `{Builtins} (units : list string) (d : gmap string val)
  : gmap string val :=
  foldl (fun d k => alter coerced_value k d) d units.

End formatting.

(** ** Instances to run the model on

    One instance of [Builtins] and a few environments, used wherever a
    statement is evaluated on concrete data. *)

Module samples.

Definition digit_of (c : ascii) : option Z :=
  let n := nat_of_ascii c in
  if (48 <=? n)%nat && (n <=? 57)%nat then Some (Z.of_nat (n - 48)) else None.

(** Leading digits of [s]: their value, their number, and the rest. *)
Fixpoint read_digits (s : string) (acc : Z) (count : nat) : Z * nat * string :=
  match s with
  | EmptyString => (acc, count, s)
  | String c rest =>
      match digit_of c with
      | Some d => read_digits rest (10 * acc + d)%Z (S count)
      | None => (acc, count, s)
      end
  end.

Definition parse_unsigned (s : string) : option Q :=
  let '(whole, n1, rest) := read_digits s 0%Z 0%nat in
  match rest with
  | EmptyString => if (n1 =? 0)%nat then None else Some (inject_Z whole)
  | String c rest' =>
      if Ascii.eqb c "."%char then
        let '(frac, n2, rest'') := read_digits rest' 0%Z 0%nat in
        match rest'' with
        | EmptyString =>
            if (n1 + n2 =? 0)%nat then None
            else Some (Qmake (whole * 10 ^ Z.of_nat n2 + frac)
                             (Z.to_pos (10 ^ Z.of_nat n2)))
        | _ => None
        end
      else None
  end.

(** [float] on plain decimal numerals: an optional sign, digits, an
    optional point and more digits. *)
Definition decimal_of_string (s : string) : option Q :=
  match s with
  | String c rest =>
      if Ascii.eqb c "-"%char then option_map Qopp (parse_unsigned rest)
      else if Ascii.eqb c "+"%char then parse_unsigned rest
      else parse_unsigned s
  | EmptyString => None
  end.

Definition is_leap (y : Z) : bool :=
  ((y mod 4 =? 0) && negb (y mod 100 =? 0) || (y mod 400 =? 0))%Z.

Definition days_in_month (y m : Z) : Z :=
  if (m =? 2)%Z then (if is_leap y then 29 else 28)%Z
  else if ((m =? 4) || (m =? 6) || (m =? 9) || (m =? 11))%Z then 30%Z
  else 31%Z.

(** Days from 1970-01-01 to the civil date [y-m-d]. *)
Definition days_from_civil (y m d : Z) : Z :=
  let y' := (if m <=? 2 then y - 1 else y)%Z in
  let era := (y' / 400)%Z in
  let yoe := (y' - era * 400)%Z in
  let mp := (if m <=? 2 then m + 9 else m - 3)%Z in
  let doy := ((153 * mp + 2) / 5 + d - 1)%Z in
  let doe := (yoe * 365 + yoe / 4 - yoe / 100 + doy)%Z in
  (era * 146097 + doe - 719468)%Z.

(** Dates written [YYYY-MM-DD], as microseconds since the epoch. *)
Definition date_of_string (s : string) : option Z :=
  let '(y, n1, r1) := read_digits s 0%Z 0%nat in
  match r1 with
  | String c1 r1' =>
      let '(m, n2, r2) := read_digits r1' 0%Z 0%nat in
      match r2 with
      | String c2 r2' =>
          let '(d, n3, r3) := read_digits r2' 0%Z 0%nat in
          if Ascii.eqb c1 "-"%char && Ascii.eqb c2 "-"%char
             && (n1 =? 4)%nat && (n2 =? 2)%nat && (n3 =? 2)%nat
             && String.eqb r3 ""
             && (1 <=? m)%Z && (m <=? 12)%Z
             && (1 <=? d)%Z && (d <=? days_in_month y m)%Z
          then Some (days_from_civil y m d * processor.microseconds_per_day)%Z
          else None
      | EmptyString => None
      end
  | EmptyString => None
  end.

Definition exn_name (e : exn) : string :=
  match e with
  | ValueError => "ValueError"
  | KeyError => "KeyError"
  | TypeError => "TypeError"
  | AttributeError => "AttributeError"
  | IndexError => "IndexError"
  | OverflowError => "OverflowError"
  | StorageError => "StorageError"
  | ArchivalError => "ArchivalError"
  | FeedError => "FeedError"
  | RetryError => "RetryError"
  end.

(** Times are printed as their count of microseconds. *)
Definition builtins : Builtins :=
  {| float_of_str := decimal_of_string;
     strptime_ymd := date_of_string;
     isoformat := fun t => pretty t;
     strftime_stamp := fun t => pretty t;
     exn_str := exn_name |}.

(** The key of a row as SQL compares it. *)
Definition key_eqb (a b : sqlval) : bool :=
  match a, b with
  | SqlParam (PInt x), SqlParam (PInt y) => Z.eqb x y
  | SqlParam (PStr x), SqlParam (PStr y) => String.eqb x y
  | _, _ => false
  end.

Definition has_key (col : string) (key : sqlval) (row : Row) : bool :=
  match dict_lookup col row with
  | Some k => key_eqb key k
  | None => false
  end.

(** A table without constraints takes every row. *)
Definition no_constraint (row : Row) (table : list Row) : bool := false.

(** A table whose column [col] is its primary key refuses a NULL key
    and a key it already holds. *)
Definition primary_key (col : string) (row : Row) (table : list Row) : bool :=
  match dict_lookup col row with
  | Some (SqlParam PNone) | None => true
  | Some key => existsb (has_key col key) table
  end.

Definition sample_clock (n : nat) : Z := (1705312800000000 + Z.of_nat n)%Z.

(** Every collaborator answers; the tables have no constraints. *)
Definition permissive (data : list (string * list pyval)) : Env :=
  {| clock := sample_clock;
     feed := fun _ _ => Ok data;
     blob_accepts := fun _ _ => true;
     sql_connects := fun _ => true;
     sql_commits := fun _ => true;
     raw_rejects := no_constraint;
     insights_rejects := no_constraint;
     function_url := None |}.

(** As [permissive], with both tables keyed by the asteroid's id. *)
Definition keyed (data : list (string * list pyval)) : Env :=
  {| clock := sample_clock;
     feed := fun _ _ => Ok data;
     blob_accepts := fun _ _ => true;
     sql_connects := fun _ => true;
     sql_commits := fun _ => true;
     raw_rejects := primary_key "id";
     insights_rejects := primary_key "raw_asteroid_id";
     function_url := None |}.

(** As [permissive], with a blob sink that refuses every upload. *)
Definition sink_down (data : list (string * list pyval)) : Env :=
  {| clock := sample_clock;
     feed := fun _ _ => Ok data;
     blob_accepts := fun _ _ => false;
     sql_connects := fun _ => true;
     sql_commits := fun _ => true;
     raw_rejects := no_constraint;
     insights_rejects := no_constraint;
     function_url := None |}.

Definition empty_world : World :=
  {| now_calls := 0; feed_calls := 0; sql_connections := 0;
     raw_asteroid_data := []; processed_asteroid_insights := [];
     blobs := []; trace := [] |}.

(** The diameter mapping of [test_calculate_risk_score]. *)
Definition diameter_of_test : pyval :=
  PDict [("kilometers", PDict [("estimated_diameter_max", PFloat 0.5)])].

(** The record of [test_calculate_insights], as the feed would deliver
    it, and the same record without its id. *)
Definition tracked : pyval :=
  PDict
    [("id", PInt 2000433);
     ("name", PStr "433 Eros");
     ("estimated_diameter",
        PDict [("kilometers", PDict [("estimated_diameter_max", PFloat 0.34)])]);
     ("close_approach_data",
        PList
          [PDict
             [("relative_velocity", PDict [("kilometers_per_hour", PInt 25000)]);
              ("miss_distance", PDict [("kilometers", PInt 50000000)]);
              ("close_approach_date", PStr "2024-02-15")]]);
     ("orbital_data",
        PDict [("eccentricity", PFloat 0.15); ("inclination", PFloat 10.5)])].

Definition anonymous : pyval :=
  PDict
    [("name", PStr "433 Eros");
     ("estimated_diameter",
        PDict [("kilometers", PDict [("estimated_diameter_max", PFloat 0.34)])]);
     ("close_approach_data",
        PList
          [PDict
             [("relative_velocity", PDict [("kilometers_per_hour", PInt 25000)]);
              ("miss_distance", PDict [("kilometers", PInt 50000000)]);
              ("close_approach_date", PStr "2024-02-15")]]);
     ("orbital_data",
        PDict [("eccentricity", PFloat 0.15); ("inclination", PFloat 10.5)])].

(** The record without its estimated_diameter. *)
Definition undersized : pyval :=
  PDict
    [("id", PInt 2000433);
     ("name", PStr "433 Eros");
     ("close_approach_data",
        PList
          [PDict
             [("relative_velocity", PDict [("kilometers_per_hour", PInt 25000)]);
              ("miss_distance", PDict [("kilometers", PInt 50000000)]);
              ("close_approach_date", PStr "2024-02-15")]]);
     ("orbital_data",
        PDict [("eccentricity", PFloat 0.15); ("inclination", PFloat 10.5)])].

Definition one_day (asteroids : list pyval) : list (string * list pyval) :=
  [("2024-01-15", asteroids)].

(** A record that has a name and a diameter and nothing else. *)
Definition bare : list (string * pyval) :=
  [("id", PInt 54321);
   ("name", PStr "(2024 AB)");
   ("estimated_diameter",
      PDict [("kilometers", PDict [("estimated_diameter_max", PFloat 0.02)])])].

(** A record without an approach that brings a risk score of its own. *)
Definition scored : list (string * pyval) :=
  bare ++ [("risk_score", PFloat 0.9)].

(** [bare] once enriched at the first reading of the clock. *)
Definition enriched_bare : pyval :=
  PDict (bare ++ [("processed_date", PStr (pretty (sample_clock 0)));
                  ("data_source", PStr "NASA NEO API")]).

(** A record on the heap whose miss distance is written with a
    thousands separator: the record at 0, its list of approaches at 1,
    the approach at 2, the miss distance at 3. *)
Definition shared_heap : formatting.heap :=
  [formatting.ODict
     (list_to_map [("id", formatting.VStr "2000433");
                   ("close_approach_data", formatting.VRef 1)]);
   formatting.OList [formatting.VRef 2];
   formatting.ODict (list_to_map [("miss_distance", formatting.VRef 3)]);
   formatting.ODict
     (list_to_map [("kilometers", formatting.VStr "50,000");
                   ("lunar", formatting.VStr "n/a")])].

Definition kilometers_at (h : formatting.heap) (l : formatting.loc)
  : option formatting.val :=
  match h !! l with
  | Some (formatting.ODict d) => d !! "kilometers"
  | _ => None
  end.

(** The record of [tests/test_duplicate_handling.py]. *)
Definition eros : pyval :=
  PDict
    [("id", PInt 2000433);
     ("name", PStr "433 Eros");
     ("nasa_jpl_url", PStr "http://ssd.jpl.nasa.gov/sbdb.cgi?sstr=2000433");
     ("absolute_magnitude_h", PFloat 11.16);
     ("estimated_diameter",
        PDict [("kilometers",
                  PDict [("estimated_diameter_min", PFloat 0.15);
                         ("estimated_diameter_max", PFloat 0.34)])]);
     ("is_potentially_hazardous_asteroid", PBool false);
     ("is_sentry_object", PBool false);
     ("close_approach_data",
        PList
          [PDict
             [("close_approach_date", PStr "2024-01-15");
              ("close_approach_full", PStr "2024-Jan-15 12:00");
              ("epoch_osculation", PFloat 2459580.5);
              ("relative_velocity",
                 PDict [("kilometers_per_second", PStr "6.94");
                        ("kilometers_per_hour", PStr "25000");
                        ("miles_per_hour", PStr "15500")]);
              ("miss_distance",
                 PDict [("astronomical", PStr "0.334");
                        ("lunar", PStr "130.0");
                        ("kilometers", PStr "50000000")]);
              ("orbiting_body", PStr "Earth")]]);
     ("orbital_data",
        PDict
          [("orbit",
              PDict
                [("epoch_osculation", PFloat 2459580.5);
                 ("eccentricity", PFloat 0.223);
                 ("semi_major_axis", PFloat 1.458);
                 ("inclination", PFloat 10.829);
                 ("ascending_node_longitude", PFloat 304.401);
                 ("orbital_period", PFloat 643.219);
                 ("perihelion_distance", PFloat 1.133);
                 ("perihelion_argument", PFloat 178.664);
                 ("aphelion_distance", PFloat 1.783);
                 ("perihelion_time", PFloat 2459580.5);
                 ("mean_anomaly", PFloat 0.0);
                 ("mean_motion", PFloat 0.559);
                 ("equinox", PStr "J2000");
                 ("orbit_determination_date", PStr "2024-01-01");
                 ("orbit_uncertainty", PInt 0);
                 ("minimum_orbit_intersection", PFloat 0.334);
                 ("jupiter_tisserand_invariant", PFloat 4.558);
                 ("earth_minimum_orbit_intersection_distance", PFloat 0.334);
                 ("orbit_id", PStr "1");
                 ("object_designation", PStr "433")])])].

End samples.

(** ** The specification's side: what its sentences say, as definitions *)

Module spec.

Import utils processor storage.

Definition clamp (x lo hi : Q) : Q := Qmax lo (Qmin x hi).

(** The score as section 4.2 writes it. *)
Definition risk_score (diameter_km_max miss_distance_km velocity_kmh : Q) : Q :=
  let diameter_factor := Qmin (diameter_km_max / 10.0) 1.0 in
  let distance_factor := Qmax 0 (1.0 - miss_distance_km / 1000000.0) in
  let velocity_factor := Qmin (velocity_kmh / 100000.0) 1.0 in
  clamp (0.4 * diameter_factor + 0.4 * distance_factor + 0.2 * velocity_factor) 0 1.







Definition is_sql_event (ev : Event) : bool :=
  match ev with
  | EvConnect | EvExecute _ _ | EvCommit _ | EvRollback _ => true
  | _ => false
  end.

(** The events between two states of the world. *)
Definition new_events (w w' : World) : list Event :=
  skipn (length (trace w)) (trace w').

Definition attempts_sql (w w' : World) : bool :=
  existsb is_sql_event (new_events w w').

(** A computation keeps a relation between the worlds before and
    after it, whatever it returns. *)
Definition preserves {A : Type} (R : World -> World -> Prop) (m : M A) : Prop :=
  forall w, R w (snd (m w)).

Definition tables_kept (w w' : World) : Prop :=
  raw_asteroid_data w' = raw_asteroid_data w /\
  processed_asteroid_insights w' = processed_asteroid_insights w.

(** Nothing was asked of the SQL database. *)
Definition sql_untouched (w w' : World) : Prop :=
  sql_connections w' = sql_connections w /\
  tables_kept w w' /\
  exists evs,
    trace w' = (trace w ++ evs)%list /\
    forallb (fun ev => negb (is_sql_event ev)) evs = true.

(** [row] is what [values] binds for [asteroid] in some state of the
    world. *)
Definition row_of (values : pyval -> M Row) (asteroid : pyval) (row : Row) : Prop :=
  exists w w', values asteroid w = (Ok row, w').

Definition any_event (ev : Event) : Prop := True.

Definition feed_kept (w w' : World) : Prop := feed_calls w' = feed_calls w.

Definition no_sql_event (ev : Event) : Prop := is_sql_event ev = false.

(** Section 4.3 on archiving: a cycle whose archival write raises still
    goes on to the structured store. *)
Definition archival_failure_tolerated `{Builtins} (E : Env) (mode : string)
  (w : World) : Prop :=
  forall batch w1 e w2,
    fetch_asteroid_data E (days_of_mode mode) w = (Ok batch, w1) ->
    batch <> [] ->
    store_raw_data_blob E batch w1 = (Raise e, w2) ->
    attempts_sql w (snd (process_data E mode w)) = true.


Definition feed_records (neo_data : list (string * list pyval)) : list pyval :=
  concat (map snd neo_data).


(** Section 4.1 on the normalizer: no object the record reaches is
    changed by formatting it. *)
Definition formatting_is_pure `{Builtins} (asteroid : formatting.val)
  (h : formatting.heap) : Prop :=
  forall l : formatting.loc,
    formatting.reaches h asteroid l ->
    snd (formatting.format_asteroid_data asteroid h) !! l = h !! l.

(** A record as the feed delivers it: enrichment has not yet added its
    own fields. *)
Definition raw_record (d : list (string * pyval)) : Prop :=
  dict_lookup "risk_score" d = None /\ dict_lookup "hazard_level" d = None.

Definition no_close_approach (d : list (string * pyval)) : Prop :=
  dict_lookup "close_approach_data" d = None \/
  dict_lookup "close_approach_data" d = Some (PList []).

(** The derived-insight row of a record without an approach. *)
Definition insight_defaults (row : Row) : Prop :=
  dict_lookup "risk_score" row = Some (SqlParam (PFloat 0.0)) /\
  dict_lookup "hazard_level" row = Some (SqlParam (PStr "LOW")) /\
  dict_lookup "threat_level" row = Some (SqlParam (PStr "LOW")) /\
  dict_lookup "is_high_priority" row = Some (SqlParam (PBool false)) /\
  dict_lookup "velocity_category" row = Some (SqlParam PNone) /\
  dict_lookup "distance_category" row = Some (SqlParam PNone) /\
  dict_lookup "days_to_approach" row = Some (SqlParam PNone).

(** The claim on records without an approach, as it is worded: for
    whatever else the record holds. *)
Definition defaults_without_approach `{Builtins} (E : Env) (d : list (string * pyval))
  : Prop :=
  no_close_approach d ->
  forall date w w1 enriched row,
    _enrich_asteroid_data E (PDict d) date w = (Ok enriched, w1) ->
    row_of (storage.insight_values E) enriched row ->
    insight_defaults row.

(** The value [x] of a mapping is the number [q]: a float, an int that
    a float can hold, or a str that reads as [q]. *)
Definition number_of `{Builtins} (x : pyval) (q : Q) : Prop :=
  match x with
  | PFloat r => q = r
  | PInt z => (Z.abs z < float_overflow)%Z /\ q = inject_Z z
  | PStr s => float_of_str s = Some q
  | _ => False
  end.

(** The three mappings given to [calculate_risk_score] hold the
    diameter [d], the miss distance [m] and the velocity [v]. *)
Definition risk_inputs `{Builtins} (diameter_data miss_distance velocity : pyval)
  (d m v : Q) : Prop :=
  exists dd km md vd x y z,
    diameter_data = PDict dd /\
    dict_lookup "kilometers" dd = Some (PDict km) /\
    dict_lookup "estimated_diameter_max" km = Some x /\
    number_of x d /\
    miss_distance = PDict md /\
    dict_lookup "kilometers" md = Some y /\
    number_of y m /\
    velocity = PDict vd /\
    dict_lookup "kilometers_per_hour" vd = Some z /\
    number_of z v.

End spec.

(** ** Notions used by the further properties *)

Module notions.

Import processor storage.

(** [approach.get(group, {}).get(unit, 0)] on the first approach of a
    record, as [_calculate_insights] reads velocity and distance. *)
Definition approach_reading (asteroid : pyval) (group unit_ : string) : result pyval :=
  approach <- first_approach asteroid ;;
  g <- py_get approach group (PDict []) ;;
  py_get g unit_ (PInt 0).

Definition tables_grow (w w' : World) : Prop :=
  raw_asteroid_data w `prefix_of` raw_asteroid_data w' /\
  processed_asteroid_insights w `prefix_of` processed_asteroid_insights w'.

Definition blobs_kept (w w' : World) : Prop := blobs w' = blobs w.

(** The keys [_enrich_asteroid_data] assigns. *)
Definition enrichment_keys : list string :=
  ["processed_date"; "data_source"; "risk_score"; "hazard_level"; "orbital_insights"].

(** A value [float] turns into a number or refuses with ValueError: a
    float, a bool, a str, or an int that a float can hold. *)
Definition reads_as_number (v : pyval) : Prop :=
  match v with
  | PFloat _ | PBool _ | PStr _ => True
  | PInt z => (Z.abs z < float_overflow)%Z
  | _ => False
  end.

(** The keys [_calculate_insights] assigns. *)
Definition insight_keys : list string :=
  ["size_category"; "orbit_type"; "inclination_type"; "velocity_category";
   "distance_category"; "days_to_approach"; "is_high_priority"; "threat_level";
   "recommended_action"; "processing_metadata"].

(** [d.get(k)] *)
Definition get_or_none (k : string) (d : list (string * pyval)) : pyval :=
  match dict_lookup k d with
  | Some v => v
  | None => PNone
  end.

(** A record shaped like that of [tests/test_duplicate_handling.py],
    the orbital elements nested under 'orbit', with numbers for its
    readings; its approach is dated on the day of
    [samples.sample_clock]. *)
Definition due_today : pyval :=
  PDict
    [("id", PStr "2000433");
     ("name", PStr "433 Eros");
     ("estimated_diameter",
        PDict [("kilometers", PDict [("estimated_diameter_max", PFloat 0.34)])]);
     ("close_approach_data",
        PList
          [PDict
             [("close_approach_date", PStr "2024-01-15");
              ("relative_velocity", PDict [("kilometers_per_hour", PInt 25000)]);
              ("miss_distance", PDict [("kilometers", PInt 50000000)])]]);
     ("orbital_data",
        PDict
          [("orbit_id", PStr "1");
           ("orbit",
              PDict [("eccentricity", PFloat 0.223);
                     ("inclination", PFloat 10.829)])])].

Definition is_post (ev : Event) : bool :=
  match ev with
  | EvPost _ => true
  | _ => false
  end.

Definition no_post (evs : list Event) : Prop :=
  forallb (fun ev => negb (is_post ev)) evs = true.

(** The function was not called. *)
Definition unposted (w w' : World) : Prop :=
  exists evs, trace w' = (trace w ++ evs)%list /\ no_post evs.

Definition not_a_post (ev : Event) : Prop := is_post ev = false.

(** Enrichment raises on the record, whenever it is called. *)
Definition enrichment_fails `{Builtins} (E : Env) (asteroid : pyval) : Prop :=
  forall date w, exists e, fst (_enrich_asteroid_data E asteroid date w) = Raise e.

(** [enriched] is [asteroid] with nothing but the keys of enrichment
    added or changed. *)
Definition enriched_from (asteroid enriched : pyval) : Prop :=
  exists d en,
    asteroid = PDict d /\ enriched = PDict en /\
    (forall k, ~ In k enrichment_keys -> dict_lookup k en = dict_lookup k d) /\
    dict_lookup "data_source" en = Some (PStr "NASA NEO API").

(** The fields [format_asteroid_data] gives its result. *)
Definition formatted_keys : list string :=
  ["id"; "name"; "nasa_jpl_url"; "absolute_magnitude_h"; "estimated_diameter";
   "is_potentially_hazardous_asteroid"; "close_approach_data"; "orbital_data";
   "is_sentry_object"; "links"].

(** [rec.get(k, default)] on the mapping itself. *)
Definition field_or (rec : gmap string formatting.val) (k : string)
  (default : formatting.val) : formatting.val :=
  match rec !! k with
  | Some v => v
  | None => default
  end.

(** The object at [l] is new, and is [o]. *)
Definition fresh_at (h h' : formatting.heap) (l : formatting.loc)
  (o : formatting.obj) : Prop :=
  h !! l = None /\ h' !! l = Some o.

End notions.

(** ** utils.py: [retry_on_failure] *)

Module retrying.

Section Wrapper.

Context {St A : Type}.

(** The wrapped call with its arguments, and [time.sleep(delay)], on
    whatever state the call works on. *)
Variable func : St -> result A * St.
Variable sleep : St -> St.

(** [for attempt in range(max_retries + 1)] from [attempt] on, with
    [remaining] rounds to go; after the loop, [raise last_exception],
    which is a TypeError when nothing was caught. *)
Fixpoint attempts (max_retries : Z) (remaining : nat) (attempt : Z)
  (last_exception : option exn) (s : St) : result A * St :=
  match remaining with
  | O =>
      match last_exception with
      | Some e => (Raise e, s)
      | None => (Raise TypeError, s)
      end
  | S n =>
      match func s with
      | (Ok a, s') => (Ok a, s')
      | (Raise e, s') =>
          let s'' := if (attempt <? max_retries)%Z then sleep s' else s' in
          attempts max_retries n (attempt + 1)%Z (Some e) s''
      end
  end.

Definition retry_on_failure (max_retries : Z) (s : St) : result A * St :=
  attempts max_retries (Z.to_nat (max_retries + 1)) 0%Z None s.

(** The state in which attempt [k] starts when the attempts before it
    all raised. *)
Fixpoint after_failures (k : nat) (s : St) : St :=
  match k with
  | O => s
  | S k' => sleep (snd (func (after_failures k' s)))
  end.

Definition fails_at (s : St) : Prop := exists e, fst (func s) = Raise e.

End Wrapper.

(** A call that raises on its first two runs, on a run counter. *)
Definition flaky (runs : nat) : result nat * nat :=
  (if (runs <? 2)%nat then Raise FeedError else Ok runs, S runs).

End retrying.

(** ** nasa_api_client.py *)

Module nasa_api_client.

Import processor.

(** What answers a GET: the decoded JSON body, or the exception of
    [requests.get], [raise_for_status] or [json], by URL, query
    parameters and the number of the request. *)
Record Client : Type := {
  api_key : option string;
  http_get : string -> option (list (string * pyval)) -> nat -> result pyval
}.

Definition base_url : string := "https://api.nasa.gov/neo/rest/v1".

(** [params = params or {}; params['api_key'] = self.api_key], when the
    key is set and not empty. *)
Definition with_api_key (C : Client) (params : option (list (string * pyval)))
  : option (list (string * pyval)) :=
  match api_key C with
  | Some key =>
      if negb (String.eqb key "")
      then Some (dict_set "api_key" (PStr key)
                   (match params with Some p => p | None => [] end))
      else params
  | None => params
  end.

(** The requests are counted where the feed's are. *)
Definition _make_request (C : Client) (endpoint : string)
  (params : option (list (string * pyval))) : M pyval :=
  let url := (base_url ++ "/" ++ endpoint)%string in
  let params := with_api_key C params in
  fun w => (http_get C url params (feed_calls w), count_feed w).

(** [o.items()] *)
Definition py_items (o : pyval) : result (list (string * pyval)) :=
  match o with
  | PDict d => Ok d
  | _ => Raise AttributeError
  end.

(** [strftime_date] is [strftime('%Y-%m-%d')]; a [timedelta] beyond the
    range of [datetime] is outside the model. *)
Definition get_near_earth_objects (strftime_date : Z -> string) (E : Env)
  (C : Client) (days : Z) : M (list (string * pyval)) :=
  let days := if (7 <? days)%Z then 7%Z else days in
  end_date <~ now E ;;
  let start_date := (end_date - (days - 1) * microseconds_per_day)%Z in
  let params :=
    [("start_date", PStr (strftime_date start_date));
     ("end_date", PStr (strftime_date end_date))] in
  response <~ _make_request C "feed" (Some params) ;;
  objects <~ lift (py_get response "near_earth_objects" (PDict [])) ;;
  items <~ lift (py_items objects) ;;
  ret (fold_left (fun neo_data '(date, asteroids) => dict_set date asteroids neo_data)
         items []).

Definition get_asteroid_details (C : Client) (asteroid_id : string) : M pyval :=
  _make_request C ("neo/" ++ asteroid_id) None.

Definition get_asteroid_browse (C : Client) (page size : Z) : M pyval :=
  let params := [("page", PInt page); ("size", PInt (Z.min size 20))] in
  _make_request C "browse" (Some params).

(** The request [get_near_earth_objects] sends at time [t]. *)
Definition feed_request (strftime_date : Z -> string) (C : Client)
  (window : Z) (t : Z) (n : nat) : result pyval :=
  http_get C (base_url ++ "/feed")%string
    (with_api_key C
       (Some [("start_date",
               PStr (strftime_date (t - (window - 1) * microseconds_per_day)%Z));
              ("end_date", PStr (strftime_date t))]))
    n.

(** The date of a time stamp, for the samples. *)
Definition pad2 (n : Z) : string :=
  if (n <? 10)%Z then ("0" ++ pretty n)%string else pretty n.

Definition date_string (t : Z) : string :=
  let z := (t / microseconds_per_day + 719468)%Z in
  let era := (z / 146097)%Z in
  let doe := (z - era * 146097)%Z in
  let yoe := ((doe - doe / 1460 + doe / 36524 - doe / 146096) / 365)%Z in
  let doy := (doe - (365 * yoe + yoe / 4 - yoe / 100))%Z in
  let mp := ((5 * doy + 2) / 153)%Z in
  let d := (doy - (153 * mp + 2) / 5 + 1)%Z in
  let m := (if (mp <? 10)%Z then mp + 3 else mp - 9)%Z in
  let y := (yoe + era * 400 + (if (m <=? 2)%Z then 1 else 0))%Z in
  (pretty y ++ "-" ++ pad2 m ++ "-" ++ pad2 d)%string.

(** A service that answers every request with one day of one record. *)
Definition one_record : Client :=
  {| api_key := Some "DEMO_KEY";
     http_get := fun _ _ _ =>
       Ok (PDict [("element_count", PInt 1);
                  ("near_earth_objects",
                     PDict [("2024-01-15", PList [notions.due_today])])]) |}.

End nasa_api_client.

(** ** function_app.py: the HTTP trigger *)

Module function_app.

Import processor storage.

(** [func.HttpResponse(body, status_code=...)]; the status is 200 when
    none is given.  A JSON body is kept as the value it encodes. *)
Record HttpResponse : Type := {
  status_code : Z;
  body : pyval
}.

(** What a call of the handler finds: the two environment variables,
    the outcome of building the processor (the blob client and the
    check of its container) and that of [req.get_json()]. *)
Record Request : Type := {
  storage_connection_string : option string;
  sql_connection_string : option string;
  processor_built : result unit;
  get_json : result pyval
}.

(** [bool(os.getenv(name))] *)
Definition env_set (v : option string) : bool :=
  match v with
  | Some s => negb (String.eqb s "")
  | None => false
  end.

(** The processor of the handler is built without a function URL. *)
Definition handler_env (E : Env) : Env :=
  {| clock := clock E;
     feed := feed E;
     blob_accepts := blob_accepts E;
     sql_connects := sql_connects E;
     sql_commits := sql_commits E;
     raw_rejects := raw_rejects E;
     insights_rejects := insights_rejects E;
     function_url := None |}.

Definition value_error (e : exn) : bool :=
  match e with
  | ValueError => true
  | _ => false
  end.

(** [try: req_body = req.get_json(); mode = req_body.get('mode', 'auto');
    days = req_body.get('days', 7)  except ValueError: mode = 'auto'] *)
Definition read_mode (req : Request) : result pyval :=
  try_except
    (req_body <- get_json req ;;
     mode <- py_get req_body "mode" (PStr "auto") ;;
     days <- py_get req_body "days" (PInt 7) ;;
     Ok mode)
    value_error
    (fun _ => Ok (PStr "auto")).

(** [process_data] compares its mode with the names of the modes: a
    mode that is no str equals none of them, as 'auto' does. *)
Definition mode_name (mode : pyval) : string :=
  match mode with
  | PStr s => s
  | _ => "auto"
  end.

Definition success (message timestamp : string) : HttpResponse :=
  {| status_code := 200;
     body := PDict [("status", PStr "success");
                    ("message", PStr message);
                    ("timestamp", PStr timestamp)] |}.

Definition failure (message timestamp : string) : HttpResponse :=
  {| status_code := 500;
     body := PDict [("status", PStr "error");
                    ("message", PStr message);
                    ("timestamp", PStr timestamp)] |}.

(** The body of the handler's [try]; [py_str] is [str(o)]. *)
Definition process_asteroids_body `{Builtins} (py_str : pyval -> string) (E : Env)
  (req : Request) : M HttpResponse :=
  if negb (env_set (storage_connection_string req))
     || negb (env_set (sql_connection_string req))
  then ret {| status_code := 500;
              body := PStr "Missing required environment variables" |}
  else
    _ <~ lift (processor_built req) ;;
    mode <~ lift (read_mode req) ;;
    _ <~ process_data (handler_env E) (mode_name mode) ;;
    t <~ now E ;;
    ret (success ("Processed asteroid data in " ++ py_str mode ++ " mode")
           (isoformat t)).

(** [except Exception as e]: the error is reported, not raised. *)
Definition process_asteroids `{Builtins} (py_str : pyval -> string) (E : Env)
  (req : Request) : M HttpResponse :=
  fun w =>
    match process_asteroids_body py_str E req w with
    | (Ok response, w') => (Ok response, w')
    | (Raise e, w') =>
        (t <~ now E ;; ret (failure (exn_str e) (isoformat t))) w'
    end.

(** A request with both variables set, a processor that could be built
    and a body that asks for the incremental mode. *)
Definition incremental : Request :=
  {| storage_connection_string := Some "UseDevelopmentStorage=true";
     sql_connection_string := Some "Driver={ODBC Driver 18 for SQL Server}";
     processor_built := Ok tt;
     get_json := Ok (PDict [("mode", PStr "manual-incremental")]) |}.

End function_app.

(** ** Tactics *)

Local Open Scope Q_scope.

(** Replaces every [Qmin] and [Qmax] of the goal by a fresh variable
    known by its defining cases. *)
Ltac abstract_minmax :=
  repeat match goal with
    | |- context [Qmin ?a ?b] =>
        let m := fresh "m" in
        pose proof (Q.min_spec a b); set (m := Qmin a b) in *; clearbody m
    | |- context [Qmax ?a ?b] =>
        let m := fresh "m" in
        pose proof (Q.max_spec a b); set (m := Qmax a b) in *; clearbody m
    | _ : context [Qmin ?a ?b] |- _ =>
        let m := fresh "m" in
        pose proof (Q.min_spec a b); set (m := Qmin a b) in *; clearbody m
    | _ : context [Qmax ?a ?b] |- _ =>
        let m := fresh "m" in
        pose proof (Q.max_spec a b); set (m := Qmax a b) in *; clearbody m
    end.

Ltac constant_divisors :=
  unfold Qdiv;
  change (/ 10.0) with (10 # 100);
  change (/ 1000000.0) with (10 # 10000000);
  change (/ 100000.0) with (10 # 1000000).

Local Close Scope Q_scope.

(** Splits the hypotheses that say a sequence of [bind]s returned. *)
Ltac unbind :=
  repeat match goal with
    | H : bind ?m _ = Ok _ |- _ =>
        let E := fresh "E" in
        destruct m eqn:E; cbn [bind] in H; [| discriminate H]
    | H : (if ?b then _ else _) = Ok _ |- _ =>
        let E := fresh "E" in destruct b eqn:E
    | H : Raise _ = Ok _ |- _ => discriminate H
    | H : Ok _ = Ok _ |- _ => injection H as H; try subst
    end.

(** One step of a computation on the world that returned. *)
Ltac unbindW H :=
  match type of H with
  | mbindW ?m _ ?w = (Ok _, _) =>
      let r := fresh "r" in
      let w' := fresh "w" in
      let E := fresh "E" in
      unfold mbindW at 1 in H;
      destruct (m w) as [[r | ?] w'] eqn:E; [| discriminate H]
  end.

(** * Properties *)

(** ** Arithmetic of the score *)

Section Score.

Import utils.

Local Open Scope Q_scope.

Lemma Qltb_lt (x y : Q) : Qltb x y = true <-> x < y.
Proof.
  unfold Qltb. rewrite negb_true_iff.
  split; intros Hlt.
  - apply Qnot_le_lt. intros Hle. apply Qle_bool_iff in Hle. congruence.
  - destruct (Qle_bool y x) eqn:Hb; [| reflexivity].
    apply Qle_bool_iff in Hb. exfalso. exact (Qlt_not_le _ _ Hlt Hb).
Qed.

Lemma weighted_risk_spec (d m v : Q) :
  0 <= d -> 0 <= m -> 0 <= v ->
  weighted_risk d m v == spec.risk_score d m v.
Proof.
  intros Hd Hm Hv. unfold weighted_risk, spec.risk_score, spec.clamp.
  constant_divisors. abstract_minmax. lra.
Qed.

Lemma weighted_risk_range (d m v : Q) :
  0 <= d -> 0 <= m -> 0 <= v ->
  0 <= weighted_risk d m v <= 1.
Proof.
  intros Hd Hm Hv. unfold weighted_risk.
  constant_divisors. abstract_minmax. lra.
Qed.

Lemma weighted_risk_mono_diameter (d d' m v : Q) :
  d <= d' -> weighted_risk d m v <= weighted_risk d' m v.
Proof.
  intros Hle. unfold weighted_risk. constant_divisors. abstract_minmax. lra.
Qed.

Lemma weighted_risk_mono_velocity (d m v v' : Q) :
  v <= v' -> weighted_risk d m v <= weighted_risk d m v'.
Proof.
  intros Hle. unfold weighted_risk. constant_divisors. abstract_minmax. lra.
Qed.

Lemma weighted_risk_anti_distance (d m m' v : Q) :
  m <= m' -> weighted_risk d m' v <= weighted_risk d m v.
Proof.
  intros Hle. unfold weighted_risk. constant_divisors. abstract_minmax. lra.
Qed.

Context `{Builtins}.

(** Once the three numbers are read, the score is [weighted_risk]. *)
Lemma calculate_risk_score_numeric (dd md vd : pyval) (d m v : Q) :
  diameter_km_of dd = Ok d ->
  miss_distance_km_of md = Ok m ->
  velocity_kmh_of vd = Ok v ->
  calculate_risk_score dd md vd = Ok (weighted_risk d m v).
Proof.
  intros Hd Hm Hv. unfold calculate_risk_score.
  rewrite Hd, Hm, Hv. reflexivity.
Qed.

End Score.

(** ** The risk score *)

Section RiskScore.

Import utils.

Local Open Scope Q_scope.

Context `{Builtins}.

(** C2 (code bug).  Given three empty mappings, [calculate_risk_score]
    reads every missing number as 0, so the miss distance counts as a
    direct hit: the score is 0.4, where the specification and the test
    [test_calculate_risk_score_invalid_data] expect 0.0. *)
Theorem calculate_risk_score_empty_inputs :
  exists s,
    calculate_risk_score (PDict []) (PDict []) (PDict []) = Ok s /\
    s == 0.4 /\ ~ s == 0.
Proof.
  eexists. split; [reflexivity |]. split.
  - vm_compute. reflexivity.
  - intros Heq. vm_compute in Heq. discriminate.
Qed.

(** The fallback is there for a leaf that [float] refuses. *)
Lemma calculate_risk_score_unparsable (s : string) (md vd : pyval) :
  float_of_str s = None ->
  calculate_risk_score
    (PDict [("kilometers", PDict [("estimated_diameter_max", PStr s)])]) md vd
  = Ok 0.0.
Proof.
  intros Hs. unfold calculate_risk_score, diameter_km_of. simpl.
  rewrite Hs. reflexivity.
Qed.

(** It is not there for a mapping that is no mapping: AttributeError is
    not among the exceptions the function catches. *)
Lemma calculate_risk_score_attribute_error (s : string) (md vd : pyval) :
  calculate_risk_score (PDict [("kilometers", PStr s)]) md vd = Raise AttributeError.
Proof. reflexivity. Qed.

(** What the readers make of a value that holds a number. *)
Lemma py_float_number (x : pyval) (q : Q) : spec.number_of x q -> py_float x = Ok q.
Proof.
  destruct x as [| b | z | r | s | l | dd]; simpl; try contradiction.
  - intros [Hrange ->]. apply Z.ltb_lt in Hrange. rewrite Hrange. reflexivity.
  - intros ->. reflexivity.
  - intros ->. reflexivity.
Qed.

(** C3.  For three mappings that hold nonnegative numbers, the
    diameter under kilometers / estimated_diameter_max, the miss
    distance under kilometers and the velocity under
    kilometers_per_hour, [calculate_risk_score] returns the clamped
    weighted sum of section 4.2 of those numbers, and the result lies
    in [0, 1]. *)
Theorem calculate_risk_score_formula (diameter_data miss_distance velocity : pyval)
  (d m v : Q) :
  spec.risk_inputs diameter_data miss_distance velocity d m v ->
  0 <= d -> 0 <= m -> 0 <= v ->
  exists s,
    calculate_risk_score diameter_data miss_distance velocity = Ok s /\
    s == spec.risk_score d m v /\
    0 <= s <= 1.
Proof.
  intros (dd & km & md & vd & x & y & z
          & -> & Hkm & Hx & Hd & -> & Hy & Hm & -> & Hz & Hv) Hd0 Hm0 Hv0.
  exists (weighted_risk d m v). split; [| split].
  - apply calculate_risk_score_numeric.
    + unfold diameter_km_of. simpl. rewrite Hkm. simpl. rewrite Hx. simpl.
      apply py_float_number. exact Hd.
    + unfold miss_distance_km_of. simpl. rewrite Hy. simpl.
      apply py_float_number. exact Hm.
    + unfold velocity_kmh_of. simpl. rewrite Hz. simpl.
      apply py_float_number. exact Hv.
  - apply weighted_risk_spec; assumption.
  - apply weighted_risk_range; assumption.
Qed.

(** C4.  With the other two arguments fixed, the score does not go
    down when the diameter or the velocity goes up, and does not go up
    when the miss distance goes up. *)
Theorem calculate_risk_score_monotone
  (dd dd' md md' vd vd' : pyval) (d d' m m' v v' : Q) :
  diameter_km_of dd = Ok d -> diameter_km_of dd' = Ok d' ->
  miss_distance_km_of md = Ok m -> miss_distance_km_of md' = Ok m' ->
  velocity_kmh_of vd = Ok v -> velocity_kmh_of vd' = Ok v' ->
  d <= d' -> m <= m' -> v <= v' ->
  exists s s_d s_m s_v,
    calculate_risk_score dd md vd = Ok s /\
    calculate_risk_score dd' md vd = Ok s_d /\ s <= s_d /\
    calculate_risk_score dd md' vd = Ok s_m /\ s_m <= s /\
    calculate_risk_score dd md vd' = Ok s_v /\ s <= s_v.
Proof.
  intros Hd Hd' Hm Hm' Hv Hv' Hdle Hmle Hvle.
  exists (weighted_risk d m v), (weighted_risk d' m v),
    (weighted_risk d m' v), (weighted_risk d m v').
  repeat split; try (apply calculate_risk_score_numeric; assumption).
  - apply weighted_risk_mono_diameter; assumption.
  - apply weighted_risk_anti_distance; assumption.
  - apply weighted_risk_mono_velocity; assumption.
Qed.

End RiskScore.

Section RiskScoreWitnesses.

Import utils.

Local Open Scope Q_scope.

(** C3 on the inputs of [test_calculate_risk_score]. *)
Lemma calculate_risk_score_formula_witness :
  exists s,
    @calculate_risk_score samples.builtins samples.diameter_of_test
      (PDict [("kilometers", PStr "500000")])
      (PDict [("kilometers_per_hour", PStr "30000")]) = Ok s /\
    s == spec.risk_score 0.5 500000 30000 /\
    0 <= s <= 1.
Proof.
  apply (@calculate_risk_score_formula samples.builtins).
  - exists [("kilometers", PDict [("estimated_diameter_max", PFloat 0.5)])],
      [("estimated_diameter_max", PFloat 0.5)],
      [("kilometers", PStr "500000")],
      [("kilometers_per_hour", PStr "30000")],
      (PFloat 0.5), (PStr "500000"), (PStr "30000").
    repeat split; reflexivity.
  - vm_compute. discriminate.
  - vm_compute. discriminate.
  - vm_compute. discriminate.
Defined.

(** C4 around the same inputs. *)
Lemma calculate_risk_score_monotone_witness :
  exists s s_d s_m s_v,
    @calculate_risk_score samples.builtins samples.diameter_of_test
      (PDict [("kilometers", PStr "500000")])
      (PDict [("kilometers_per_hour", PStr "30000")]) = Ok s /\
    @calculate_risk_score samples.builtins
      (PDict [("kilometers", PDict [("estimated_diameter_max", PFloat 2.5)])])
      (PDict [("kilometers", PStr "500000")])
      (PDict [("kilometers_per_hour", PStr "30000")]) = Ok s_d /\ s <= s_d /\
    @calculate_risk_score samples.builtins samples.diameter_of_test
      (PDict [("kilometers", PStr "750000")])
      (PDict [("kilometers_per_hour", PStr "30000")]) = Ok s_m /\ s_m <= s /\
    @calculate_risk_score samples.builtins samples.diameter_of_test
      (PDict [("kilometers", PStr "500000")])
      (PDict [("kilometers_per_hour", PStr "60000")]) = Ok s_v /\ s <= s_v.
Proof.
  apply (@calculate_risk_score_monotone samples.builtins) with
    (d := 0.5) (d' := 2.5) (m := 500000) (m' := 750000) (v := 30000) (v' := 60000);
    first [reflexivity | vm_compute; discriminate].
Defined.

End RiskScoreWitnesses.

(** ** Dictionaries *)

Section Dicts.

Context {V : Type}.

Lemma dict_lookup_set (k k' : string) (v : V) (d : list (string * V)) :
  dict_lookup k (dict_set k' v d) =
  if String.eqb k k' then Some v else dict_lookup k d.
Proof.
  induction d as [| [k0 v0] d IH]; simpl.
  - destruct (String.eqb k k'); reflexivity.
  - destruct (String.eqb k' k0) eqn:E0; simpl.
    + apply String.eqb_eq in E0. subst k0.
      destruct (String.eqb k k'); reflexivity.
    + destruct (String.eqb k k0) eqn:E1.
      * apply String.eqb_eq in E1. subst k0.
        rewrite String.eqb_sym, E0. reflexivity.
      * exact IH.
Qed.

Lemma dict_lookup_set_ne (k k' : string) (v : V) (d : list (string * V)) :
  String.eqb k k' = false -> dict_lookup k (dict_set k' v d) = dict_lookup k d.
Proof. intros Hne. rewrite dict_lookup_set, Hne. reflexivity. Qed.

End Dicts.

(** ** Classification *)

Section Classification.

Import processor spec.

Local Open Scope Q_scope.

Context `{Builtins}.


Lemma Qltb_ge (x y : Q) : Qltb x y = false <-> y <= x.
Proof.
  unfold Qltb. rewrite negb_false_iff. apply Qle_bool_iff.
Qed.

(** Both ladders on the risk score are strict from above: a score on a
    threshold belongs to the level below it. *)
Lemma hazard_level_cases (s : Q) :
  (0.7 < s -> hazard_level s = "HIGH"%string) /\
  (0.4 < s -> s <= 0.7 -> hazard_level s = "MEDIUM"%string) /\
  (s <= 0.4 -> hazard_level s = "LOW"%string).
Proof.
  unfold hazard_level. repeat split.
  - intros Hhigh. apply Qltb_lt in Hhigh. rewrite Hhigh. reflexivity.
  - intros Hmed Hle. apply Qltb_lt in Hmed. apply Qltb_ge in Hle.
    rewrite Hle, Hmed. reflexivity.
  - intros Hle.
    assert (Hle' : s <= 0.7) by lra.
    apply Qltb_ge in Hle, Hle'. rewrite Hle', Hle. reflexivity.
Qed.

Lemma threat_level_cases (s : Q) :
  (0.8 < s -> threat_level (PFloat s) = Ok "CRITICAL"%string) /\
  (0.6 < s -> s <= 0.8 -> threat_level (PFloat s) = Ok "HIGH"%string) /\
  (0.4 < s -> s <= 0.6 -> threat_level (PFloat s) = Ok "MEDIUM"%string) /\
  (s <= 0.4 -> threat_level (PFloat s) = Ok "LOW"%string).
Proof.
  unfold threat_level, py_gt. simpl. repeat split.
  - intros H1. apply Qltb_lt in H1. rewrite H1. reflexivity.
  - intros H1 H2. apply Qltb_lt in H1. apply Qltb_ge in H2.
    rewrite H2, H1. reflexivity.
  - intros H1 H2. assert (H3 : s <= 0.8) by lra.
    apply Qltb_lt in H1. apply Qltb_ge in H2, H3. rewrite H3, H2, H1. reflexivity.
  - intros H1. assert (H2 : s <= 0.6) by lra. assert (H3 : s <= 0.8) by lra.
    apply Qltb_ge in H1, H2, H3. rewrite H3, H2, H1. reflexivity.
Qed.










End Classification.

Section ClassificationWitness.

Import processor spec samples.

Local Open Scope Q_scope.

#[local] Existing Instance samples.builtins.


End ClassificationWitness.

(** ** What a computation leaves alone *)

Create HintDb frame.

Section Frames.

Import processor storage spec.

Variable R : World -> World -> Prop.
Variable allowed : Event -> Prop.
Hypothesis R_refl : forall w, R w w.
Hypothesis R_trans : forall a b c, R a b -> R b c -> R a c.
Hypothesis R_tick : forall w, R w (tick w).
Hypothesis R_feed : forall w, R w (count_feed w).
Hypothesis R_blobs : forall b w, R w (set_blobs b w).
Hypothesis R_event : forall ev w, allowed ev -> R w (log_event ev w).

Lemma preserves_ret {A : Type} (a : A) : preserves R (ret a).
Proof. intros w. apply R_refl. Qed.

Lemma preserves_raise {A : Type} (e : exn) : preserves R (@raise A e).
Proof. intros w. apply R_refl. Qed.

Lemma preserves_lift {A : Type} (r : result A) : preserves R (lift r).
Proof. intros w. apply R_refl. Qed.

Lemma preserves_bind {A B : Type} (m : M A) (k : A -> M B) :
  preserves R m -> (forall a, preserves R (k a)) -> preserves R (mbindW m k).
Proof.
  intros Hm Hk w. unfold mbindW.
  specialize (Hm w). destruct (m w) as [[a | e] w1]; simpl in *.
  - eapply R_trans; [exact Hm | apply Hk].
  - exact Hm.
Qed.

Lemma preserves_now (E : Env) : preserves R (now E).
Proof. intros w. apply R_tick. Qed.

Lemma preserves_emit (ev : Event) : allowed ev -> preserves R (emit ev).
Proof. intros Hev w. apply R_event. exact Hev. Qed.

Hint Resolve preserves_ret preserves_raise preserves_lift preserves_now : frame.

Ltac frame :=
  repeat first
    [ solve [auto with frame]
    | apply preserves_bind; [| intros ?] ].

Context `{Builtins}.

Lemma preserves_enrich (E : Env) (asteroid : pyval) (date : string) :
  preserves R (_enrich_asteroid_data E asteroid date).
Proof. destruct asteroid; simpl; frame. Qed.

Lemma preserves_days_step (E : Env) (asteroid : pyval) (insights : list (string * pyval)) :
  preserves R (days_step E asteroid insights).
Proof.
  unfold days_step.
  apply preserves_bind; [auto with frame | intros close].
  destruct close; [| apply preserves_ret].
  apply preserves_bind; [auto with frame | intros approach].
  apply preserves_bind; [auto with frame | intros date].
  destruct (py_truthy date); [| apply preserves_ret].
  destruct date; try apply preserves_raise.
  destruct (strptime_ymd s); frame.
Qed.

Hint Resolve preserves_days_step : frame.

Lemma preserves_calculate_insights (E : Env) (asteroid : pyval) :
  preserves R (_calculate_insights E asteroid).
Proof. unfold _calculate_insights. frame. Qed.

Lemma preserves_raw_values (E : Env) (asteroid : pyval) :
  preserves R (raw_values E asteroid).
Proof. unfold raw_values. frame. Qed.

Lemma preserves_insight_values (E : Env) (asteroid : pyval) :
  preserves R (insight_values E asteroid).
Proof.
  unfold insight_values. apply preserves_bind.
  - apply preserves_calculate_insights.
  - intros insights. frame.
Qed.

Hint Resolve preserves_enrich : frame.

Lemma preserves_enrich_all (E : Env) (date : string) (asteroids : list pyval) :
  preserves R (enrich_all E date asteroids).
Proof. induction asteroids as [| a rest IH]; simpl; frame. Qed.

Hint Resolve preserves_enrich_all : frame.

Lemma preserves_enrich_dates (E : Env) (neo_data : list (string * list pyval)) :
  preserves R (enrich_dates E neo_data).
Proof. induction neo_data as [| [date asteroids] rest IH]; simpl; frame. Qed.

Lemma preserves_retry {A : Type} (n : nat) (call : M A) :
  preserves R call -> preserves R (retry n call).
Proof.
  intros Hcall. induction n as [| n IH]; simpl.
  - apply preserves_raise.
  - intros w. specialize (Hcall w).
    destruct (call w) as [[a | e] w1]; simpl in *; [exact Hcall |].
    eapply R_trans; [exact Hcall | apply IH].
Qed.

Lemma preserves_fetch (E : Env) (days : Z) :
  allowed (EvFeed days) -> preserves R (fetch_asteroid_data E days).
Proof.
  intros Hev. apply preserves_retry. unfold fetch_once.
  apply preserves_bind; [apply preserves_emit; exact Hev | intros _].
  apply preserves_bind; [apply preserves_now | intros end_date].
  apply preserves_bind; [| intros neo_data; apply preserves_enrich_dates].
  intros w. simpl. apply R_feed.
Qed.

Lemma preserves_blob (E : Env) (asteroid_data : list pyval) :
  (forall filename, allowed (EvUpload filename)) ->
  preserves R (store_raw_data_blob E asteroid_data).
Proof.
  intros Hev. unfold store_raw_data_blob.
  apply preserves_bind; [apply preserves_now | intros t].
  apply preserves_bind; [apply preserves_emit; apply Hev | intros _].
  destruct (blob_accepts E _ asteroid_data).
  - intros w. simpl. apply R_blobs.
  - apply preserves_raise.
Qed.

Lemma preserves_insert_all (table : string) (values : pyval -> M Row)
  (rejects : Row -> list Row -> bool) (asteroid_data : list pyval) :
  (forall row, allowed (EvExecute table row)) ->
  (forall asteroid, preserves R (values asteroid)) ->
  forall pending, preserves R (insert_all table values rejects asteroid_data pending).
Proof.
  intros Hev Hvalues.
  induction asteroid_data as [| a rest IH]; intros pending; simpl.
  - apply preserves_ret.
  - apply preserves_bind; [apply Hvalues | intros row].
    apply preserves_bind; [| intros pending'; apply IH].
    unfold execute_insert.
    apply preserves_bind; [apply preserves_emit; apply Hev | intros _].
    destruct (rejects row pending); [apply preserves_raise | apply preserves_ret].
Qed.

End Frames.

(** ** Relations between worlds *)

Section Relations.

Import spec.

Lemma tables_kept_refl (w : World) : tables_kept w w.
Proof. split; reflexivity. Qed.

Lemma tables_kept_trans (a b c : World) :
  tables_kept a b -> tables_kept b c -> tables_kept a c.
Proof. intros [H1 H2] [H3 H4]. split; congruence. Qed.

Lemma sql_untouched_refl (w : World) : sql_untouched w w.
Proof.
  split; [reflexivity |]. split; [apply tables_kept_refl |].
  exists []. rewrite app_nil_r. split; reflexivity.
Qed.

Lemma sql_untouched_trans (a b c : World) :
  sql_untouched a b -> sql_untouched b c -> sql_untouched a c.
Proof.
  intros (Hc1 & Ht1 & evs1 & Htr1 & Hev1) (Hc2 & Ht2 & evs2 & Htr2 & Hev2).
  split; [congruence |]. split; [eapply tables_kept_trans; eassumption |].
  exists (evs1 ++ evs2)%list. split.
  - rewrite Htr2, Htr1, app_assoc. reflexivity.
  - rewrite forallb_app, Hev1, Hev2. reflexivity.
Qed.

Lemma sql_untouched_event (ev : Event) (w : World) :
  no_sql_event ev -> sql_untouched w (log_event ev w).
Proof.
  intros Hev. split; [reflexivity |]. split; [split; reflexivity |].
  exists [ev]. split; [reflexivity |].
  simpl. rewrite Hev. reflexivity.
Qed.

Lemma sql_untouched_same (w w' : World) :
  sql_connections w' = sql_connections w ->
  raw_asteroid_data w' = raw_asteroid_data w ->
  processed_asteroid_insights w' = processed_asteroid_insights w ->
  trace w' = trace w ->
  sql_untouched w w'.
Proof.
  intros Hc Hraw Hins Htr. split; [exact Hc |]. split; [split; assumption |].
  exists []. rewrite app_nil_r. split; [exact Htr | reflexivity].
Qed.

End Relations.

Ltac sql_untouched_side :=
  first
    [ exact sql_untouched_refl
    | exact sql_untouched_trans
    | exact sql_untouched_event
    | intros; apply sql_untouched_same; reflexivity
    | intros; reflexivity ].

Ltac tables_kept_side :=
  first
    [ exact tables_kept_refl
    | exact tables_kept_trans
    | intros; split; reflexivity
    | intros; exact I ].

(** ** The two stores *)

Section Stores.

Import processor storage spec.

(** A state reached without SQL shows no SQL event. *)
Lemma sql_untouched_attempts (w w' : World) :
  sql_untouched w w' -> attempts_sql w w' = false.
Proof.
  intros (_ & _ & evs & Htr & Hev). unfold attempts_sql, new_events.
  rewrite Htr, skipn_app, Nat.sub_diag, skipn_all. simpl.
  clear Htr. induction evs as [| ev evs IH]; [reflexivity |].
  simpl in *. apply andb_true_iff in Hev as [Hev1 Hev2].
  apply negb_true_iff in Hev1. rewrite Hev1. simpl. apply IH. exact Hev2.
Qed.

Context `{Builtins}.

Lemma fetch_sql_untouched (E : Env) (days : Z) :
  preserves sql_untouched (fetch_asteroid_data E days).
Proof.
  apply preserves_fetch with (allowed := no_sql_event); sql_untouched_side.
Qed.

Lemma blob_sql_untouched (E : Env) (asteroid_data : list pyval) :
  preserves sql_untouched (store_raw_data_blob E asteroid_data).
Proof.
  apply preserves_blob with (allowed := no_sql_event); sql_untouched_side.
Qed.

Lemma insert_all_tables_kept (table : string) (values : pyval -> M Row)
  (rejects : Row -> list Row -> bool) (asteroid_data : list pyval) (pending : list Row) :
  (forall asteroid, preserves tables_kept (values asteroid)) ->
  preserves tables_kept (insert_all table values rejects asteroid_data pending).
Proof.
  intros Hvalues.
  apply preserves_insert_all with (allowed := any_event);
    first [exact Hvalues | tables_kept_side].
Qed.

Lemma raw_values_tables_kept (E : Env) (asteroid : pyval) :
  preserves tables_kept (raw_values E asteroid).
Proof.
  apply preserves_raw_values; tables_kept_side.
Qed.

Lemma insight_values_tables_kept (E : Env) (asteroid : pyval) :
  preserves tables_kept (insight_values E asteroid).
Proof.
  apply preserves_insight_values; tables_kept_side.
Qed.

(** The loop only ever appends: what it returns is the pending rows it
    started from followed by one row per record, in order. *)
Lemma insert_all_rows (table : string) (values : pyval -> M Row)
  (rejects : Row -> list Row -> bool) (asteroid_data : list pyval) :
  forall (pending pending' : list Row) (w w' : World),
    insert_all table values rejects asteroid_data pending w = (Ok pending', w') ->
    exists rows,
      pending' = (pending ++ rows)%list /\
      Forall2 (row_of values) asteroid_data rows.
Proof.
  induction asteroid_data as [| a rest IH]; intros pending pending' w w' Hrun;
    simpl in Hrun.
  - injection Hrun as <- _. exists []. rewrite app_nil_r. split; constructor.
  - unbindW Hrun. unfold execute_insert in Hrun.
    unfold mbindW at 1 in Hrun. unfold mbindW at 1 in Hrun. simpl in Hrun.
    destruct (rejects r pending); [discriminate Hrun |]. simpl in Hrun.
    apply IH in Hrun as (rows & -> & Hrows).
    exists (r :: rows). split.
    + rewrite <- app_assoc. reflexivity.
    + constructor; [| exact Hrows]. exists w, w0. assumption.
Qed.

Lemma store_raw_data_sql_cases (E : Env) (asteroid_data : list pyval) (w : World) :
  match store_raw_data_sql E asteroid_data w with
  | (Ok _, w') =>
      exists rows,
        raw_asteroid_data w' = (raw_asteroid_data w ++ rows)%list /\
        Forall2 (row_of (raw_values E)) asteroid_data rows /\
        processed_asteroid_insights w' = processed_asteroid_insights w
  | (Raise _, w') => tables_kept w w'
  end.
Proof.
  unfold store_raw_data_sql, mbindW, _get_sql_connection.
  destruct (sql_connects E (sql_connections w)); [| split; reflexivity].
  set (w1 := log_event EvConnect (count_connection w)).
  pose proof (insert_all_tables_kept "raw_asteroid_data" (raw_values E) (raw_rejects E)
                asteroid_data (raw_asteroid_data w1) (raw_values_tables_kept E) w1)
    as [Hraw Hins].
  destruct (insert_all _ _ _ _ _ w1) as [[pending | e] w2] eqn:Hrun; simpl in *.
  - destruct (sql_commits E _); simpl; [| split; assumption].
    apply insert_all_rows in Hrun as (rows & -> & Hrows).
    exists rows. repeat split; assumption.
  - split; assumption.
Qed.

Lemma store_processed_insights_sql_cases (E : Env) (asteroid_data : list pyval)
  (w : World) :
  match store_processed_insights_sql E asteroid_data w with
  | (Ok _, w') =>
      exists rows,
        processed_asteroid_insights w' = (processed_asteroid_insights w ++ rows)%list /\
        Forall2 (row_of (insight_values E)) asteroid_data rows /\
        raw_asteroid_data w' = raw_asteroid_data w
  | (Raise _, w') => tables_kept w w'
  end.
Proof.
  unfold store_processed_insights_sql, mbindW, _get_sql_connection.
  destruct (sql_connects E (sql_connections w)); [| split; reflexivity].
  set (w1 := log_event EvConnect (count_connection w)).
  pose proof (insert_all_tables_kept "processed_asteroid_insights" (insight_values E)
                (insights_rejects E) asteroid_data (processed_asteroid_insights w1)
                (insight_values_tables_kept E) w1)
    as [Hraw Hins].
  destruct (insert_all _ _ _ _ _ w1) as [[pending | e] w2] eqn:Hrun; simpl in *.
  - destruct (sql_commits E _); simpl; [| split; assumption].
    apply insert_all_rows in Hrun as (rows & -> & Hrows).
    exists rows. repeat split; assumption.
  - split; assumption.
Qed.

End Stores.

(** ** The processing cycle *)

Section Cycle.

Import processor storage spec.

Context `{Builtins}.

Lemma process_data_after_fetch (E : Env) (mode : string) (w w1 : World)
  (batch : list pyval) :
  fetch_asteroid_data E (days_of_mode mode) w = (Ok batch, w1) ->
  batch <> [] ->
  process_data E mode w = store_batch E batch w1.
Proof.
  intros Hfetch Hne. unfold process_data, mbindW. rewrite Hfetch.
  destruct batch; [contradiction | reflexivity].
Qed.

Lemma forall2_length {A B : Type} (P : A -> B -> Prop) (l : list A) (l' : list B) :
  Forall2 P l l' -> length l' = length l.
Proof. induction 1; simpl; congruence. Qed.

(** C9.  Either store is all or nothing: when it raises, both tables
    are as they were before the call; when it returns, every record of
    the batch has its row.  The exception reaches the caller of
    [process_data], and the cycle ends in the very state in which the
    store failed: the stage after it is not run. *)
Theorem stores_are_all_or_nothing (E : Env) (batch : list pyval) (w : World) :
  (forall e w', store_raw_data_sql E batch w = (Raise e, w') -> tables_kept w w') /\
  (forall w', store_raw_data_sql E batch w = (Ok tt, w') ->
     exists rows,
       raw_asteroid_data w' = (raw_asteroid_data w ++ rows)%list /\
       length rows = length batch) /\
  (forall e w', store_processed_insights_sql E batch w = (Raise e, w') ->
     tables_kept w w') /\
  (forall w', store_processed_insights_sql E batch w = (Ok tt, w') ->
     exists rows,
       processed_asteroid_insights w' = (processed_asteroid_insights w ++ rows)%list /\
       length rows = length batch) /\
  (forall mode w0 e w1 w2,
     fetch_asteroid_data E (days_of_mode mode) w0 = (Ok batch, w) ->
     batch <> [] ->
     store_raw_data_blob E batch w = (Ok tt, w1) ->
     store_raw_data_sql E batch w1 = (Raise e, w2) ->
     process_data E mode w0 = (Raise e, w2) /\
     tables_kept w1 w2) /\
  (forall mode w0 e w1 w2 w3,
     fetch_asteroid_data E (days_of_mode mode) w0 = (Ok batch, w) ->
     batch <> [] ->
     store_raw_data_blob E batch w = (Ok tt, w1) ->
     store_raw_data_sql E batch w1 = (Ok tt, w2) ->
     store_processed_insights_sql E batch w2 = (Raise e, w3) ->
     process_data E mode w0 = (Raise e, w3) /\
     tables_kept w2 w3).
Proof.
  repeat apply conj.
  - intros e w' Hrun. pose proof (store_raw_data_sql_cases E batch w) as Hc.
    rewrite Hrun in Hc. exact Hc.
  - intros w' Hrun. pose proof (store_raw_data_sql_cases E batch w) as Hc.
    rewrite Hrun in Hc. destruct Hc as (rows & Hraw & Hrows & _).
    exists rows. split; [exact Hraw | eapply forall2_length; exact Hrows].
  - intros e w' Hrun. pose proof (store_processed_insights_sql_cases E batch w) as Hc.
    rewrite Hrun in Hc. exact Hc.
  - intros w' Hrun. pose proof (store_processed_insights_sql_cases E batch w) as Hc.
    rewrite Hrun in Hc. destruct Hc as (rows & Hins & Hrows & _).
    exists rows. split; [exact Hins | eapply forall2_length; exact Hrows].
  - intros mode w0 e w1 w2 Hfetch Hne Hblob Hraw. split.
    + rewrite (process_data_after_fetch E mode w0 w batch Hfetch Hne).
      unfold store_batch, mbindW. rewrite Hblob, Hraw. reflexivity.
    + pose proof (store_raw_data_sql_cases E batch w1) as Hc.
      rewrite Hraw in Hc. exact Hc.
  - intros mode w0 e w1 w2 w3 Hfetch Hne Hblob Hraw Hins. split.
    + rewrite (process_data_after_fetch E mode w0 w batch Hfetch Hne).
      unfold store_batch, mbindW. rewrite Hblob, Hraw, Hins. reflexivity.
    + pose proof (store_processed_insights_sql_cases E batch w2) as Hc.
      rewrite Hins in Hc. exact Hc.
Qed.

End Cycle.

Section CycleWitnesses.

Import processor storage spec samples.

#[local] Existing Instance samples.builtins.

(** C9 on two records with one id, sent to a keyed table in one call:
    the first INSERT is taken, the second refused, and nothing stays. *)
Lemma stores_are_all_or_nothing_witness :
  tables_kept empty_world
    (snd (store_raw_data_sql (keyed []) [tracked; tracked] empty_world)).
Proof.
  destruct (stores_are_all_or_nothing (keyed []) [tracked; tracked] empty_world)
    as [Hraise _].
  apply (Hraise StorageError). vm_compute. reflexivity.
Defined.

End CycleWitnesses.

(** ** The fetch *)

Section Fetch.

Import processor storage spec.

Context `{Builtins}.

Lemma feed_kept_enrich_dates (E : Env) (neo_data : list (string * list pyval)) :
  preserves feed_kept (enrich_dates E neo_data).
Proof.
  apply preserves_enrich_dates; unfold feed_kept; intros; congruence || reflexivity.
Qed.

Lemma tables_kept_fetch (E : Env) (days : Z) :
  preserves tables_kept (fetch_asteroid_data E days).
Proof.
  apply preserves_fetch with (allowed := any_event); tables_kept_side.
Qed.

Lemma tables_kept_blob (E : Env) (asteroid_data : list pyval) :
  preserves tables_kept (store_raw_data_blob E asteroid_data).
Proof.
  apply preserves_blob with (allowed := any_event); tables_kept_side.
Qed.

Lemma enrich_all_length (E : Env) (date : string) (asteroids : list pyval) :
  forall (w w' : World) (enriched : list pyval),
    enrich_all E date asteroids w = (Ok enriched, w') ->
    length enriched = length asteroids.
Proof.
  induction asteroids as [| a rest IH]; intros w w' enriched Hrun; simpl in Hrun.
  - injection Hrun as <- _. reflexivity.
  - unbindW Hrun. unbindW Hrun. injection Hrun as <- _.
    simpl. f_equal. eapply IH. eassumption.
Qed.

Lemma enrich_dates_length (E : Env) (neo_data : list (string * list pyval)) :
  forall (w w' : World) (enriched : list pyval),
    enrich_dates E neo_data w = (Ok enriched, w') ->
    length enriched = length (feed_records neo_data).
Proof.
  induction neo_data as [| [date asteroids] rest IH]; intros w w' enriched Hrun;
    simpl in Hrun.
  - injection Hrun as <- _. reflexivity.
  - unbindW Hrun. unbindW Hrun. injection Hrun as <- _.
    unfold feed_records. simpl. rewrite !length_app. f_equal.
    + eapply enrich_all_length. eassumption.
    + eapply IH. eassumption.
Qed.

(** One attempt asks the feed once; what it returns has one record per
    record of the answer. *)
Lemma fetch_once_spec (E : Env) (days : Z) (w : World) :
  feed_calls (snd (fetch_once E days w)) = S (feed_calls w) /\
  forall batch w',
    fetch_once E days w = (Ok batch, w') ->
    exists neo_data,
      feed E days (feed_calls w) = Ok neo_data /\
      length batch = length (feed_records neo_data).
Proof.
  unfold fetch_once, mbindW, emit. simpl.
  destruct (feed E days (feed_calls w)) as [neo_data | e]; simpl.
  - pose proof (feed_kept_enrich_dates E neo_data
                  (count_feed (tick (log_event (EvFeed days) w)))) as Hkept.
    unfold feed_kept in Hkept. simpl in Hkept.
    destruct (enrich_dates E neo_data _) as [[enriched | e] w1] eqn:Hrun; simpl in *.
    + split; [exact Hkept |]. intros batch w' Heq. injection Heq as <- <-.
      exists neo_data. split; [reflexivity |].
      eapply enrich_dates_length. eassumption.
    + split; [exact Hkept |]. intros batch w' Heq. discriminate Heq.
  - split; [reflexivity |]. intros batch w' Heq. discriminate Heq.
Qed.


End Fetch.

(** ** Archival, validation and resubmission *)

Section Orchestration.

Import utils processor storage spec.

Context `{Builtins}.

(** C6 (as amended).  When the archival write raises, [process_data]
    raises the same exception and stops in the state the failed upload
    left: no connection is opened, no statement is executed, and both
    tables are as they were. *)
Theorem archival_failure_stops_cycle (E : Env) (mode : string) (w w1 w2 : World)
  (batch : list pyval) (e : exn) :
  fetch_asteroid_data E (days_of_mode mode) w = (Ok batch, w1) ->
  batch <> [] ->
  store_raw_data_blob E batch w1 = (Raise e, w2) ->
  process_data E mode w = (Raise e, w2) /\
  sql_untouched w w2 /\
  attempts_sql w w2 = false.
Proof.
  intros Hfetch Hne Hblob.
  assert (Hsql : sql_untouched w w2).
  { eapply sql_untouched_trans.
    - pose proof (fetch_sql_untouched E (days_of_mode mode) w) as Hf.
      rewrite Hfetch in Hf. exact Hf.
    - pose proof (blob_sql_untouched E batch w1) as Hb.
      rewrite Hblob in Hb. exact Hb. }
  split; [| split].
  - rewrite (process_data_after_fetch E mode w w1 batch Hfetch Hne).
    unfold store_batch, mbindW. rewrite Hblob. reflexivity.
  - exact Hsql.
  - apply sql_untouched_attempts. exact Hsql.
Qed.




(** Whatever the schema, a second submission that succeeds leaves a
    second row: the statement is an INSERT, and the only other outcome
    is that the database refuses it. *)
Lemma resubmission_adds_a_row (E : Env) (r : pyval) (w w1 w2 : World) :
  store_raw_data_sql E [r] w = (Ok tt, w1) ->
  store_raw_data_sql E [r] w1 = (Ok tt, w2) ->
  exists row1 row2,
    raw_asteroid_data w2 = (raw_asteroid_data w ++ [row1; row2])%list.
Proof.
  intros H1 H2.
  pose proof (store_raw_data_sql_cases E [r] w) as C1. rewrite H1 in C1.
  pose proof (store_raw_data_sql_cases E [r] w1) as C2. rewrite H2 in C2.
  destruct C1 as (rows1 & Hr1 & Hf1 & _). destruct C2 as (rows2 & Hr2 & Hf2 & _).
  inversion Hf1 as [| ? row1 ? ? _ Hnil1]; subst. inversion Hnil1; subst.
  inversion Hf2 as [| ? row2 ? ? _ Hnil2]; subst. inversion Hnil2; subst.
  exists row1, row2. rewrite Hr2, Hr1, <- app_assoc. reflexivity.
Qed.

Lemma resubmission_adds_an_insight_row (E : Env) (r : pyval) (w w1 w2 : World) :
  store_processed_insights_sql E [r] w = (Ok tt, w1) ->
  store_processed_insights_sql E [r] w1 = (Ok tt, w2) ->
  exists row1 row2,
    processed_asteroid_insights w2
    = (processed_asteroid_insights w ++ [row1; row2])%list.
Proof.
  intros H1 H2.
  pose proof (store_processed_insights_sql_cases E [r] w) as C1. rewrite H1 in C1.
  pose proof (store_processed_insights_sql_cases E [r] w1) as C2. rewrite H2 in C2.
  destruct C1 as (rows1 & Hr1 & Hf1 & _). destruct C2 as (rows2 & Hr2 & Hf2 & _).
  inversion Hf1 as [| ? row1 ? ? _ Hnil1]; subst. inversion Hnil1; subst.
  inversion Hf2 as [| ? row2 ? ? _ Hnil2]; subst. inversion Hnil2; subst.
  exists row1, row2. rewrite Hr2, Hr1, <- app_assoc. reflexivity.
Qed.

End Orchestration.

Section OrchestrationRuns.

Import utils processor storage spec samples.

#[local] Existing Instance samples.builtins.

(** C1 (code bug).  Both stores send a plain INSERT.  Submitting the
    record of the repository's tests twice leaves two rows with its id
    when the table has no key, and when the id is a primary key the
    second call raises and the row keeps the values of the first
    submission.  The specification, and [tests/test_duplicate_handling.py]
    which looks for MERGE in the statement, expect one row holding the
    second submission's values. *)
Theorem resubmission_is_no_upsert :
  (let w1 := snd (store_raw_data_sql (permissive []) [eros] empty_world) in
   let run2 := store_raw_data_sql (permissive []) [eros] w1 in
   fst run2 = Ok tt /\
   length (filter (has_key "id" (SqlParam (PInt 2000433)))
             (raw_asteroid_data (snd run2))) = 2%nat) /\
  (let w1 := snd (store_raw_data_sql (keyed []) [eros] empty_world) in
   let run2 := store_raw_data_sql (keyed []) [eros] w1 in
   fst run2 = Raise StorageError /\
   map (dict_lookup "fetched_at") (raw_asteroid_data (snd run2))
   = [Some (SqlDatetime (sample_clock 0))]) /\
  (let w1 := snd (store_processed_insights_sql (permissive []) [tracked] empty_world) in
   let run2 := store_processed_insights_sql (permissive []) [tracked] w1 in
   fst run2 = Ok tt /\
   length (filter (has_key "raw_asteroid_id" (SqlParam (PInt 2000433)))
             (processed_asteroid_insights (snd run2))) = 2%nat) /\
  (let w1 := snd (store_processed_insights_sql (keyed []) [tracked] empty_world) in
   let run2 := store_processed_insights_sql (keyed []) [tracked] w1 in
   fst run2 = Raise StorageError /\
   map (dict_lookup "processed_at") (processed_asteroid_insights (snd run2))
   = [Some (SqlDatetime (sample_clock 2))]).
Proof.
  repeat split; vm_compute; reflexivity.
Qed.

(** C6 as the specification states it does not hold: with a sink that
    refuses the upload of a one-record batch, the cycle raises before
    any request to the database. *)
Lemma archival_failure_counterexample :
  ~ archival_failure_tolerated (sink_down (one_day [tracked])) "auto" empty_world.
Proof.
  intros Hspec.
  pose (fetched := fetch_asteroid_data (sink_down (one_day [tracked])) 7 empty_world).
  pose (batch := match fst fetched with Ok b => b | Raise _ => [] end).
  specialize (Hspec batch (snd fetched) ArchivalError
                (snd (store_raw_data_blob (sink_down (one_day [tracked])) batch
                        (snd fetched)))).
  assert (Hsql : attempts_sql empty_world
                   (snd (process_data (sink_down (one_day [tracked])) "auto" empty_world))
                 = true).
  { apply Hspec.
    - vm_compute. reflexivity.
    - vm_compute. discriminate.
    - vm_compute. reflexivity. }
  vm_compute in Hsql. discriminate Hsql.
Qed.

(** C6 (as amended), on that run. *)
Lemma archival_failure_stops_cycle_witness :
  fst (process_data (sink_down (one_day [tracked])) "auto" empty_world)
  = Raise ArchivalError /\
  attempts_sql empty_world
    (snd (process_data (sink_down (one_day [tracked])) "auto" empty_world)) = false.
Proof.
  pose (fetched := fetch_asteroid_data (sink_down (one_day [tracked])) 7 empty_world).
  pose (batch := match fst fetched with Ok b => b | Raise _ => [] end).
  destruct (archival_failure_stops_cycle (sink_down (one_day [tracked])) "auto"
              empty_world (snd fetched)
              (snd (store_raw_data_blob (sink_down (one_day [tracked])) batch
                      (snd fetched)))
              batch ArchivalError) as (Hrun & _ & Hsql).
  - vm_compute. reflexivity.
  - vm_compute. discriminate.
  - vm_compute. reflexivity.
  - rewrite Hrun. split; [reflexivity | exact Hsql].
Defined.


(** With the id as primary key the row without an id is refused, and
    with it the whole batch: no row is written, not N-1. *)
Lemma invalid_record_keyed_schema :
  let run := process_data (keyed (one_day [tracked; anonymous])) "auto" empty_world in
  fst run = Raise StorageError /\
  raw_asteroid_data (snd run) = [] /\
  processed_asteroid_insights (snd run) = [].
Proof. vm_compute. repeat split; reflexivity. Qed.

(** A record with an approach and no estimated_diameter makes
    enrichment raise KeyError on each of the three attempts: the whole
    cycle fails and nothing is written. *)
Lemma missing_diameter_aborts_cycle :
  let run := process_data (permissive (one_day [tracked; undersized])) "auto" empty_world in
  fst run = Raise RetryError /\
  raw_asteroid_data (snd run) = [] /\
  processed_asteroid_insights (snd run) = [] /\
  feed_calls (snd run) = 3%nat.
Proof. vm_compute. repeat split; reflexivity. Qed.


End OrchestrationRuns.

(** ** Records without a close approach *)

Section NoApproach.

Import utils processor storage spec.

Context `{Builtins}.

Lemma has_close_approach_absent (d : list (string * pyval)) :
  no_close_approach d -> has_close_approach (PDict d) = Ok false.
Proof.
  intros [Habsent | Hempty]; unfold has_close_approach; simpl; unfold dict_mem.
  - rewrite Habsent. reflexivity.
  - rewrite Hempty. reflexivity.
Qed.

(** Each classification step writes its own key and no other. *)
Lemma size_step_frame (asteroid : pyval) (insights insights' : list (string * pyval))
  (k : string) :
  size_step asteroid insights = Ok insights' ->
  String.eqb k "size_category" = false ->
  dict_lookup k insights' = dict_lookup k insights.
Proof.
  intros Hstep Hk. unfold size_step in Hstep. unbind;
    apply dict_lookup_set_ne; exact Hk.
Qed.

Lemma orbit_type_step_frame (orbital_data : pyval)
  (insights insights' : list (string * pyval)) (k : string) :
  orbit_type_step orbital_data insights = Ok insights' ->
  String.eqb k "orbit_type" = false ->
  dict_lookup k insights' = dict_lookup k insights.
Proof.
  intros Hstep Hk. unfold orbit_type_step in Hstep. unbind;
    first [reflexivity | apply dict_lookup_set_ne; exact Hk].
Qed.

Lemma inclination_type_step_frame (orbital_data : pyval)
  (insights insights' : list (string * pyval)) (k : string) :
  inclination_type_step orbital_data insights = Ok insights' ->
  String.eqb k "inclination_type" = false ->
  dict_lookup k insights' = dict_lookup k insights.
Proof.
  intros Hstep Hk. unfold inclination_type_step in Hstep. unbind;
    first [reflexivity | apply dict_lookup_set_ne; exact Hk].
Qed.

Lemma lift_ok {A : Type} (r : result A) (w w' : World) (a : A) :
  lift r w = (Ok a, w') -> r = Ok a /\ w' = w.
Proof. unfold lift. intros Heq. injection Heq as -> ->. split; reflexivity. Qed.

(** What [_calculate_insights] makes of a record without an approach
    and without a score of its own. *)
Lemma calculate_insights_no_approach (E : Env) (d : list (string * pyval))
  (w w' : World) (v : pyval) :
  no_close_approach d -> raw_record d ->
  _calculate_insights E (PDict d) w = (Ok v, w') ->
  exists insights,
    v = PDict insights /\
    dict_lookup "velocity_category" insights = None /\
    dict_lookup "distance_category" insights = None /\
    dict_lookup "days_to_approach" insights = None /\
    dict_lookup "is_high_priority" insights = Some (PBool false) /\
    dict_lookup "threat_level" insights = Some (PStr "LOW").
Proof.
  intros Hno [Hrisk _] Hrun.
  pose proof (has_close_approach_absent d Hno) as Hclose.
  unfold _calculate_insights in Hrun.
  unbindW Hrun. apply lift_ok in E0 as [Hsize ->].
  unbindW Hrun. apply lift_ok in E0 as [_ ->].
  unbindW Hrun. apply lift_ok in E0 as [Horbit ->].
  unbindW Hrun. apply lift_ok in E0 as [Hincl ->].
  unbindW Hrun. apply lift_ok in E0 as [Hvel ->].
  unbindW Hrun. apply lift_ok in E0 as [Hdist ->].
  unfold velocity_step in Hvel. rewrite Hclose in Hvel. injection Hvel as <-.
  unfold distance_step in Hdist. rewrite Hclose in Hdist. injection Hdist as <-.
  unbindW Hrun.
  unfold days_step, mbindW, lift in E0. rewrite Hclose in E0. injection E0 as <- <-.
  unbindW Hrun. apply lift_ok in E0 as [Hprio ->].
  unfold priority_step in Hprio. simpl in Hprio. rewrite Hrisk in Hprio.
  injection Hprio as <-.
  unfold mbindW, now, ret in Hrun. injection Hrun as <- _.
  eexists. split; [reflexivity |].
  match type of Hincl with
  | _ = Ok ?insights =>
      assert (Hnone : forall k,
                 String.eqb k "size_category" = false ->
                 String.eqb k "orbit_type" = false ->
                 String.eqb k "inclination_type" = false ->
                 dict_lookup k insights = None)
  end.
  { intros k K1 K2 K3.
    rewrite (inclination_type_step_frame _ _ _ k Hincl K3).
    rewrite (orbit_type_step_frame _ _ _ k Horbit K2).
    rewrite (size_step_frame _ _ _ k Hsize K1). reflexivity. }
  rewrite !dict_lookup_set. simpl.
  repeat split; try reflexivity; apply Hnone; reflexivity.
Qed.

(** Enrichment of such a record adds neither a score nor a hazard
    level, and keeps it without an approach. *)
Lemma enrich_no_approach (E : Env) (d : list (string * pyval)) (date : string)
  (w w' : World) (enriched : pyval) :
  no_close_approach d -> raw_record d ->
  _enrich_asteroid_data E (PDict d) date w = (Ok enriched, w') ->
  exists en, enriched = PDict en /\ no_close_approach en /\ raw_record en.
Proof.
  intros Hno [Hrisk Hhazard] Hrun.
  pose proof (has_close_approach_absent d Hno) as Hclose.
  unfold _enrich_asteroid_data in Hrun.
  unbindW Hrun. unbindW Hrun. apply lift_ok in E1 as [Hstep ->].
  unfold risk_step in Hstep. rewrite Hclose in Hstep. injection Hstep as <-.
  unbindW Hrun. apply lift_ok in E1 as [Horb ->].
  injection Hrun as <- _.
  eexists. split; [reflexivity |].
  match type of Horb with
  | _ = Ok ?en =>
      assert (Hsame : forall k,
                 String.eqb k "processed_date" = false ->
                 String.eqb k "data_source" = false ->
                 String.eqb k "orbital_insights" = false ->
                 dict_lookup k en = dict_lookup k d)
  end.
  { intros k K1 K2 K3. unfold orbital_step in Horb. unbind.
    - rewrite !dict_lookup_set, K1, K2, K3. reflexivity.
    - rewrite !dict_lookup_set, K1, K2. reflexivity. }
  unfold no_close_approach, raw_record.
  rewrite !Hsame by reflexivity. auto.
Qed.

Lemma insight_values_no_approach (E : Env) (d : list (string * pyval)) (row : Row) :
  no_close_approach d -> raw_record d ->
  row_of (insight_values E) (PDict d) row ->
  insight_defaults row.
Proof.
  intros Hno Hraw (w & w' & Hrun).
  unfold insight_values in Hrun. unbindW Hrun.
  destruct (calculate_insights_no_approach E d w w0 r Hno Hraw E0)
    as (insights & -> & Hvel & Hdist & Hdays & Hprio & Hthreat).
  destruct Hraw as [Hrisk Hhazard].
  unfold mbindW, lift, now, ret in Hrun. simpl in Hrun.
  rewrite Hrisk, Hhazard, Hvel, Hdist, Hdays, Hprio, Hthreat in Hrun.
  injection Hrun as <- _.
  unfold insight_defaults. simpl. repeat split; reflexivity.
Qed.

(** C10 (as amended).  For a record without close-approach data (the
    key absent, or an empty list) that has no risk_score and no
    hazard_level of its own, enrichment adds no risk_score and no
    hazard_level, and every row the insights store writes for it has
    risk_score 0.0, hazard_level LOW, threat_level LOW, is_high_priority
    false and NULL for velocity_category, distance_category and
    days_to_approach. *)
Theorem no_approach_defaults (E : Env) (d : list (string * pyval)) (date : string)
  (w w1 : World) (enriched : pyval) :
  no_close_approach d -> raw_record d ->
  _enrich_asteroid_data E (PDict d) date w = (Ok enriched, w1) ->
  (exists en,
     enriched = PDict en /\
     dict_lookup "risk_score" en = None /\
     dict_lookup "hazard_level" en = None) /\
  (forall batch w2 w3,
     store_processed_insights_sql E batch w2 = (Ok tt, w3) ->
     exists rows,
       processed_asteroid_insights w3 = (processed_asteroid_insights w2 ++ rows)%list /\
       Forall2 (fun asteroid row => asteroid = enriched -> insight_defaults row)
         batch rows).
Proof.
  intros Hno Hraw Hrun.
  destruct (enrich_no_approach E d date w w1 enriched Hno Hraw Hrun)
    as (en & -> & Hno' & Hraw').
  split.
  - exists en. destruct Hraw' as [Hr Hh]. auto.
  - intros batch w2 w3 Hstore.
    pose proof (store_processed_insights_sql_cases E batch w2) as Hc.
    rewrite Hstore in Hc. destruct Hc as (rows & Hrows & Hall & _).
    exists rows. split; [exact Hrows |].
    eapply Forall2_impl; [exact Hall |].
    intros asteroid row Hrow ->.
    eapply insight_values_no_approach; eassumption.
Qed.

End NoApproach.

Section NoApproachWitness.

Import utils processor storage spec samples.

#[local] Existing Instance samples.builtins.

(** C10 (as amended), on a record that has an id, a name and a diameter
    only. *)
Lemma no_approach_defaults_witness :
  exists row,
    processed_asteroid_insights
      (snd (store_processed_insights_sql (permissive [])
              [enriched_bare] empty_world)) = [row] /\
    insight_defaults row.
Proof.
  destruct (no_approach_defaults (permissive []) bare "2024-01-15" empty_world
              (snd (_enrich_asteroid_data (permissive []) (PDict bare) "2024-01-15"
                      empty_world))
              enriched_bare) as [_ Hrows].
  - left. reflexivity.
  - split; reflexivity.
  - vm_compute. reflexivity.
  - destruct (Hrows [enriched_bare] empty_world
                (snd (store_processed_insights_sql (permissive [])
                        [enriched_bare] empty_world)))
      as (rows & Htable & Hall).
    + vm_compute. reflexivity.
    + inversion Hall as [| ? row ? ? Hrow Hnil]; subst. inversion Hnil; subst.
      exists row. split; [exact Htable | apply Hrow; reflexivity].
Defined.

(** C10 as the specification states it does not hold: a record without
    an approach that brings a risk score of 0.9 is enriched without a
    computed score, and its row stores 0.9, threat level CRITICAL and
    the priority flag, not the defaults. *)
Lemma no_approach_counterexample :
  ~ defaults_without_approach (permissive []) scored.
Proof.
  intros Hclaim.
  assert (Hrow : row_of (insight_values (permissive []))
                   (match fst (_enrich_asteroid_data (permissive []) (PDict scored)
                                 "2024-01-15" empty_world) with
                    | Ok v => v
                    | Raise _ => PNone
                    end)
                   (match fst (insight_values (permissive [])
                                 (match fst (_enrich_asteroid_data (permissive [])
                                               (PDict scored) "2024-01-15"
                                               empty_world) with
                                  | Ok v => v
                                  | Raise _ => PNone
                                  end) empty_world) with
                    | Ok row => row
                    | Raise _ => []
                    end)).
  { exists empty_world. eexists. vm_compute. reflexivity. }
  assert (Henriched :
            _enrich_asteroid_data (permissive []) (PDict scored) "2024-01-15"
              empty_world
            = (Ok (match fst (_enrich_asteroid_data (permissive []) (PDict scored)
                                "2024-01-15" empty_world) with
                   | Ok v => v
                   | Raise _ => PNone
                   end),
               snd (_enrich_asteroid_data (permissive []) (PDict scored)
                      "2024-01-15" empty_world)))
    by (vm_compute; reflexivity).
  pose proof (Hclaim (or_introl eq_refl) _ _ _ _ _ Henriched Hrow) as (Hscore & _).
  vm_compute in Hscore. discriminate Hscore.
Qed.

(** What that row holds. *)
Lemma scored_record_row :
  let enriched :=
    fst (_enrich_asteroid_data (permissive []) (PDict scored) "2024-01-15"
           empty_world) in
  let row :=
    match enriched with
    | Ok v => fst (insight_values (permissive []) v empty_world)
    | Raise e => Raise e
    end in
  exists r,
    row = Ok r /\
    dict_lookup "risk_score" r = Some (SqlParam (PFloat 0.9)) /\
    dict_lookup "hazard_level" r = Some (SqlParam (PStr "LOW")) /\
    dict_lookup "threat_level" r = Some (SqlParam (PStr "CRITICAL")) /\
    dict_lookup "is_high_priority" r = Some (SqlParam (PBool true)).
Proof. vm_compute. eexists. repeat split; reflexivity. Qed.

End NoApproachWitness.

(** ** Formatting on the heap *)

Section Coercion.

Import formatting.

Context `{Builtins}.

Lemma coerced_value_str (s : string) :
  coerced_value (VStr s) =
  match float_of_str (remove_commas s) with
  | Some q => VFloat q
  | None => VStr s
  end.
Proof.
  unfold coerced_value, parse_value.
  destruct (float_of_str (remove_commas s)); reflexivity.
Qed.

Lemma coerced_value_other (v : val) :
  (forall s, v <> VStr s) -> coerced_value v = v.
Proof.
  intros Hv. destruct v; try reflexivity. exfalso. eapply Hv. reflexivity.
Qed.

Lemma coerced_value_idem (v : val) :
  coerced_value (coerced_value v) = coerced_value v.
Proof.
  unfold coerced_value. destruct (parse_value v) eqn:Hp; [reflexivity |].
  rewrite Hp. reflexivity.
Qed.

Lemma parse_value_raises (v : val) (e : exn) :
  parse_value v = Raise e -> coerce_catches e = true.
Proof.
  destruct v; simpl; try (intros Heq; injection Heq as <-; reflexivity).
  destruct (float_of_str _); [discriminate |].
  intros Heq. injection Heq as <-. reflexivity.
Qed.

Lemma value_coerced_trans (a b c : val) :
  value_coerced a b -> value_coerced b c -> value_coerced a c.
Proof.
  unfold value_coerced. intros [-> | ->] [-> | ->]; auto.
  right. apply coerced_value_idem.
Qed.

Lemma value_coerced_same (v v' : val) :
  value_coerced v v' -> coerced_value v' = coerced_value v.
Proof. intros [-> | ->]; [reflexivity | apply coerced_value_idem]. Qed.

Lemma value_coerced_settled (v v' : val) :
  value_coerced (coerced_value v) v' -> v' = coerced_value v.
Proof. intros [-> | ->]; [reflexivity | apply coerced_value_idem]. Qed.

Lemma value_coerced_ref (l : loc) (v' : val) :
  value_coerced (VRef l) v' -> v' = VRef l.
Proof. intros [-> | ->]; reflexivity. Qed.

Lemma obj_coerced_refl (o : obj) : obj_coerced o o.
Proof.
  destruct o as [d | items]; simpl; [| reflexivity].
  intros k. destruct (d !! k); [left; reflexivity | exact I].
Qed.

Lemma obj_coerced_trans (a b c : obj) :
  obj_coerced a b -> obj_coerced b c -> obj_coerced a c.
Proof.
  destruct a as [da | la], b as [db | lb], c as [dc | lc]; simpl;
    try contradiction; try congruence.
  intros Hab Hbc k. specialize (Hab k). specialize (Hbc k).
  destruct (da !! k), (db !! k), (dc !! k); try contradiction; try exact I.
  eapply value_coerced_trans; eassumption.
Qed.

Lemma obj_coerced_dict (d : gmap string val) (o' : obj) :
  obj_coerced (ODict d) o' ->
  exists d',
    o' = ODict d' /\
    coerced_value <$> d' = coerced_value <$> d /\
    forall k l, d !! k = Some (VRef l) -> d' !! k = Some (VRef l).
Proof.
  destruct o' as [d' | items]; simpl; [| contradiction].
  intros Hco. exists d'. split; [reflexivity |]. split.
  - apply map_eq. intros k. rewrite !lookup_fmap. specialize (Hco k).
    destruct (d !! k), (d' !! k); try contradiction; [| reflexivity].
    simpl. f_equal. apply value_coerced_same. exact Hco.
  - intros k l Hk. specialize (Hco k). rewrite Hk in Hco.
    destruct (d' !! k); [| contradiction].
    f_equal. apply value_coerced_ref. exact Hco.
Qed.

Lemma obj_coerced_fmap (d : gmap string val) :
  obj_coerced (ODict d) (ODict (coerced_value <$> d)).
Proof.
  simpl. intros k. rewrite lookup_fmap.
  destruct (d !! k); simpl; [right; reflexivity | exact I].
Qed.

Lemma obj_coerced_settled (d : gmap string val) (o' : obj) :
  obj_coerced (ODict (coerced_value <$> d)) o' ->
  o' = ODict (coerced_value <$> d).
Proof.
  destruct o' as [d' | items]; simpl; [| contradiction].
  intros Hco. f_equal. apply map_eq. intros k. specialize (Hco k).
  rewrite lookup_fmap in *.
  destruct (d !! k), (d' !! k); simpl in *; try contradiction; [| reflexivity].
  f_equal. apply value_coerced_settled. exact Hco.
Qed.

Lemma heap_coerced_refl (h : heap) : heap_coerced h h.
Proof. intros l o Hl. exists o. split; [exact Hl | apply obj_coerced_refl]. Qed.

Lemma heap_coerced_trans (a b c : heap) :
  heap_coerced a b -> heap_coerced b c -> heap_coerced a c.
Proof.
  intros Hab Hbc l o Hl.
  destruct (Hab l o Hl) as (o1 & Hl1 & Ho1).
  destruct (Hbc l o1 Hl1) as (o2 & Hl2 & Ho2).
  exists o2. split; [exact Hl2 | eapply obj_coerced_trans; eassumption].
Qed.

Lemma heap_coerced_app (h ext : heap) : heap_coerced h (h ++ ext).
Proof.
  intros l o Hl. exists o. split; [| apply obj_coerced_refl].
  apply lookup_app_l_Some. exact Hl.
Qed.

Lemma heap_coerced_insert (h : heap) (lu : loc) (d : gmap string val) :
  h !! lu = Some (ODict d) ->
  heap_coerced h (<[lu := ODict (coerced_value <$> d)]> h).
Proof.
  intros Hlu l o Hl. destruct (decide (lu = l)) as [<- | Hne].
  - rewrite Hlu in Hl. injection Hl as <-.
    exists (ODict (coerced_value <$> d)). split; [| apply obj_coerced_fmap].
    apply list_lookup_insert_eq. eapply lookup_lt_Some. exact Hlu.
  - exists o. split; [| apply obj_coerced_refl].
    rewrite list_lookup_insert_ne by exact Hne. exact Hl.
Qed.

Lemma units_coerced_mono (approach : val) (key : string) (h0 h h' h'' : heap) :
  heap_coerced h0 h ->
  units_coerced approach key h h' ->
  heap_coerced h' h'' ->
  units_coerced approach key h0 h''.
Proof.
  intros Hpre Hunits Hpost lp ap lu d -> Hlp Hkey Hlu.
  destruct (Hpre lp _ Hlp) as (o1 & Hlp1 & Ho1).
  apply obj_coerced_dict in Ho1 as (ap1 & -> & _ & Hrefs).
  destruct (Hpre lu _ Hlu) as (o2 & Hlu1 & Ho2).
  apply obj_coerced_dict in Ho2 as (d1 & -> & Hsame & _).
  pose proof (Hunits lp ap1 lu d1 eq_refl Hlp1 (Hrefs _ _ Hkey) Hlu1) as Hdone.
  rewrite Hsame in Hdone.
  destruct (Hpost lu _ Hdone) as (o3 & Hlu3 & Ho3).
  apply obj_coerced_settled in Ho3 as ->. exact Hlu3.
Qed.

(** *** The innermost loop *)

Lemma coerce_keys_notin (units : list string) :
  forall (d : gmap string val) (k : string),
    ~ In k units -> coerce_keys units d !! k = d !! k.
Proof.
  induction units as [| u rest IH]; intros d k Hk; [reflexivity |].
  unfold coerce_keys in *. simpl. rewrite IH.
  - apply lookup_alter_ne. intros ->. apply Hk. left. reflexivity.
  - intros Hin. apply Hk. right. exact Hin.
Qed.

Lemma coerce_keys_in (units : list string) :
  forall (d : gmap string val) (k : string),
    In k units -> coerce_keys units d !! k = coerced_value <$> d !! k.
Proof.
  induction units as [| u rest IH]; intros d k Hk; [contradiction |].
  destruct (in_dec string_dec k rest) as [Hin | Hnotin].
  - unfold coerce_keys in *. simpl. rewrite (IH _ _ Hin).
    destruct (decide (u = k)) as [-> | Hne].
    + rewrite lookup_alter_eq. destruct (d !! k); simpl; [| reflexivity].
      rewrite coerced_value_idem. reflexivity.
    + rewrite lookup_alter_ne by exact Hne. reflexivity.
  - destruct Hk as [-> | Hin]; [| contradiction].
    pose proof (coerce_keys_notin rest (alter coerced_value k d) k Hnotin) as Hrest.
    unfold coerce_keys in *. simpl. rewrite Hrest. apply lookup_alter_eq.
Qed.

Lemma coerce_keys_all (d : gmap string val) :
  coerce_keys (map fst (map_to_list d)) d = coerced_value <$> d.
Proof.
  apply map_eq. intros k. rewrite lookup_fmap.
  destruct (in_dec string_dec k (map fst (map_to_list d))) as [Hin | Hnotin].
  - apply coerce_keys_in. exact Hin.
  - rewrite coerce_keys_notin by exact Hnotin.
    destruct (d !! k) as [v |] eqn:Hk; [| reflexivity].
    exfalso. apply Hnotin. apply in_map_iff. exists (k, v). split; [reflexivity |].
    apply list_elem_of_In. apply elem_of_map_to_list. exact Hk.
Qed.

Lemma alter_coerced_insert (d : gmap string val) (k : string) (v : val) (q : Q) :
  d !! k = Some v -> parse_value v = Ok q ->
  alter coerced_value k d = <[k := VFloat q]> d.
Proof.
  intros Hk Hp. apply map_eq. intros j.
  destruct (decide (k = j)) as [<- | Hne].
  - rewrite lookup_alter_eq, lookup_insert_eq, Hk. simpl.
    unfold coerced_value. rewrite Hp. reflexivity.
  - rewrite lookup_alter_ne, lookup_insert_ne by exact Hne. reflexivity.
Qed.

Lemma alter_coerced_id (d : gmap string val) (k : string) :
  (forall v, d !! k = Some v -> coerced_value v = v) ->
  alter coerced_value k d = d.
Proof.
  intros Hid. apply map_eq. intros j.
  destruct (decide (k = j)) as [<- | Hne].
  - rewrite lookup_alter_eq. destruct (d !! k) as [v |] eqn:Hk; [| reflexivity].
    simpl. rewrite (Hid v eq_refl). reflexivity.
  - rewrite lookup_alter_ne by exact Hne. reflexivity.
Qed.

(** Writing a float over a str of the dict at [lu] does not change what
    [approach[key]] is, even when [approach] is that dict. *)
Lemma h_getitem_after_store (h : heap) (approach : val) (key unit_ : string)
  (lu : loc) (d : gmap string val) (v : val) (q : Q) :
  h_getitem h approach key = Ok (VRef lu) ->
  h !! lu = Some (ODict d) ->
  d !! unit_ = Some v ->
  parse_value v = Ok q ->
  h_getitem (<[lu := ODict (<[unit_ := VFloat q]> d)]> h) approach key = Ok (VRef lu).
Proof.
  intros Hget Hlu Hunit Hp. destruct approach as [| | | | | lp]; try discriminate Hget.
  simpl in *. destruct (decide (lu = lp)) as [<- | Hne].
  - rewrite Hlu in Hget.
    rewrite list_lookup_insert_eq by (eapply lookup_lt_Some; exact Hlu).
    destruct (decide (unit_ = key)) as [-> | Hk].
    + rewrite Hunit in Hget. injection Hget as ->. discriminate Hp.
    + rewrite lookup_insert_ne by exact Hk. exact Hget.
  - rewrite list_lookup_insert_ne by exact Hne. exact Hget.
Qed.

Lemma coerce_items_spec (approach : val) (key : string) (lu : loc)
  (units : list string) :
  forall (h : heap) (d : gmap string val),
    h_getitem h approach key = Ok (VRef lu) ->
    h !! lu = Some (ODict d) ->
    coerce_items approach key lu units h
    = (Ok tt, <[lu := ODict (coerce_keys units d)]> h).
Proof.
  induction units as [| u rest IH]; intros h d Hget Hlu.
  - simpl. rewrite list_insert_id by exact Hlu. reflexivity.
  - simpl. rewrite Hlu. unfold coerce_keys. simpl.
    fold (coerce_keys rest (alter coerced_value u d)).
    destruct (d !! u) as [v |] eqn:Hu.
    + unfold coerce_entry. destruct (parse_value v) as [q | e] eqn:Hp.
      * rewrite Hget. simpl. rewrite Hlu.
        rewrite (alter_coerced_insert d u v q Hu Hp).
        rewrite (IH _ (<[u := VFloat q]> d)).
        -- rewrite list_insert_insert_eq. reflexivity.
        -- eapply h_getitem_after_store; eassumption.
        -- apply list_lookup_insert_eq. eapply lookup_lt_Some. exact Hlu.
      * rewrite (parse_value_raises v e Hp).
        rewrite alter_coerced_id.
        -- apply IH; assumption.
        -- intros v' Hv'. rewrite Hu in Hv'. injection Hv' as <-.
           unfold coerced_value. rewrite Hp. reflexivity.
    + rewrite alter_coerced_id.
      * apply IH; assumption.
      * intros v' Hv'. rewrite Hu in Hv'. discriminate Hv'.
Qed.

End Coercion.

Section Formatting.

Import formatting spec.

Context `{Builtins}.

Lemma coerce_key_spec (approach : val) (key : string) (h h' : heap)
  (res : result unit) :
  coerce_key approach key h = (res, h') ->
  heap_coerced h h' /\
  (res = Ok tt -> units_coerced approach key h h').
Proof.
  unfold coerce_key. intros Hrun.
  destruct (h_contains h key approach) as [[|] | e] eqn:Hin.
  - destruct (h_getitem h approach key) as [target | e] eqn:Hget.
    + destruct target as [| | | | | lu];
        try (injection Hrun as <- <-; split;
             [apply heap_coerced_refl | discriminate]).
      destruct (h !! lu) as [[d | items] |] eqn:Hlu;
        try (injection Hrun as <- <-; split;
             [apply heap_coerced_refl | discriminate]).
      rewrite (coerce_items_spec approach key lu _ h d Hget Hlu) in Hrun.
      rewrite coerce_keys_all in Hrun. injection Hrun as <- <-.
      split; [apply heap_coerced_insert; exact Hlu |].
      intros _ lp ap lu' d' -> Hlp Hkey Hlu'.
      simpl in Hget. rewrite Hlp, Hkey in Hget. injection Hget as ->.
      rewrite Hlu in Hlu'. injection Hlu' as <-.
      apply list_lookup_insert_eq. eapply lookup_lt_Some. exact Hlu.
    + injection Hrun as <- <-. split; [apply heap_coerced_refl | discriminate].
  - injection Hrun as <- <-. split; [apply heap_coerced_refl |].
    intros _ lp ap lu d -> Hlp Hkey Hlu.
    simpl in Hin. rewrite Hlp, Hkey in Hin. discriminate Hin.
  - injection Hrun as <- <-. split; [apply heap_coerced_refl | discriminate].
Qed.

Lemma coerce_approach_spec (approach : val) (h h' : heap) (res : result unit) :
  coerce_approach approach h = (res, h') ->
  heap_coerced h h' /\
  (res = Ok tt ->
   forall key, In key ["miss_distance"; "relative_velocity"] ->
     units_coerced approach key h h').
Proof.
  unfold coerce_approach. intros Hrun.
  destruct (coerce_key approach "miss_distance" h) as [[[] | e] h1] eqn:Hfirst.
  - apply coerce_key_spec in Hfirst as [Hco1 Hunits1].
    apply coerce_key_spec in Hrun as [Hco2 Hunits2].
    split; [eapply heap_coerced_trans; eassumption |].
    intros -> key [<- | [<- | []]].
    + eapply units_coerced_mono;
        [apply heap_coerced_refl | apply Hunits1; reflexivity | exact Hco2].
    + eapply units_coerced_mono;
        [exact Hco1 | apply Hunits2; reflexivity | apply heap_coerced_refl].
  - apply coerce_key_spec in Hfirst as [Hco1 _].
    injection Hrun as <- <-. split; [exact Hco1 | discriminate].
Qed.

Lemma coerce_approaches_spec (approaches : list val) :
  forall (h h' : heap) (res : result unit),
    coerce_approaches approaches h = (res, h') ->
    heap_coerced h h' /\
    (res = Ok tt ->
     forall approach key,
       In approach approaches ->
       In key ["miss_distance"; "relative_velocity"] ->
       units_coerced approach key h h').
Proof.
  induction approaches as [| a rest IH]; intros h h' res Hrun; simpl in Hrun.
  - injection Hrun as <- <-. split; [apply heap_coerced_refl |].
    intros _ approach key [].
  - destruct (coerce_approach a h) as [[[] | e] h1] eqn:Hfirst.
    + apply coerce_approach_spec in Hfirst as [Hco1 Hunits1].
      apply IH in Hrun as [Hco2 Hunits2].
      split; [eapply heap_coerced_trans; eassumption |].
      intros -> approach key [<- | Hin] Hkey.
      * eapply units_coerced_mono;
          [apply heap_coerced_refl | apply Hunits1; [reflexivity | exact Hkey]
          | exact Hco2].
      * eapply units_coerced_mono;
          [exact Hco1 | apply Hunits2; [reflexivity | exact Hin | exact Hkey]
          | apply heap_coerced_refl].
    + apply coerce_approach_spec in Hfirst as [Hco1 _].
      injection Hrun as <- <-. split; [exact Hco1 | discriminate].
Qed.

Lemma h_get_dict (h : heap) (la : loc) (rec : gmap string val) (k : string)
  (default v : val) (ext : heap) :
  h !! la = Some (ODict rec) ->
  rec !! k = Some v ->
  h_get (h ++ ext) (VRef la) k default = Ok v.
Proof.
  intros Hla Hk. simpl. rewrite (lookup_app_l_Some _ _ _ _ Hla), Hk. reflexivity.
Qed.

Lemma new_formatted_spec (asteroid : val) (h h5 : heap) (cad : val) (lf : loc) :
  new_formatted asteroid h = Ok (cad, lf, h5) ->
  exists (ext : heap) (fields : gmap string val),
    h5 = (h ++ ext)%list /\
    h !! lf = None /\
    h5 !! lf = Some (ODict fields) /\
    fields !! "close_approach_data" = Some cad /\
    forall la rec lc,
      asteroid = VRef la -> h !! la = Some (ODict rec) ->
      rec !! "close_approach_data" = Some (VRef lc) ->
      cad = VRef lc.
Proof.
  unfold new_formatted, alloc. intros Hnew. unbind.
  eexists _, _. split; [rewrite <- !app_assoc; reflexivity |].
  split; [apply lookup_ge_None; rewrite !length_app; simpl; lia |].
  split; [rewrite lookup_app_r, Nat.sub_diag by lia; reflexivity |].
  split; [reflexivity |].
  intros la rec lc -> Hla Hcad.
  match goal with
  | Hget : h_get _ (VRef la) "close_approach_data" _ = Ok _ |- _ =>
      rewrite <- !app_assoc in Hget;
      rewrite (h_get_dict h la rec _ _ (VRef lc) _ Hla Hcad) in Hget;
      injection Hget as <-
  end.
  reflexivity.
Qed.

(** The loop over the approaches, as [format_asteroid_data] runs it on
    the record it has just built. *)
Lemma format_loop_spec (asteroid : val) (h h5 h' : heap) (cad : val) (lf : loc)
  (res : result val) :
  new_formatted asteroid h = Ok (cad, lf, h5) ->
  format_asteroid_data asteroid h = (res, h') ->
  heap_coerced h5 h' /\
  (forall r, res = Ok r ->
     r = VRef lf /\
     forall approaches approach key,
       h_truthy h5 cad = true ->
       h_iter h5 cad = Ok approaches ->
       In approach approaches ->
       In key ["miss_distance"; "relative_velocity"] ->
       units_coerced approach key h5 h').
Proof.
  intros Hnew Hrun. unfold format_asteroid_data in Hrun. rewrite Hnew in Hrun.
  destruct (h_truthy h5 cad) eqn:Htruthy.
  - destruct (h_iter h5 cad) as [approaches | e] eqn:Hiter.
    + destruct (coerce_approaches approaches h5) as [[[] | e] h6] eqn:Hloop;
        injection Hrun as <- <-;
        apply coerce_approaches_spec in Hloop as [Hco Hunits];
        (split; [exact Hco |]); intros r Hr; [| discriminate Hr].
      injection Hr as <-. split; [reflexivity |].
      intros approaches' approach key _ Heq. injection Heq as <-.
      apply Hunits. reflexivity.
    + injection Hrun as <- <-. split; [apply heap_coerced_refl |].
      intros r Hr. discriminate Hr.
  - injection Hrun as <- <-. split; [apply heap_coerced_refl |].
    intros r Hr. injection Hr as <-. split; [reflexivity |].
    intros approaches approach key Hfalse. discriminate Hfalse.
Qed.

(** C8 (as amended).  [format_asteroid_data] returns a new record, but
    it is no pure transform: the nested objects are shared with its
    argument and the coercion is written into them.  Every object that
    existed before the call is still there, a list as it was, a dict with
    the keys it had and each value either kept or replaced by the float
    it parses to.  The record returned sits at a new location and its
    close_approach_data is the very list of the argument.  When the call
    returns, every unit mapping under miss_distance and relative_velocity
    of every entry of that list holds, for a str that parses once its
    commas are removed, the float, and any other value untouched. *)
Theorem format_asteroid_data_shares (asteroid : val) (h h' : heap)
  (res : result val) :
  format_asteroid_data asteroid h = (res, h') ->
  heap_coerced h h' /\
  (forall r, res = Ok r ->
     exists lf fields,
       r = VRef lf /\ h !! lf = None /\ h' !! lf = Some (ODict fields) /\
       forall la rec lc,
         asteroid = VRef la -> h !! la = Some (ODict rec) ->
         rec !! "close_approach_data" = Some (VRef lc) ->
         fields !! "close_approach_data" = Some (VRef lc)) /\
  (forall r la rec lc approaches approach key,
     res = Ok r ->
     asteroid = VRef la -> h !! la = Some (ODict rec) ->
     rec !! "close_approach_data" = Some (VRef lc) ->
     h !! lc = Some (OList approaches) ->
     In approach approaches ->
     In key ["miss_distance"; "relative_velocity"] ->
     units_coerced approach key h h') /\
  (forall s,
     coerced_value (VStr s) =
     match float_of_str (remove_commas s) with
     | Some q => VFloat q
     | None => VStr s
     end) /\
  (forall v, (forall s, v <> VStr s) -> coerced_value v = v).
Proof.
  intros Hrun.
  assert (Hcases :
            (exists e, new_formatted asteroid h = Raise e /\ res = Raise e /\ h' = h) \/
            (exists cad lf h5, new_formatted asteroid h = Ok (cad, lf, h5))).
  { unfold format_asteroid_data in Hrun.
    destruct (new_formatted asteroid h) as [[[cad lf] h5] | e].
    - right. eauto.
    - left. injection Hrun as <- <-. eauto. }
  split; [| split; [| split; [| split;
    [exact coerced_value_str | exact coerced_value_other]]]].
  - destruct Hcases as [(e & _ & _ & ->) | (cad & lf & h5 & Hnew)];
      [apply heap_coerced_refl |].
    destruct (new_formatted_spec _ _ _ _ _ Hnew) as (ext & fields & -> & _).
    destruct (format_loop_spec _ _ _ _ _ _ _ Hnew Hrun) as [Hco _].
    eapply heap_coerced_trans; [apply heap_coerced_app | exact Hco].
  - intros r ->.
    destruct Hcases as [(e & _ & Hres & _) | (cad & lf & h5 & Hnew)];
      [discriminate Hres |].
    destruct (new_formatted_spec _ _ _ _ _ Hnew)
      as (ext & fields & -> & Hfresh & Hlf & Hfield & Hcad).
    destruct (format_loop_spec _ _ _ _ _ _ _ Hnew Hrun) as [Hco Hok].
    destruct (Hok r eq_refl) as [-> _].
    destruct (Hco _ _ Hlf) as (o' & Hlf' & Ho').
    apply obj_coerced_dict in Ho' as (fields' & -> & _ & Hrefs).
    exists lf, fields'. repeat split; try assumption.
    intros la rec lc Ha Hla Hrec. apply Hrefs.
    rewrite Hfield. f_equal. eapply Hcad; eassumption.
  - intros r la rec lc approaches approach key -> -> Hla Hrec Hlc Hin Hkey.
    destruct Hcases as [(e & _ & Hres & _) | (cad & lf & h5 & Hnew)];
      [discriminate Hres |].
    destruct (new_formatted_spec _ _ _ _ _ Hnew)
      as (ext & fields & -> & Hfresh & Hlf & Hfield & Hcad).
    destruct (format_loop_spec _ _ _ _ _ _ _ Hnew Hrun) as [Hco Hok].
    destruct (Hok r eq_refl) as [_ Hunits].
    rewrite (Hcad la rec lc eq_refl Hla Hrec) in Hunits.
    pose proof (lookup_app_l_Some _ ext _ _ Hlc) as Hlc'.
    eapply units_coerced_mono;
      [apply heap_coerced_app | | apply heap_coerced_refl].
    eapply (Hunits approaches); try assumption.
    + simpl. rewrite Hlc'. destruct approaches; [contradiction | reflexivity].
    + simpl. rewrite Hlc'. reflexivity.
Qed.

End Formatting.

Section FormattingRuns.

Import formatting spec samples.

#[local] Existing Instance samples.builtins.

Lemma reaches_miss_distance : reaches shared_heap (VRef 0) 3.
Proof.
  eapply reaches_dict with (k := "close_approach_data"); [reflexivity .. |].
  eapply reaches_list with (i := 0%nat); [reflexivity .. |].
  eapply reaches_dict with (k := "miss_distance"); [reflexivity .. |].
  apply reaches_here.
Qed.

(** C8 as the specification states it does not hold: the miss distance
    mapping that the argument reaches holds a float after the call. *)
Lemma formatting_counterexample : ~ formatting_is_pure (VRef 0) shared_heap.
Proof.
  intros Hpure. specialize (Hpure 3%nat reaches_miss_distance).
  assert (Hkm : kilometers_at (snd (format_asteroid_data (VRef 0) shared_heap)) 3
                = kilometers_at shared_heap 3)
    by (unfold kilometers_at; rewrite Hpure; reflexivity).
  vm_compute in Hkm. discriminate Hkm.
Qed.

(** C8 (as amended), on that record. *)
Lemma format_asteroid_data_shares_witness :
  units_coerced (VRef 2) "miss_distance" shared_heap
    (snd (format_asteroid_data (VRef 0) shared_heap)).
Proof.
  destruct (format_asteroid_data_shares (VRef 0) shared_heap
              (snd (format_asteroid_data (VRef 0) shared_heap))
              (fst (format_asteroid_data (VRef 0) shared_heap)))
    as (_ & _ & Hunits & _).
  - destruct (format_asteroid_data (VRef 0) shared_heap). reflexivity.
  - eapply (Hunits (VRef 8) 0%nat _ 1%nat [VRef 2]).
    + vm_compute. reflexivity.
    + reflexivity.
    + reflexivity.
    + reflexivity.
    + reflexivity.
    + left. reflexivity.
    + left. reflexivity.
Defined.

End FormattingRuns.

(** * Further properties *)

(** ** Validation and the score on arbitrary input *)

Section MoreUtils.

Import utils processor.

Local Open Scope Q_scope.

Context `{Builtins}.

(** X1.  On a dict, [validate_asteroid_data] never raises, and it
    accepts the record exactly when the three required keys are there,
    estimated_diameter is a dict, and close_approach_data is absent,
    falsy or a list.  An accepted record logs nothing, a refused one logs
    one warning. *)
Theorem validate_asteroid_data_on_dict (d : list (string * pyval)) :
  exists verdict warnings,
    validate_asteroid_data (PDict d) = Ok (verdict, warnings) /\
    (verdict = true <->
       dict_mem "id" d = true /\ dict_mem "name" d = true /\
       (exists diameter, dict_lookup "estimated_diameter" d = Some (PDict diameter)) /\
       (forall v, dict_lookup "close_approach_data" d = Some v ->
          py_truthy v = false \/ is_list v = true)) /\
    length warnings = (if verdict then 0 else 1)%nat.
Proof.
  unfold validate_asteroid_data. simpl.
  destruct (dict_mem "id" d) eqn:Hid; simpl;
    [| eexists _, _; split; [reflexivity |]; split; [| reflexivity];
       split; [discriminate | intros (Habs & _); discriminate]].
  destruct (dict_mem "name" d) eqn:Hname; simpl;
    [| eexists _, _; split; [reflexivity |]; split; [| reflexivity];
       split; [discriminate | intros (_ & Habs & _); discriminate]].
  unfold dict_mem.
  destruct (dict_lookup "estimated_diameter" d) as [diameter |] eqn:Hdiam; simpl;
    [| eexists _, _; split; [reflexivity |]; split; [| reflexivity];
       split; [discriminate | intros (_ & _ & (? & Habs) & _); discriminate]].
  destruct (is_dict diameter) eqn:Hdict; simpl;
    [| eexists _, _; split; [reflexivity |]; split; [| reflexivity];
       split; [discriminate |];
       intros (_ & _ & (dd & Habs) & _); injection Habs as ->; discriminate].
  destruct diameter; try discriminate Hdict.
  destruct (dict_lookup "close_approach_data" d) as [cad |] eqn:Hcad; simpl.
  - destruct (py_truthy cad && negb (is_list cad)) eqn:Hbad;
      eexists _, _; (split; [reflexivity |]); (split; [| reflexivity]).
    + split; [discriminate |]. intros (_ & _ & _ & Hshape).
      apply andb_true_iff in Hbad as [Ht Hl]. apply negb_true_iff in Hl.
      destruct (Hshape cad eq_refl); congruence.
    + split; [| reflexivity]. intros _. repeat split; eauto.
      intros v Hv. injection Hv as <-.
      apply andb_false_iff in Hbad as [Ht | Hl]; [left; exact Ht |].
      right. apply negb_false_iff in Hl. exact Hl.
  - eexists _, _. split; [reflexivity |]. split; [| reflexivity].
    split; [| reflexivity]. intros _. repeat split; eauto. intros v Hv. discriminate Hv.
Qed.

Lemma py_float_raises (o : pyval) (e : exn) :
  py_float o = Raise e -> risk_catches e = true \/ e = OverflowError.
Proof.
  destruct o as [| b | z | q | s | l | d]; simpl;
    try (intros Heq; injection Heq as <-; left; reflexivity);
    try discriminate.
  - destruct (Z.abs z <? float_overflow)%Z; [discriminate |].
    intros Heq. injection Heq as <-. right. reflexivity.
  - destruct (float_of_str s); [discriminate |].
    intros Heq. injection Heq as <-. left. reflexivity.
Qed.

Lemma py_get_raises (o : pyval) (k : string) (default : pyval) (e : exn) :
  py_get o k default = Raise e -> e = AttributeError.
Proof.
  destruct o; simpl; try discriminate;
    intros Heq; injection Heq as <-; reflexivity.
Qed.


Ltac read_raises He :=
  repeat match type of He with
    | bind (py_get ?o ?k ?dflt) _ = Raise _ =>
        let Hget := fresh "Hget" in
        destruct (py_get o k dflt) eqn:Hget; cbn [bind] in He;
        [| injection He as <-; right; left; eapply py_get_raises; exact Hget]
    end;
  destruct (py_float_raises _ _ He) as [Hc | ->]; [left; exact Hc | right; right; reflexivity].

Lemma diameter_km_of_raises (o : pyval) (e : exn) :
  diameter_km_of o = Raise e ->
  risk_catches e = true \/ e = AttributeError \/ e = OverflowError.
Proof. unfold diameter_km_of. intros He. read_raises He. Qed.

Lemma miss_distance_km_of_raises (o : pyval) (e : exn) :
  miss_distance_km_of o = Raise e ->
  risk_catches e = true \/ e = AttributeError \/ e = OverflowError.
Proof. unfold miss_distance_km_of. intros He. read_raises He. Qed.

Lemma velocity_kmh_of_raises (o : pyval) (e : exn) :
  velocity_kmh_of o = Raise e ->
  risk_catches e = true \/ e = AttributeError \/ e = OverflowError.
Proof. unfold velocity_kmh_of. intros He. read_raises He. Qed.

(** A reading that raises makes the score 0.0 when the exception is
    caught, and reaches the caller otherwise. *)
Lemma risk_fallback (e : exn) :
  risk_catches e = true \/ e = AttributeError \/ e = OverflowError ->
  (if risk_catches e then Ok 0.0 else Raise e) = Ok 0.0 \/
  (if risk_catches e then @Ok Q 0.0 else Raise e) = Raise AttributeError \/
  (if risk_catches e then @Ok Q 0.0 else Raise e) = Raise OverflowError.
Proof.
  intros [Hc | [-> | ->]]; [rewrite Hc; left | right; left | right; right];
    reflexivity.
Qed.

(** On a dict, a reading raises nothing but what [float] raises. *)
Lemma py_float_get_raises (d : list (string * pyval)) (k : string) (default : pyval)
  (e : exn) :
  (v <- py_get (PDict d) k default ;; py_float v) = Raise e ->
  risk_catches e = true \/ e = OverflowError.
Proof. simpl. apply py_float_raises. Qed.

(** X2.  The only exceptions [calculate_risk_score] lets through are
    AttributeError, from an argument, or a value under 'kilometers' of
    the diameter, that has no [get], and OverflowError, from an int
    that no float can hold.  Given three dicts, the diameter's
    'kilometers' absent or a dict, it returns unless such an int makes
    it raise OverflowError. *)
Theorem calculate_risk_score_escapes (diameter_data miss_distance velocity : pyval) :
  (forall e, calculate_risk_score diameter_data miss_distance velocity = Raise e ->
     e = AttributeError \/ e = OverflowError) /\
  (forall dd md vd,
     diameter_data = PDict dd -> miss_distance = PDict md -> velocity = PDict vd ->
     (forall km, dict_lookup "kilometers" dd = Some km -> is_dict km = true) ->
     (exists s, calculate_risk_score diameter_data miss_distance velocity = Ok s) \/
     calculate_risk_score diameter_data miss_distance velocity = Raise OverflowError).
Proof.
  split.
  - unfold calculate_risk_score.
    destruct (diameter_km_of diameter_data) as [d | e1] eqn:Hd; cbn [bind try_except].
    2:{ intros e Hrun.
        destruct (risk_fallback e1 (diameter_km_of_raises _ _ Hd)) as [Hf | [Hf | Hf]];
          rewrite Hf in Hrun; [discriminate Hrun | |];
          injection Hrun as <-; auto. }
    destruct (miss_distance_km_of miss_distance) as [m | e2] eqn:Hm;
      cbn [bind try_except].
    2:{ intros e Hrun.
        destruct (risk_fallback e2 (miss_distance_km_of_raises _ _ Hm))
          as [Hf | [Hf | Hf]];
          rewrite Hf in Hrun; [discriminate Hrun | |];
          injection Hrun as <-; auto. }
    destruct (velocity_kmh_of velocity) as [v | e3] eqn:Hv; cbn [bind try_except].
    2:{ intros e Hrun.
        destruct (risk_fallback e3 (velocity_kmh_of_raises _ _ Hv)) as [Hf | [Hf | Hf]];
          rewrite Hf in Hrun; [discriminate Hrun | |];
          injection Hrun as <-; auto. }
    intros e Hrun. discriminate Hrun.
  - intros dd md vd -> -> -> Hkm. unfold calculate_risk_score.
    assert (Hd : forall e, diameter_km_of (PDict dd) = Raise e ->
                           risk_catches e = true \/ e = OverflowError).
    { intros e He. unfold diameter_km_of in He. simpl in He.
      destruct (dict_lookup "kilometers" dd) as [km |] eqn:Hlook.
      - specialize (Hkm km eq_refl). destruct km; try discriminate Hkm.
        apply py_float_get_raises in He. exact He.
      - apply py_float_get_raises in He. exact He. }
    assert (Hcaught : forall e, risk_catches e = true \/ e = OverflowError ->
              (exists s, (if risk_catches e then Ok 0.0 else Raise e) = @Ok Q s) \/
              (if risk_catches e then @Ok Q 0.0 else Raise e) = Raise OverflowError).
    { intros e [Hc | ->]; [rewrite Hc; left; eauto | right; reflexivity]. }
    destruct (diameter_km_of (PDict dd)) as [d | e1]; cbn [bind try_except];
      [| apply Hcaught; apply Hd; reflexivity].
    destruct (miss_distance_km_of (PDict md)) as [m | e2] eqn:Hm; cbn [bind try_except];
      [| apply Hcaught; unfold miss_distance_km_of in Hm;
         apply py_float_get_raises in Hm; exact Hm].
    destruct (velocity_kmh_of (PDict vd)) as [v | e3] eqn:Hv; cbn [bind try_except];
      [| apply Hcaught; unfold velocity_kmh_of in Hv;
         apply py_float_get_raises in Hv; exact Hv].
    left. eauto.
Qed.

(** X3.  The two ladders on the risk score agree at the bottom and
    nest at the top: the hazard level is LOW exactly when the threat
    level is LOW; a HIGH hazard has threat HIGH or CRITICAL; a CRITICAL
    threat has hazard HIGH; a MEDIUM hazard has threat MEDIUM or HIGH. *)
Theorem hazard_and_threat_agree (s : Q) :
  (hazard_level s = "LOW"%string <-> threat_level (PFloat s) = Ok "LOW"%string) /\
  (hazard_level s = "HIGH"%string ->
     threat_level (PFloat s) = Ok "HIGH"%string \/
     threat_level (PFloat s) = Ok "CRITICAL"%string) /\
  (threat_level (PFloat s) = Ok "CRITICAL"%string -> hazard_level s = "HIGH"%string) /\
  (hazard_level s = "MEDIUM"%string ->
     threat_level (PFloat s) = Ok "MEDIUM"%string \/
     threat_level (PFloat s) = Ok "HIGH"%string).
Proof.
  destruct (hazard_level_cases s) as (Hh & Hm & Hl).
  destruct (threat_level_cases s) as (Tc & Th & Tm & Tl).
  destruct (Qlt_le_dec 0.8 s) as [H8 | H8];
    [rewrite (Tc H8), Hh by lra;
     repeat split; try discriminate; auto |].
  destruct (Qlt_le_dec 0.7 s) as [H7 | H7];
    [rewrite (Th ltac:(lra) H8), (Hh H7);
     repeat split; try discriminate; auto |].
  destruct (Qlt_le_dec 0.6 s) as [H6 | H6];
    [rewrite (Th H6 H8), (Hm ltac:(lra) H7);
     repeat split; try discriminate; auto |].
  destruct (Qlt_le_dec 0.4 s) as [H4 | H4];
    [rewrite (Tm H4 H6), (Hm H4 H7);
     repeat split; try discriminate; auto |].
  rewrite (Tl H4), (Hl H4). repeat split; try discriminate; auto.
Qed.

End MoreUtils.

Section MoreUtilsWitness.

Import utils samples.

#[local] Existing Instance samples.builtins.

(** X2 on the mappings of [test_calculate_risk_score_invalid_data]. *)
Lemma calculate_risk_score_escapes_witness :
  exists s, calculate_risk_score (PDict []) (PDict []) (PDict []) = Ok s.
Proof.
  destruct (calculate_risk_score_escapes (PDict []) (PDict []) (PDict []))
    as (_ & Hreturns).
  destruct (Hreturns [] [] []) as [Hok | Hraise]; try reflexivity.
  - intros km Hkm. discriminate Hkm.
  - exact Hok.
  - vm_compute in Hraise. discriminate Hraise.
Defined.

End MoreUtilsWitness.

(** ** What the insights hold *)

Section MoreInsights.

Import utils processor storage spec notions.

Local Open Scope Q_scope.

Context `{Builtins}.

Lemma velocity_step_frame (asteroid : pyval) (insights insights' : list (string * pyval))
  (k : string) :
  velocity_step asteroid insights = Ok insights' ->
  String.eqb k "velocity_category" = false ->
  dict_lookup k insights' = dict_lookup k insights.
Proof.
  intros Hstep Hk. unfold velocity_step in Hstep. unbind;
    first [reflexivity | apply dict_lookup_set_ne; exact Hk].
Qed.

Lemma distance_step_frame (asteroid : pyval) (insights insights' : list (string * pyval))
  (k : string) :
  distance_step asteroid insights = Ok insights' ->
  String.eqb k "distance_category" = false ->
  dict_lookup k insights' = dict_lookup k insights.
Proof.
  intros Hstep Hk. unfold distance_step in Hstep. unbind;
    first [reflexivity | apply dict_lookup_set_ne; exact Hk].
Qed.

Lemma days_step_frame (E : Env) (asteroid : pyval)
  (insights insights' : list (string * pyval)) (w w' : World) (k : string) :
  days_step E asteroid insights w = (Ok insights', w') ->
  String.eqb k "days_to_approach" = false ->
  dict_lookup k insights' = dict_lookup k insights.
Proof.
  intros Hstep Hk. unfold days_step in Hstep.
  unbindW Hstep. destruct r; [| injection Hstep as <- _; reflexivity].
  unbindW Hstep. unbindW Hstep.
  destruct (py_truthy r0); [| injection Hstep as <- _; reflexivity].
  destruct r0; try discriminate Hstep.
  destruct (strptime_ymd s).
  - unfold mbindW, now, ret in Hstep. injection Hstep as <- _.
    apply dict_lookup_set_ne. exact Hk.
  - injection Hstep as <- _. apply dict_lookup_set_ne. exact Hk.
Qed.

(** The last three entries, as functions of the score the record holds. *)
Lemma priority_step_inv (asteroid : pyval) (insights insights' : list (string * pyval)) :
  priority_step asteroid insights = Ok insights' ->
  exists q threat,
    threat_level (PFloat q) = Ok threat /\
    insights' =
      dict_set "recommended_action" (PStr (recommended_action threat))
        (dict_set "threat_level" (PStr threat)
           (dict_set "is_high_priority" (PBool (Qltb 0.5 q)) insights)).
Proof.
  intros Hstep. unfold priority_step in Hstep.
  destruct (py_get asteroid "risk_score" (PFloat 0.0)) as [r |] eqn:Hr;
    cbn [bind] in Hstep; [| discriminate Hstep].
  unfold py_gt in Hstep at 1.
  destruct (py_number r) as [q |] eqn:Hq; cbn [bind] in Hstep; [| discriminate Hstep].
  destruct (threat_level r) as [threat |] eqn:Ht; cbn [bind] in Hstep;
    [| discriminate Hstep].
  injection Hstep as <-. exists q, threat. split; [| reflexivity].
  unfold threat_level, py_gt in *. rewrite Hq in Ht. exact Ht.
Qed.

Lemma threat_and_priority (q : Q) (threat : string) :
  threat_level (PFloat q) = Ok threat ->
  In threat ["CRITICAL"; "HIGH"; "MEDIUM"; "LOW"]%string /\
  (Qltb 0.5 q = false -> threat = "LOW"%string \/ threat = "MEDIUM"%string) /\
  (threat = "LOW"%string -> Qltb 0.5 q = false).
Proof.
  destruct (threat_level_cases q) as (Tc & Th & Tm & Tl).
  intros Ht.
  destruct (Qlt_le_dec 0.8 q) as [H8 | H8].
  { rewrite (Tc H8) in Ht. injection Ht as <-. split; [simpl; auto |]. split.
    - intros Hp. apply Qltb_ge in Hp. lra.
    - discriminate. }
  destruct (Qlt_le_dec 0.6 q) as [H6 | H6].
  { rewrite (Th H6 H8) in Ht. injection Ht as <-. split; [simpl; auto |]. split.
    - intros Hp. apply Qltb_ge in Hp. lra.
    - discriminate. }
  destruct (Qlt_le_dec 0.4 q) as [H4 | H4].
  { rewrite (Tm H4 H6) in Ht. injection Ht as <-. split; [simpl; auto |]. split.
    - auto.
    - discriminate. }
  rewrite (Tl H4) in Ht. injection Ht as <-. split; [simpl; auto 6 |]. split.
  - auto.
  - intros _. apply Qltb_ge. lra.
Qed.

Lemma size_step_inv (asteroid : pyval) (insights insights' : list (string * pyval)) :
  size_step asteroid insights = Ok insights' ->
  exists size,
    In size ["Small (< 100m)"; "Medium (100m - 1km)"; "Large (> 1km)"]%string /\
    insights' = dict_set "size_category" (PStr size) insights.
Proof.
  intros Hstep. unfold size_step in Hstep. unbind; eexists; (split; [| reflexivity]);
    simpl; auto.
Qed.

(** The steps of [_calculate_insights], taken apart. *)
Lemma calculate_insights_inv (E : Env) (asteroid : pyval) (w w' : World) (v : pyval) :
  _calculate_insights E asteroid w = (Ok v, w') ->
  exists i1 orbital_data i2 i3 i4 i5 i6 w6 i7,
    size_step asteroid [] = Ok i1 /\
    py_get asteroid "orbital_data" (PDict []) = Ok orbital_data /\
    orbit_type_step orbital_data i1 = Ok i2 /\
    inclination_type_step orbital_data i2 = Ok i3 /\
    velocity_step asteroid i3 = Ok i4 /\
    distance_step asteroid i4 = Ok i5 /\
    days_step E asteroid i5 w = (Ok i6, w6) /\
    priority_step asteroid i6 = Ok i7 /\
    w' = tick w6 /\
    v = PDict (dict_set "processing_metadata"
                 (PDict [("processed_at", PStr (isoformat (clock E (now_calls w6))));
                         ("processor_version", PStr "1.0.0");
                         ("data_source", PStr "NASA NEO API")])
                 i7).
Proof.
  intros Hrun. unfold _calculate_insights in Hrun.
  unbindW Hrun. apply lift_ok in E0 as [H1 ->].
  unbindW Hrun. apply lift_ok in E0 as [H2 ->].
  unbindW Hrun. apply lift_ok in E0 as [H3 ->].
  unbindW Hrun. apply lift_ok in E0 as [H4 ->].
  unbindW Hrun. apply lift_ok in E0 as [H5 ->].
  unbindW Hrun. apply lift_ok in E0 as [H6 ->].
  unbindW Hrun. rename E0 into H7.
  unbindW Hrun. apply lift_ok in E0 as [H8 ->].
  unfold mbindW, now, ret in Hrun. injection Hrun as <- <-.
  do 9 eexists. repeat (split; [eassumption |]). split; reflexivity.
Qed.

(** X4.  Whenever [_calculate_insights] returns, the result has a size
    category, a threat level, the recommended action that belongs to the
    threat level, a priority flag and the processing metadata; a record
    that is not high priority has threat level LOW or MEDIUM, and a
    record of threat level LOW is never high priority. *)
Theorem insights_are_consistent (E : Env) (asteroid : pyval) (w w' : World)
  (v : pyval) :
  _calculate_insights E asteroid w = (Ok v, w') ->
  exists insights size threat priority metadata,
    v = PDict insights /\
    dict_lookup "size_category" insights = Some (PStr size) /\
    In size ["Small (< 100m)"; "Medium (100m - 1km)"; "Large (> 1km)"]%string /\
    dict_lookup "threat_level" insights = Some (PStr threat) /\
    In threat ["CRITICAL"; "HIGH"; "MEDIUM"; "LOW"]%string /\
    dict_lookup "recommended_action" insights
    = Some (PStr (recommended_action threat)) /\
    dict_lookup "is_high_priority" insights = Some (PBool priority) /\
    dict_lookup "processing_metadata" insights = Some (PDict metadata) /\
    (priority = false -> threat = "LOW"%string \/ threat = "MEDIUM"%string) /\
    (threat = "LOW"%string -> priority = false).
Proof.
  intros Hrun.
  apply calculate_insights_inv in Hrun
    as (i1 & od & i2 & i3 & i4 & i5 & i6 & w6 & i7
        & H1 & _ & H3 & H4 & H5 & H6 & H7 & H8 & _ & ->).
  apply size_step_inv in H1 as (size & Hsize & ->).
  apply priority_step_inv in H8 as (q & threat & Hthreat & ->).
  destruct (threat_and_priority q threat Hthreat) as (Hin & Hlow & Hprio).
  eexists _, size, threat, (Qltb 0.5 q), _. split; [reflexivity |].
  rewrite !dict_lookup_set. simpl.
  rewrite (days_step_frame _ _ _ _ _ _ "size_category" H7 eq_refl).
  rewrite (distance_step_frame _ _ _ "size_category" H6 eq_refl).
  rewrite (velocity_step_frame _ _ _ "size_category" H5 eq_refl).
  rewrite (inclination_type_step_frame _ _ _ "size_category" H4 eq_refl).
  rewrite (orbit_type_step_frame _ _ _ "size_category" H3 eq_refl).
  simpl. repeat split; auto.
Qed.

Lemma forall2_in {A B : Type} (P : A -> B -> Prop) (l : list A) (l' : list B) (a : A) :
  Forall2 P l l' -> In a l -> exists b, In b l' /\ P a b.
Proof.
  induction 1 as [| x y l l' Hxy _ IH]; intros Hin; [contradiction |].
  destruct Hin as [<- | Hin].
  - exists y. split; [left; reflexivity | exact Hxy].
  - destruct (IH Hin) as (b & Hb & Hab). exists b. split; [right |]; assumption.
Qed.

(** X5.  A velocity in km/h or a miss distance in km that is a str, as
    in the record of [tests/test_duplicate_handling.py], is compared
    with a number by [_calculate_insights]: for a record with such a
    first approach the function never returns, and a call of the
    insights store whose batch holds the record raises and leaves both
    tables as they were. *)
Theorem string_reading_stops_insights (E : Env) (asteroid : pyval) (s : string) :
  has_close_approach asteroid = Ok true ->
  approach_reading asteroid "relative_velocity" "kilometers_per_hour" = Ok (PStr s) \/
  approach_reading asteroid "miss_distance" "kilometers" = Ok (PStr s) ->
  (forall w v w', _calculate_insights E asteroid w <> (Ok v, w')) /\
  (forall batch w,
     In asteroid batch ->
     exists e w',
       store_processed_insights_sql E batch w = (Raise e, w') /\
       tables_kept w w').
Proof.
  intros Hclose Hreading.
  assert (Hnever : forall w v w', _calculate_insights E asteroid w <> (Ok v, w')).
  { intros w v w' Hrun.
    apply calculate_insights_inv in Hrun
      as (i1 & od & i2 & i3 & i4 & i5 & i6 & w6 & i7
          & _ & _ & _ & _ & H5 & H6 & _).
    unfold approach_reading in Hreading.
    destruct Hreading as [Hr | Hr].
    - unfold velocity_step in H5. rewrite Hclose in H5. cbn [bind] in H5.
      destruct (first_approach asteroid) as [approach |]; cbn [bind] in *;
        [| discriminate Hr].
      destruct (py_get approach "relative_velocity" (PDict [])) as [g |];
        cbn [bind] in *; [| discriminate Hr].
      rewrite Hr in H5. discriminate H5.
    - unfold distance_step in H6. rewrite Hclose in H6. cbn [bind] in H6.
      destruct (first_approach asteroid) as [approach |]; cbn [bind] in *;
        [| discriminate Hr].
      destruct (py_get approach "miss_distance" (PDict [])) as [g |];
        cbn [bind] in *; [| discriminate Hr].
      rewrite Hr in H6. discriminate H6. }
  split; [exact Hnever |].
  intros batch w Hin.
  pose proof (store_processed_insights_sql_cases E batch w) as Hcases.
  destruct (store_processed_insights_sql E batch w) as [[[] | e] w'].
  - exfalso. destruct Hcases as (rows & _ & Hrows & _).
    destruct (forall2_in _ _ _ _ Hrows Hin) as (row & _ & wa & wb & Hrow).
    unfold insight_values in Hrow. unbindW Hrow.
    eapply Hnever. eassumption.
  - exists e, w'. split; [reflexivity | exact Hcases].
Qed.

End MoreInsights.

(** ** Dates, orbits and rows *)

Section MoreRows.

Import utils processor storage spec notions.

Local Open Scope Q_scope.

Context `{Builtins}.

(** X6.  [days_to_approach] is the whole number of days from the clock
    reading to midnight of the approach date, rounded down: an approach
    dated on the current day is stored as -1, and 0 stands for an
    approach whose date begins within the next 24 hours. *)
Theorem days_to_approach_rounds_down (E : Env) (asteroid approach : pyval)
  (s : string) (t0 : Z) (w w' : World) (v : pyval) :
  has_close_approach asteroid = Ok true ->
  first_approach asteroid = Ok approach ->
  py_get approach "close_approach_date" PNone = Ok (PStr s) ->
  py_truthy (PStr s) = true ->
  strptime_ymd s = Some t0 ->
  _calculate_insights E asteroid w = (Ok v, w') ->
  let t := clock E (now_calls w) in
  exists insights days,
    v = PDict insights /\
    dict_lookup "days_to_approach" insights = Some (PInt days) /\
    (days * microseconds_per_day <= t0 - t < (days + 1) * microseconds_per_day)%Z /\
    ((t0 < t <= t0 + microseconds_per_day)%Z -> days = (-1)%Z) /\
    ((t <= t0 < t + microseconds_per_day)%Z -> days = 0%Z).
Proof.
  intros Hclose Happroach Hdate Htruthy Hparse Hrun t.
  apply calculate_insights_inv in Hrun
    as (i1 & od & i2 & i3 & i4 & i5 & i6 & w6 & i7
        & _ & _ & _ & _ & _ & _ & H7 & H8 & _ & ->).
  apply priority_step_inv in H8 as (q & threat & _ & ->).
  unfold days_step, mbindW, lift in H7.
  rewrite Hclose, Happroach, Hdate, Htruthy, Hparse in H7.
  unfold now, ret in H7. injection H7 as <- _.
  exists (dict_set "processing_metadata"
            (PDict [("processed_at", PStr (isoformat (clock E (now_calls w6))));
                    ("processor_version", PStr "1.0.0");
                    ("data_source", PStr "NASA NEO API")])
            (dict_set "recommended_action" (PStr (recommended_action threat))
               (dict_set "threat_level" (PStr threat)
                  (dict_set "is_high_priority" (PBool (Qltb 0.5 q))
                     (dict_set "days_to_approach"
                        (PInt ((t0 - t) / microseconds_per_day)) i5))))),
         ((t0 - t) / microseconds_per_day)%Z.
  split; [reflexivity |]. split.
  { rewrite !dict_lookup_set. reflexivity. }
  unfold microseconds_per_day.
  pose proof (Z.div_mod (t0 - t) 86400000000 ltac:(lia)) as Hdiv.
  pose proof (Z.mod_pos_bound (t0 - t) 86400000000 ltac:(lia)) as Hmod.
  repeat split; try lia; intros Hrange; nia.
Qed.

Lemma py_contains_raises (k : string) (o : pyval) (e : exn) :
  py_contains k o = Raise e -> e = TypeError.
Proof. destruct o; simpl; intros Heq; congruence. Qed.

Lemma py_getitem_raises (o : pyval) (k : string) (e : exn) :
  py_getitem o k = Raise e -> e = KeyError \/ e = TypeError.
Proof.
  destruct o as [| | | | | | d]; simpl; intros Heq; try (right; congruence).
  destruct (dict_lookup k d); [discriminate Heq | left; congruence].
Qed.

Lemma py_float_raises_only (o : pyval) (e : exn) :
  py_float o = Raise e -> e = ValueError \/ e = TypeError \/ e = OverflowError.
Proof.
  destruct o as [| | z | | s | |]; simpl; intros Heq;
    try (right; left; congruence); try discriminate Heq.
  - destruct (Z.abs z <? float_overflow)%Z; [discriminate Heq |].
    right. right. congruence.
  - destruct (float_of_str s); [discriminate Heq | left; congruence].
Qed.

Lemma py_float_reads (v : pyval) :
  reads_as_number v ->
  (exists q, py_float v = Ok q) \/ py_float v = Raise ValueError.
Proof.
  destruct v as [| b | z | q | s | l | d]; simpl; intros Hv; try contradiction;
    try (left; eauto; fail).
  - apply Z.ltb_lt in Hv. rewrite Hv. left. eauto.
  - destruct (float_of_str s); [left; eauto | right; reflexivity].
Qed.

(** What a step of [_calculate_orbital_insights] can raise. *)
Ltac orbital_step_raises :=
  let Hc := fresh "Hc" in
  let Hg := fresh "Hg" in
  let Hf := fresh "Hf" in
  match goal with
  | Hstep : _ = Raise ?e |- _ =>
      match type of Hstep with
      | context [py_contains ?k ?o] =>
          destruct (py_contains k o) as [[|] |] eqn:Hc; cbn [bind] in Hstep;
          [ destruct (py_getitem o k) as [v |] eqn:Hg; cbn [bind] in Hstep;
            [ destruct (py_float v) as [x |] eqn:Hf; cbn [bind] in Hstep;
              [ repeat match type of Hstep with
                  | (if ?b then _ else _) = _ => destruct b
                  end; discriminate Hstep
              | injection Hstep as <-;
                destruct (py_float_raises_only _ _ Hf) as [-> | [-> | ->]]; auto ]
            | injection Hstep as <-;
              destruct (py_getitem_raises _ _ _ Hg) as [-> | ->]; auto ]
          | discriminate Hstep
          | injection Hstep as <-; apply py_contains_raises in Hc; auto ]
      end
  end.

Lemma orbital_period_step_raises (orbital_data : pyval)
  (insights : list (string * pyval)) (e : exn) :
  orbital_period_step orbital_data insights = Raise e ->
  orbital_catches e = true \/ e = TypeError \/ e = OverflowError.
Proof. intros Hstep. unfold orbital_period_step in Hstep. orbital_step_raises. Qed.

Lemma orbit_type_step_raises (orbital_data : pyval)
  (insights : list (string * pyval)) (e : exn) :
  orbit_type_step orbital_data insights = Raise e ->
  orbital_catches e = true \/ e = TypeError \/ e = OverflowError.
Proof. intros Hstep. unfold orbit_type_step in Hstep. orbital_step_raises. Qed.

Lemma inclination_type_step_raises (orbital_data : pyval)
  (insights : list (string * pyval)) (e : exn) :
  inclination_type_step orbital_data insights = Raise e ->
  orbital_catches e = true \/ e = TypeError \/ e = OverflowError.
Proof. intros Hstep. unfold inclination_type_step in Hstep. orbital_step_raises. Qed.

(** A step on a dict whose element reads as a number. *)
Ltac orbital_step_on_dict Hvalues :=
  match goal with
  | |- context [py_contains ?k (PDict ?od)] =>
      let Hl := fresh "Hl" in
      let Hf := fresh "Hf" in
      simpl; unfold dict_mem;
      destruct (dict_lookup k od) as [v |] eqn:Hl; cbn [bind];
      [ destruct (py_float_reads v) as [[x Hf] | Hf];
        [ apply (Hvalues k v); [simpl; auto | exact Hl]
        | rewrite Hf; cbn [bind];
          repeat match goal with
            | |- context [if ?b then _ else _] => destruct b
            end; eauto
        | rewrite Hf; right; reflexivity ]
      | eauto ]
  end.

Lemma orbital_period_step_on_dict (od insights : list (string * pyval)) :
  (forall k v, In k ["orbital_period"; "eccentricity"; "inclination"]%string ->
               dict_lookup k od = Some v -> reads_as_number v) ->
  (exists i, orbital_period_step (PDict od) insights = Ok i) \/
  orbital_period_step (PDict od) insights = Raise ValueError.
Proof. intros Hvalues. unfold orbital_period_step. orbital_step_on_dict Hvalues. Qed.

Lemma orbit_type_step_on_dict (od insights : list (string * pyval)) :
  (forall k v, In k ["orbital_period"; "eccentricity"; "inclination"]%string ->
               dict_lookup k od = Some v -> reads_as_number v) ->
  (exists i, orbit_type_step (PDict od) insights = Ok i) \/
  orbit_type_step (PDict od) insights = Raise ValueError.
Proof. intros Hvalues. unfold orbit_type_step. orbital_step_on_dict Hvalues. Qed.

Lemma inclination_type_step_on_dict (od insights : list (string * pyval)) :
  (forall k v, In k ["orbital_period"; "eccentricity"; "inclination"]%string ->
               dict_lookup k od = Some v -> reads_as_number v) ->
  (exists i, inclination_type_step (PDict od) insights = Ok i) \/
  inclination_type_step (PDict od) insights = Raise ValueError.
Proof. intros Hvalues. unfold inclination_type_step. orbital_step_on_dict Hvalues. Qed.

(** X7.  [_calculate_orbital_insights] lets through a TypeError, and an
    OverflowError from an int that no float can hold, and nothing
    else; on a dict whose orbital_period, eccentricity and inclination,
    where present, are floats, bools, strs or ints that a float can
    hold, it always returns a dict. *)
Theorem orbital_insights_escapes :
  (forall orbital_data e,
     _calculate_orbital_insights orbital_data = Raise e ->
     e = TypeError \/ e = OverflowError) /\
  (forall od,
     (forall k v, In k ["orbital_period"; "eccentricity"; "inclination"]%string ->
                  dict_lookup k od = Some v -> reads_as_number v) ->
     exists insights, _calculate_orbital_insights (PDict od) = Ok (PDict insights)).
Proof.
  split.
  - intros orbital_data e Hrun. unfold _calculate_orbital_insights in Hrun.
    assert (Hfail : forall (i : list (string * pyval)) e0,
              orbital_catches e0 = true \/ e0 = TypeError \/ e0 = OverflowError ->
              (if orbital_catches e0
               then Ok (PDict (dict_set "error" (PStr (exn_str e0)) i))
               else Raise e0) = Raise e ->
              e = TypeError \/ e = OverflowError).
    { intros i e0 [Hc | [-> | ->]] Heq.
      - rewrite Hc in Heq. discriminate Heq.
      - simpl in Heq. left. congruence.
      - simpl in Heq. right. congruence. }
    destruct (orbital_period_step orbital_data []) as [i1 | e1] eqn:H1;
      [| exact (Hfail _ _ (orbital_period_step_raises _ _ _ H1) Hrun)].
    destruct (orbit_type_step orbital_data i1) as [i2 | e2] eqn:H2;
      [| exact (Hfail _ _ (orbit_type_step_raises _ _ _ H2) Hrun)].
    destruct (inclination_type_step orbital_data i2) as [i3 | e3] eqn:H3;
      [discriminate Hrun |].
    exact (Hfail _ _ (inclination_type_step_raises _ _ _ H3) Hrun).
  - intros od Hvalues. unfold _calculate_orbital_insights.
    destruct (orbital_period_step_on_dict od [] Hvalues) as [[i1 ->] | ->];
      [| simpl; eauto].
    destruct (orbit_type_step_on_dict od i1 Hvalues) as [[i2 ->] | ->];
      [| simpl; eauto].
    destruct (inclination_type_step_on_dict od i2 Hvalues) as [[i3 ->] | ->];
      simpl; eauto.
Qed.

(** X8.  The orbital insights stop at the first element that does not
    parse: with an eccentricity that is a str [float] refuses, the
    result holds the error text and the period computed before it, and
    neither an orbit type nor an inclination type, whatever the
    inclination is. *)
Theorem orbital_insights_stop_at_first_error (od : list (string * pyval))
  (s : string) :
  dict_lookup "eccentricity" od = Some (PStr s) ->
  float_of_str s = None ->
  (forall v, dict_lookup "orbital_period" od = Some v -> exists p, py_float v = Ok p) ->
  exists insights,
    _calculate_orbital_insights (PDict od) = Ok (PDict insights) /\
    dict_lookup "error" insights = Some (PStr (exn_str ValueError)) /\
    dict_lookup "orbit_type" insights = None /\
    dict_lookup "inclination_type" insights = None /\
    (forall v p, dict_lookup "orbital_period" od = Some v -> py_float v = Ok p ->
                 dict_lookup "orbital_period_days" insights = Some (PFloat p)) /\
    (dict_lookup "orbital_period" od = None ->
     dict_lookup "orbital_period_days" insights = None).
Proof.
  intros Hecc Hparse Hperiod.
  assert (H2 : forall i, orbit_type_step (PDict od) i = Raise ValueError).
  { intros i. unfold orbit_type_step. simpl. unfold dict_mem. rewrite Hecc.
    simpl. rewrite Hparse. reflexivity. }
  unfold _calculate_orbital_insights, orbital_period_step. simpl. unfold dict_mem.
  destruct (dict_lookup "orbital_period" od) as [v |] eqn:Hl; cbn [bind].
  - destruct (Hperiod v eq_refl) as [p Hp]. rewrite Hp. cbn [bind].
    rewrite H2. simpl. eexists. split; [reflexivity |]. simpl.
    repeat split; try reflexivity; try discriminate.
    intros v' p' Hv' Hp'. injection Hv' as <-. congruence.
  - rewrite H2. simpl. eexists. split; [reflexivity |]. simpl.
    repeat split; try reflexivity; discriminate.
Qed.

(** What [_calculate_insights] never assigns is absent from its result. *)
Lemma calculate_insights_keys (E : Env) (asteroid : pyval) (w w' : World)
  (insights : list (string * pyval)) (k : string) :
  _calculate_insights E asteroid w = (Ok (PDict insights), w') ->
  forallb (fun key => negb (String.eqb k key)) insight_keys = true ->
  dict_lookup k insights = None.
Proof.
  intros Hrun Hk. simpl in Hk.
  repeat match type of Hk with
    | (_ && _)%bool = true => let Hn := fresh "Hn" in
                              apply andb_prop in Hk as [Hn Hk];
                              apply negb_true_iff in Hn
    end.
  apply calculate_insights_inv in Hrun
    as (i1 & od & i2 & i3 & i4 & i5 & i6 & w6 & i7
        & H1 & _ & H3 & H4 & H5 & H6 & H7 & H8 & _ & Hv).
  injection Hv as ->.
  apply size_step_inv in H1 as (size & _ & ->).
  apply priority_step_inv in H8 as (q & threat & _ & ->).
  rewrite !dict_lookup_set_ne by assumption.
  rewrite (days_step_frame _ _ _ _ _ _ k H7) by assumption.
  rewrite (distance_step_frame _ _ _ k H6) by assumption.
  rewrite (velocity_step_frame _ _ _ k H5) by assumption.
  rewrite (inclination_type_step_frame _ _ _ k H4) by assumption.
  rewrite (orbit_type_step_frame _ _ _ k H3) by assumption.
  simpl. rewrite Hn. reflexivity.
Qed.

(** The row of [store_processed_insights_sql], column by column. *)
Lemma insight_values_inv (E : Env) (asteroid : pyval) (w w' : World) (row : Row) :
  insight_values E asteroid w = (Ok row, w') ->
  exists insights wi id name risk_score hazard,
    _calculate_insights E asteroid w = (Ok (PDict insights), wi) /\
    py_get asteroid "id" PNone = Ok id /\
    py_get asteroid "name" PNone = Ok name /\
    py_get asteroid "risk_score" (PFloat 0.0) = Ok risk_score /\
    py_get asteroid "hazard_level" (PStr "LOW") = Ok hazard /\
    row =
      [("raw_asteroid_id", SqlParam id);
       ("name", SqlParam name);
       ("risk_score", SqlParam risk_score);
       ("hazard_level", SqlParam hazard);
       ("size_category", SqlParam (get_or_none "size_category" insights));
       ("orbit_type", SqlParam (get_or_none "orbit_type" insights));
       ("inclination_type", SqlParam (get_or_none "inclination_type" insights));
       ("velocity_category", SqlParam (get_or_none "velocity_category" insights));
       ("distance_category", SqlParam (get_or_none "distance_category" insights));
       ("days_to_approach", SqlParam (get_or_none "days_to_approach" insights));
       ("is_high_priority",
          SqlParam (match dict_lookup "is_high_priority" insights with
                    | Some v => v
                    | None => PBool false
                    end));
       ("threat_level", SqlParam (get_or_none "threat_level" insights));
       ("recommended_action", SqlParam (get_or_none "recommended_action" insights));
       ("orbital_insights",
          SqlJson (match dict_lookup "orbital_insights" insights with
                   | Some v => v
                   | None => PDict []
                   end));
       ("size_insights",
          SqlJson (match dict_lookup "size_insights" insights with
                   | Some v => v
                   | None => PDict []
                   end));
       ("velocity_insights",
          SqlJson (match dict_lookup "velocity_insights" insights with
                   | Some v => v
                   | None => PDict []
                   end));
       ("distance_insights",
          SqlJson (match dict_lookup "distance_insights" insights with
                   | Some v => v
                   | None => PDict []
                   end));
       ("processing_metadata",
          SqlJson (match dict_lookup "processing_metadata" insights with
                   | Some v => v
                   | None => PDict []
                   end));
       ("processed_at", SqlDatetime (clock E (now_calls wi)))].
Proof.
  intros Hrun. unfold insight_values in Hrun.
  unbindW Hrun. rename E0 into Hins.
  pose proof Hins as Hinv.
  apply calculate_insights_inv in Hinv
    as (i1 & od & i2 & i3 & i4 & i5 & i6 & w6 & i7 & _ & _ & _ & _ & _ & _ & _ & _ & _ & Hv).
  match type of Hv with _ = PDict ?d => set (insights := d) in * end.
  clearbody insights. subst r.
  unbindW Hrun. apply lift_ok in E0 as [Hid ->].
  unbindW Hrun. apply lift_ok in E0 as [Hname ->].
  unbindW Hrun. apply lift_ok in E0 as [Hrisk ->].
  unbindW Hrun. apply lift_ok in E0 as [Hhazard ->].
  unfold mbindW, lift, now, ret in Hrun. simpl in Hrun.
  injection Hrun as <- _.
  exists insights, w0. do 4 eexists.
  split; [reflexivity |]. split; [exact Hid |]. split; [exact Hname |].
  split; [exact Hrisk |]. split; [exact Hhazard |]. reflexivity.
Qed.

(** The priority and the metadata are always assigned. *)
Lemma priority_and_metadata_present (E : Env) (asteroid : pyval) (w w' : World)
  (insights : list (string * pyval)) :
  _calculate_insights E asteroid w = (Ok (PDict insights), w') ->
  exists priority metadata,
    dict_lookup "is_high_priority" insights = Some (PBool priority) /\
    dict_lookup "processing_metadata" insights = Some (PDict metadata).
Proof.
  intros Hrun.
  apply calculate_insights_inv in Hrun
    as (i1 & od & i2 & i3 & i4 & i5 & i6 & w6 & i7
        & _ & _ & _ & _ & _ & _ & _ & H8 & _ & Hv).
  injection Hv as ->.
  apply priority_step_inv in H8 as (q & threat & _ & ->).
  do 2 eexists. rewrite !dict_lookup_set. simpl. split; reflexivity.
Qed.

End MoreRows.

(** As [unbindW], naming the equation of the step. *)
Ltac stepW H Hstep :=
  match type of H with
  | mbindW ?m _ ?w = (Ok _, _) =>
      unfold mbindW at 1 in H;
      destruct (m w) as [[? | ?] ?] eqn:Hstep; [| discriminate H]
  end.

Section MoreColumns.

Import utils processor storage spec notions.

Local Open Scope Q_scope.

Context `{Builtins}.

(** X9.  The four JSON detail columns of an insight row (orbital, size,
    velocity and distance insights) are read from keys that
    [_calculate_insights] never assigns: every row holds the empty
    object there, also for a record whose enrichment computed orbital
    insights, while the metadata column holds a dict and the priority
    column a bool. *)
Theorem insight_detail_columns_are_empty (E : Env) (asteroid : pyval) (row : Row) :
  row_of (insight_values E) asteroid row ->
  dict_lookup "orbital_insights" row = Some (SqlJson (PDict [])) /\
  dict_lookup "size_insights" row = Some (SqlJson (PDict [])) /\
  dict_lookup "velocity_insights" row = Some (SqlJson (PDict [])) /\
  dict_lookup "distance_insights" row = Some (SqlJson (PDict [])) /\
  (exists metadata,
     dict_lookup "processing_metadata" row = Some (SqlJson (PDict metadata))) /\
  (exists priority,
     dict_lookup "is_high_priority" row = Some (SqlParam (PBool priority))).
Proof.
  intros (w & w' & Hrun).
  apply insight_values_inv in Hrun
    as (insights & wi & id & name & risk & hazard & Hins & _ & _ & _ & _ & ->).
  pose proof (calculate_insights_keys E asteroid w wi insights) as Habsent.
  destruct (priority_and_metadata_present E asteroid w wi insights Hins)
    as (priority & metadata & Hp & Hm).
  simpl.
  rewrite (Habsent "orbital_insights" Hins eq_refl).
  rewrite (Habsent "size_insights" Hins eq_refl).
  rewrite (Habsent "velocity_insights" Hins eq_refl).
  rewrite (Habsent "distance_insights" Hins eq_refl).
  rewrite Hp, Hm. repeat split; eauto.
Qed.

Lemma bind_columns_lookup (cols : list (string * pyval * string)) (c : string) :
  forall row,
    bind_columns cols = Ok row ->
    dict_lookup c row =
    match find (fun '(c', _, _) => String.eqb c c') cols with
    | Some (_, src, key) =>
        match py_get src key PNone with
        | Ok v => Some (SqlParam v)
        | Raise _ => None
        end
    | None => None
    end.
Proof.
  induction cols as [| [[c' src] key] rest IH]; intros row Hrow; simpl in Hrow.
  - injection Hrow as <-. reflexivity.
  - destruct (py_get src key PNone) as [v |] eqn:Hv; cbn [bind] in Hrow;
      [| discriminate Hrow].
    destruct (bind_columns rest) as [r |] eqn:Hrest; cbn [bind] in Hrow;
      [| discriminate Hrow].
    injection Hrow as <-. simpl.
    destruct (String.eqb c c'); [rewrite Hv; reflexivity |].
    apply IH. reflexivity.
Qed.

Lemma dict_lookup_app {V : Type} (k : string) (d d' : list (string * V)) :
  dict_lookup k (d ++ d')%list =
  match dict_lookup k d with
  | Some v => Some v
  | None => dict_lookup k d'
  end.
Proof.
  induction d as [| [k' v'] d IH]; simpl; [reflexivity |].
  destruct (String.eqb k k'); [reflexivity | exact IH].
Qed.

(** X10.  [store_raw_data_sql] reads the orbital elements from
    [orbital_data['orbit']], [_calculate_insights] from [orbital_data]
    itself.  For a record that nests them under 'orbit' the raw row
    holds eccentricity and inclination, and the insight row holds NULL
    for orbit type and inclination type. *)
Theorem nested_orbit_is_stored_but_not_classified (E : Env)
  (d od orbit : list (string * pyval)) :
  dict_lookup "orbital_data" d = Some (PDict od) ->
  dict_lookup "orbit" od = Some (PDict orbit) ->
  dict_lookup "eccentricity" od = None ->
  dict_lookup "inclination" od = None ->
  (forall row,
     row_of (raw_values E) (PDict d) row ->
     dict_lookup "eccentricity" row = Some (SqlParam (get_or_none "eccentricity" orbit)) /\
     dict_lookup "inclination" row = Some (SqlParam (get_or_none "inclination" orbit))) /\
  (forall row,
     row_of (insight_values E) (PDict d) row ->
     dict_lookup "orbit_type" row = Some (SqlParam PNone) /\
     dict_lookup "inclination_type" row = Some (SqlParam PNone)).
Proof.
  intros Hod Horbit Hecc Hincl. split.
  - intros row (w & w' & Hrun). unfold raw_values in Hrun.
    stepW Hrun Hcad. stepW Hrun Hfirst. stepW Hrun Hget.
    apply lift_ok in Hget as [Hget _].
    simpl in Hget. rewrite Hod in Hget. injection Hget as <-.
    stepW Hrun Hdiameter. stepW Hrun Hkm. stepW Hrun Hvelocity. stepW Hrun Hdistance.
    stepW Hrun Hget. apply lift_ok in Hget as [Hget _].
    simpl in Hget. rewrite Horbit in Hget. injection Hget as <-.
    stepW Hrun Hcols. apply lift_ok in Hcols as [Hcols _].
    unfold mbindW, now, ret in Hrun. injection Hrun as <- _.
    rewrite !dict_lookup_app.
    rewrite (bind_columns_lookup _ "eccentricity" _ Hcols).
    rewrite (bind_columns_lookup _ "inclination" _ Hcols).
    split; reflexivity.
  - intros row (w & w' & Hrun).
    apply insight_values_inv in Hrun
      as (insights & wi & id & name & risk & hazard & Hins & _ & _ & _ & _ & ->).
    apply calculate_insights_inv in Hins
      as (i1 & od' & i2 & i3 & i4 & i5 & i6 & w6 & i7
          & H1 & H2 & H3 & H4 & H5 & H6 & H7 & H8 & _ & Hv).
    injection Hv as ->.
    simpl in H2. rewrite Hod in H2. injection H2 as <-.
    apply size_step_inv in H1 as (size & _ & ->).
    apply priority_step_inv in H8 as (q & threat & _ & ->).
    unfold orbit_type_step in H3. simpl in H3. unfold dict_mem in H3.
    rewrite Hecc in H3. injection H3 as <-.
    unfold inclination_type_step in H4. simpl in H4. unfold dict_mem in H4.
    rewrite Hincl in H4. injection H4 as <-.
    simpl. unfold get_or_none. rewrite !dict_lookup_set. simpl.
    rewrite (days_step_frame _ _ _ _ _ _ "orbit_type" H7 eq_refl).
    rewrite (distance_step_frame _ _ _ "orbit_type" H6 eq_refl).
    rewrite (velocity_step_frame _ _ _ "orbit_type" H5 eq_refl).
    rewrite (days_step_frame _ _ _ _ _ _ "inclination_type" H7 eq_refl).
    rewrite (distance_step_frame _ _ _ "inclination_type" H6 eq_refl).
    rewrite (velocity_step_frame _ _ _ "inclination_type" H5 eq_refl).
    simpl. split; reflexivity.
Qed.

Lemma risk_step_frame (asteroid : pyval) (enriched enriched' : list (string * pyval))
  (k : string) :
  risk_step asteroid enriched = Ok enriched' ->
  String.eqb k "risk_score" = false ->
  String.eqb k "hazard_level" = false ->
  dict_lookup k enriched' = dict_lookup k enriched.
Proof.
  intros Hstep Hr Hh. unfold risk_step in Hstep. unbind; [| reflexivity].
  rewrite !dict_lookup_set_ne by assumption. reflexivity.
Qed.

Lemma orbital_step_frame (asteroid : pyval) (enriched enriched' : list (string * pyval))
  (k : string) :
  orbital_step asteroid enriched = Ok enriched' ->
  String.eqb k "orbital_insights" = false ->
  dict_lookup k enriched' = dict_lookup k enriched.
Proof.
  intros Hstep Ho. unfold orbital_step in Hstep. unbind; [| reflexivity].
  rewrite !dict_lookup_set_ne by assumption. reflexivity.
Qed.

Lemma dict_set_keeps {V : Type} (k k' : string) (v : V) (d : list (string * V)) :
  dict_lookup k d <> None -> dict_lookup k (dict_set k' v d) <> None.
Proof.
  intros Hpresent. rewrite dict_lookup_set.
  destruct (String.eqb k k'); [discriminate | exact Hpresent].
Qed.

Lemma risk_step_keeps (asteroid : pyval) (enriched enriched' : list (string * pyval))
  (k : string) :
  risk_step asteroid enriched = Ok enriched' ->
  dict_lookup k enriched <> None -> dict_lookup k enriched' <> None.
Proof.
  intros Hstep Hpresent. unfold risk_step in Hstep. unbind; [| exact Hpresent].
  do 2 apply dict_set_keeps. exact Hpresent.
Qed.

Lemma orbital_step_keeps (asteroid : pyval) (enriched enriched' : list (string * pyval))
  (k : string) :
  orbital_step asteroid enriched = Ok enriched' ->
  dict_lookup k enriched <> None -> dict_lookup k enriched' <> None.
Proof.
  intros Hstep Hpresent. unfold orbital_step in Hstep. unbind; [| exact Hpresent].
  apply dict_set_keeps. exact Hpresent.
Qed.

Lemma not_in_eqb (k : string) (keys : list string) :
  ~ In k keys -> forall key, In key keys -> String.eqb k key = false.
Proof.
  intros Hout key Hin. apply String.eqb_neq. intros ->. contradiction.
Qed.

(** X11.  Enrichment only adds: the enriched record is a dict that
    keeps every field of the record outside the five keys enrichment
    assigns, carries the data source and the time of the clock reading
    as its processed date, and costs exactly one reading of the clock. *)
Theorem enrichment_only_adds (E : Env) (d : list (string * pyval)) (date : string)
  (w w' : World) (v : pyval) :
  _enrich_asteroid_data E (PDict d) date w = (Ok v, w') ->
  exists enriched,
    v = PDict enriched /\
    (forall k, ~ In k enrichment_keys -> dict_lookup k enriched = dict_lookup k d) /\
    (forall k, dict_lookup k d <> None -> dict_lookup k enriched <> None) /\
    dict_lookup "data_source" enriched = Some (PStr "NASA NEO API") /\
    dict_lookup "processed_date" enriched
    = Some (PStr (isoformat (clock E (now_calls w)))) /\
    w' = tick w.
Proof.
  intros Hrun. unfold _enrich_asteroid_data in Hrun.
  unfold mbindW at 1 in Hrun. unfold now at 1 in Hrun.
  unbindW Hrun. apply lift_ok in E0 as [Hrisk ->].
  unbindW Hrun. apply lift_ok in E0 as [Horbital ->].
  unfold ret in Hrun. injection Hrun as <- <-.
  exists r0. split; [reflexivity |].
  assert (Hframe : forall k,
             String.eqb k "risk_score" = false ->
             String.eqb k "hazard_level" = false ->
             String.eqb k "orbital_insights" = false ->
             dict_lookup k r0 =
             dict_lookup k (dict_set "data_source" (PStr "NASA NEO API")
                              (dict_set "processed_date"
                                 (PStr (isoformat (clock E (now_calls w)))) d))).
  { intros k Hr Hh Ho.
    rewrite (orbital_step_frame _ _ _ k Horbital Ho).
    apply (risk_step_frame _ _ _ k Hrisk Hr Hh). }
  split; [| split; [| split; [| split; [| reflexivity]]]].
  - intros k Hout. pose proof (not_in_eqb k enrichment_keys Hout) as Hne.
    rewrite Hframe by (apply Hne; simpl; auto 6).
    rewrite !dict_lookup_set_ne by (apply Hne; simpl; auto 6). reflexivity.
  - intros k Hpresent.
    apply (orbital_step_keeps _ _ _ k Horbital).
    apply (risk_step_keeps _ _ _ k Hrisk).
    do 2 apply dict_set_keeps. exact Hpresent.
  - rewrite Hframe by reflexivity. rewrite dict_lookup_set. reflexivity.
  - rewrite Hframe by reflexivity. rewrite !dict_lookup_set. reflexivity.
Qed.

End MoreColumns.

(** ** The cycle as a whole *)

Section MoreCycle.

Import utils processor storage spec notions.

Context `{Builtins}.

Lemma retry_fetch_calls (E : Env) (days : Z) (attempts : nat) :
  forall w,
    match retry attempts (fetch_once E days) w with
    | (Ok _, w') =>
        exists n, (1 <= n <= attempts)%nat /\ feed_calls w' = (feed_calls w + n)%nat
    | (Raise e, w') =>
        e = RetryError /\ feed_calls w' = (feed_calls w + attempts)%nat
    end.
Proof.
  induction attempts as [| k IH]; intros w; simpl.
  - split; [reflexivity | lia].
  - destruct (fetch_once_spec E days w) as [Hcount _].
    destruct (fetch_once E days w) as [[batch | e] w1]; simpl in *.
    + exists 1%nat. split; lia.
    + specialize (IH w1).
      destruct (retry k (fetch_once E days) w1) as [[batch | e'] w2].
      * destruct IH as (n & Hn & Hcalls). exists (S n). split; lia.
      * destruct IH as [-> Hcalls]. split; [reflexivity | lia].
Qed.

(** X12.  [fetch_asteroid_data] asks the feed at most three times.  When
    it raises, it has asked exactly three times and what the caller
    sees is RetryError, whatever the attempts raised; when it returns,
    it has asked between one and three times.  Either way no SQL is
    attempted and no blob is written. *)
Theorem fetch_gives_up_after_three (E : Env) (days : Z) (w : World) :
  match fetch_asteroid_data E days w with
  | (Ok _, w') =>
      exists n, (1 <= n <= 3)%nat /\ feed_calls w' = (feed_calls w + n)%nat
  | (Raise e, w') =>
      e = RetryError /\ feed_calls w' = (feed_calls w + 3)%nat
  end /\
  sql_untouched w (snd (fetch_asteroid_data E days w)) /\
  blobs_kept w (snd (fetch_asteroid_data E days w)).
Proof.
  split; [apply (retry_fetch_calls E days 3 w) |].
  split; [apply fetch_sql_untouched |].
  apply preserves_fetch with (allowed := any_event); unfold blobs_kept;
    first [intros; congruence | intros; reflexivity | intros; exact I].
Qed.

Lemma enrich_dates_nothing (E : Env) (neo_data : list (string * list pyval))
  (w : World) :
  feed_records neo_data = [] -> enrich_dates E neo_data w = (Ok [], w).
Proof.
  induction neo_data as [| [date asteroids] rest IH]; intros Hnone;
    [reflexivity |].
  unfold feed_records in Hnone. simpl in Hnone.
  apply app_eq_nil in Hnone as [-> Hrest].
  simpl. unfold mbindW, ret. simpl. rewrite (IH Hrest). reflexivity.
Qed.

(** X13.  A feed that answers with no record at all ends the cycle at
    once: [process_data] returns after that one request, and the only
    trace it leaves is the request.  The clock has been read once, by
    the client for the end of its window, and not again. *)
Theorem empty_feed_ends_cycle (E : Env) (mode : string) (w : World)
  (neo_data : list (string * list pyval)) :
  feed E (days_of_mode mode) (feed_calls w) = Ok neo_data ->
  feed_records neo_data = [] ->
  exists w',
    process_data E mode w = (Ok tt, w') /\
    trace w' = (trace w ++ [EvFeed (days_of_mode mode)])%list /\
    feed_calls w' = S (feed_calls w) /\
    now_calls w' = S (now_calls w) /\
    blobs_kept w w' /\
    sql_untouched w w'.
Proof.
  intros Hfeed Hnone.
  assert (Hfetch : fetch_asteroid_data E (days_of_mode mode) w
                   = (Ok [],
                      count_feed (tick (log_event (EvFeed (days_of_mode mode)) w)))).
  { unfold fetch_asteroid_data. simpl. unfold fetch_once, mbindW, emit, now. simpl.
    rewrite Hfeed. rewrite (enrich_dates_nothing E neo_data _ Hnone). reflexivity. }
  exists (count_feed (tick (log_event (EvFeed (days_of_mode mode)) w))).
  split.
  { unfold process_data, mbindW. rewrite Hfetch. reflexivity. }
  repeat split; try reflexivity.
  exists [EvFeed (days_of_mode mode)]. split; reflexivity.
Qed.

Lemma tables_grow_refl (w : World) : tables_grow w w.
Proof. split; reflexivity. Qed.

Lemma tables_grow_trans (a b c : World) :
  tables_grow a b -> tables_grow b c -> tables_grow a c.
Proof. intros [H1 H2] [H3 H4]. split; etransitivity; eassumption. Qed.

Lemma tables_kept_grow (w w' : World) : tables_kept w w' -> tables_grow w w'.
Proof. intros [Hraw Hins]. split; [rewrite Hraw | rewrite Hins]; reflexivity. Qed.

Lemma store_raw_data_sql_grows (E : Env) (batch : list pyval) (w : World) :
  tables_grow w (snd (store_raw_data_sql E batch w)) /\
  processed_asteroid_insights (snd (store_raw_data_sql E batch w))
  = processed_asteroid_insights w.
Proof.
  pose proof (store_raw_data_sql_cases E batch w) as Hc.
  destruct (store_raw_data_sql E batch w) as [[[] | e] w']; simpl.
  - destruct Hc as (rows & Hraw & _ & Hins). split; [| exact Hins].
    split; [rewrite Hraw; apply prefix_app_r; reflexivity | rewrite Hins; reflexivity].
  - split; [apply tables_kept_grow; exact Hc | apply Hc].
Qed.

Lemma store_processed_insights_sql_grows (E : Env) (batch : list pyval) (w : World) :
  tables_grow w (snd (store_processed_insights_sql E batch w)).
Proof.
  pose proof (store_processed_insights_sql_cases E batch w) as Hc.
  destruct (store_processed_insights_sql E batch w) as [[[] | e] w']; simpl.
  - destruct Hc as (rows & Hins & _ & Hraw).
    split; [rewrite Hraw; reflexivity | rewrite Hins; apply prefix_app_r; reflexivity].
  - apply tables_kept_grow. exact Hc.
Qed.

Lemma process_data_grows (E : Env) (mode : string) (w : World) :
  tables_grow w (snd (process_data E mode w)) /\
  (forall e w',
     process_data E mode w = (Raise e, w') ->
     processed_asteroid_insights w' = processed_asteroid_insights w).
Proof.
  unfold process_data, mbindW.
  pose proof (tables_kept_fetch E (days_of_mode mode) w) as Hfetch.
  destruct (fetch_asteroid_data E (days_of_mode mode) w) as [[batch | e0] w0];
    simpl in Hfetch.
  2:{ split; [apply tables_kept_grow; exact Hfetch |].
      intros e w' Heq. injection Heq as _ <-. apply Hfetch. }
  destruct batch as [| a rest].
  { split; [apply tables_kept_grow; exact Hfetch |]. intros e w' Heq. discriminate Heq. }
  set (batch := a :: rest). unfold store_batch, mbindW.
  pose proof (tables_kept_blob E batch w0) as Hblob.
  destruct (store_raw_data_blob E batch w0) as [[[] | e1] w1]; simpl in Hblob.
  2:{ assert (Hkept : tables_kept w w1) by (eapply tables_kept_trans; eassumption).
      split; [apply tables_kept_grow; exact Hkept |].
      intros e w' Heq. injection Heq as _ <-. apply Hkept. }
  assert (Hkept : tables_kept w w1) by (eapply tables_kept_trans; eassumption).
  pose proof (store_raw_data_sql_grows E batch w1) as [Hraw Hraw_ins].
  destruct (store_raw_data_sql E batch w1) as [[[] | e2] w2]; simpl in Hraw, Hraw_ins.
  2:{ split.
      - eapply tables_grow_trans; [apply tables_kept_grow; exact Hkept | exact Hraw].
      - intros e w' Heq. injection Heq as _ <-. rewrite Hraw_ins. apply Hkept. }
  pose proof (store_processed_insights_sql_grows E batch w2) as Hins.
  pose proof (store_processed_insights_sql_cases E batch w2) as Hcases.
  destruct (store_processed_insights_sql E batch w2) as [[[] | e3] w3];
    simpl in Hins.
  2:{ split.
      - eapply tables_grow_trans; [apply tables_kept_grow; exact Hkept |].
        eapply tables_grow_trans; eassumption.
      - intros e w' Heq. injection Heq as _ <-.
        destruct Hcases as [_ ->]. rewrite Hraw_ins. apply Hkept. }
  assert (Hall : tables_grow w w3).
  { eapply tables_grow_trans; [apply tables_kept_grow; exact Hkept |].
    eapply tables_grow_trans; eassumption. }
  destruct (function_url E) as [url |]; [| split; [exact Hall | discriminate]].
  destruct (negb (String.eqb url "")); split;
    first [exact Hall | discriminate].
Qed.

(** X14.  Whatever a cycle does and however it ends, it only appends:
    the rows both tables held before [process_data] are still there, in
    their order, at the head of the tables.  A cycle that raises leaves
    no insight row behind, though it may have committed raw rows. *)
Theorem cycle_only_appends (E : Env) (mode : string) (w : World) :
  tables_grow w (snd (process_data E mode w)) /\
  (forall e w',
     process_data E mode w = (Raise e, w') ->
     processed_asteroid_insights w' = processed_asteroid_insights w).
Proof. exact (process_data_grows E mode w). Qed.

Lemma forall2_map_eq {A B C D : Type} (P : A -> B -> Prop) (Q : A -> C -> Prop)
  (f : B -> D) (g : C -> D) (l : list A) :
  (forall a b c, P a b -> Q a c -> f b = g c) ->
  forall (rows : list B) (rows' : list C),
    Forall2 P l rows -> Forall2 Q l rows' -> map f rows = map g rows'.
Proof.
  intros Hsame. induction l as [| a l IH]; intros rows rows' HP HQ;
    inversion HP; inversion HQ; subst; simpl; [reflexivity |].
  f_equal; [eapply Hsame; eassumption | apply IH; assumption].
Qed.

(** The key and the name of a raw row are those of the record. *)
Lemma raw_values_key (E : Env) (asteroid : pyval) (row : Row) :
  row_of (raw_values E) asteroid row ->
  exists id name,
    py_get asteroid "id" PNone = Ok id /\
    py_get asteroid "name" PNone = Ok name /\
    dict_lookup "id" row = Some (SqlParam id) /\
    dict_lookup "name" row = Some (SqlParam name).
Proof.
  intros (w & w' & Hrun). unfold raw_values in Hrun.
  stepW Hrun Hcad. stepW Hrun Hfirst. stepW Hrun Hod.
  stepW Hrun Hdiameter. stepW Hrun Hkm. stepW Hrun Hvelocity. stepW Hrun Hdistance.
  stepW Hrun Horbit. stepW Hrun Hcols. apply lift_ok in Hcols as [Hcols _].
  unfold mbindW, now, ret in Hrun. injection Hrun as <- _.
  rewrite !dict_lookup_app.
  rewrite (bind_columns_lookup _ "id" _ Hcols).
  rewrite (bind_columns_lookup _ "name" _ Hcols).
  cbn [find String.eqb Ascii.eqb Bool.eqb].
  apply lift_ok in Hcad as [Hcad _].
  destruct asteroid; try discriminate Hcad.
  simpl. do 2 eexists. repeat split; reflexivity.
Qed.

Lemma insight_values_key (E : Env) (asteroid : pyval) (row : Row) :
  row_of (insight_values E) asteroid row ->
  exists id name,
    py_get asteroid "id" PNone = Ok id /\
    py_get asteroid "name" PNone = Ok name /\
    dict_lookup "raw_asteroid_id" row = Some (SqlParam id) /\
    dict_lookup "name" row = Some (SqlParam name).
Proof.
  intros (w & w' & Hrun).
  apply insight_values_inv in Hrun
    as (insights & wi & id & name & risk & hazard & _ & Hid & Hname & _ & _ & ->).
  exists id, name. repeat split; assumption || reflexivity.
Qed.

(** X15.  The rows a completed cycle adds to the two tables go in
    pairs: the i-th new insight row refers, by [raw_asteroid_id], to
    the id of the i-th new raw row, and carries the same name. *)
Theorem insight_rows_follow_raw_rows (E : Env) (batch : list pyval) (w w' : World) :
  store_batch E batch w = (Ok tt, w') ->
  exists raw_rows insight_rows,
    raw_asteroid_data w' = (raw_asteroid_data w ++ raw_rows)%list /\
    processed_asteroid_insights w'
    = (processed_asteroid_insights w ++ insight_rows)%list /\
    map (dict_lookup "raw_asteroid_id") insight_rows
    = map (dict_lookup "id") raw_rows /\
    map (dict_lookup "name") insight_rows = map (dict_lookup "name") raw_rows /\
    Forall (fun key => exists id, key = Some (SqlParam id))
      (map (dict_lookup "id") raw_rows).
Proof.
  intros Hrun. unfold store_batch in Hrun.
  stepW Hrun Hblob. stepW Hrun Hraw. stepW Hrun Hins.
  pose proof (tables_kept_blob E batch w) as [Hb1 Hb2]. rewrite Hblob in Hb1, Hb2.
  pose proof (store_raw_data_sql_cases E batch w0) as Hr. rewrite Hraw in Hr.
  destruct Hr as (raw_rows & Hr1 & Hr2 & Hr3).
  pose proof (store_processed_insights_sql_cases E batch w1) as Hi.
  rewrite Hins in Hi. destruct Hi as (insight_rows & Hi1 & Hi2 & Hi3).
  simpl in *.
  assert (Htables : raw_asteroid_data w' = raw_asteroid_data w2 /\
                    processed_asteroid_insights w' = processed_asteroid_insights w2).
  { destruct (function_url E) as [url |]; [| injection Hrun as <-; split; reflexivity].
    destruct (negb (String.eqb url "")); injection Hrun as <-; split; reflexivity. }
  destruct Htables as [-> ->].
  exists raw_rows, insight_rows.
  split; [congruence |]. split; [congruence |]. split; [| split].
  - apply (forall2_map_eq (row_of (insight_values E)) (row_of (raw_values E))
             (dict_lookup "raw_asteroid_id") (dict_lookup "id") batch);
      [| assumption | assumption].
    intros x b c Hb Hc.
    destruct (insight_values_key E x b Hb) as (id & name & Hid & _ & -> & _).
    destruct (raw_values_key E x c Hc) as (id' & name' & Hid' & _ & -> & _).
    congruence.
  - apply (forall2_map_eq (row_of (insight_values E)) (row_of (raw_values E))
             (dict_lookup "name") (dict_lookup "name") batch);
      [| assumption | assumption].
    intros x b c Hb Hc.
    destruct (insight_values_key E x b Hb) as (id & name & _ & Hname & _ & ->).
    destruct (raw_values_key E x c Hc) as (id' & name' & _ & Hname' & _ & ->).
    congruence.
  - clear - Hr2. induction Hr2 as [| x r l l' Har _ IH]; simpl; constructor;
      [| exact IH].
    destruct (raw_values_key E x r Har) as (id & _ & _ & _ & -> & _). eauto.
Qed.

Lemma dict_set_length {V : Type} (k : string) (v : V) (d : list (string * V)) :
  length (dict_set k v d) = if dict_mem k d then length d else S (length d).
Proof.
  unfold dict_mem. induction d as [| [k' v'] d IH]; simpl; [reflexivity |].
  destruct (String.eqb k k'); simpl; [reflexivity |].
  rewrite IH. destruct (dict_lookup k d); reflexivity.
Qed.

(** X16.  What [store_raw_data_blob] uploads can be read back: after a
    successful call the blob named after the clock reading holds the
    batch, every other blob is as before, and a blob that already had
    that name (a call within the same second) is replaced, not joined.
    When the upload fails the call raises and no blob changes.  Either
    way the call reads the clock once and touches no table. *)
Theorem blob_upload_round_trip (E : Env) (batch : list pyval) (w : World) :
  let filename :=
    ("asteroid_data_" ++ strftime_stamp (clock E (now_calls w)) ++ ".json")%string in
  match store_raw_data_blob E batch w with
  | (Ok _, w') =>
      dict_lookup filename (blobs w') = Some batch /\
      (forall other, String.eqb other filename = false ->
                     dict_lookup other (blobs w') = dict_lookup other (blobs w)) /\
      length (blobs w')
      = (if dict_mem filename (blobs w) then length (blobs w) else S (length (blobs w)))
  | (Raise e, w') => blobs_kept w w'
  end /\
  now_calls (snd (store_raw_data_blob E batch w)) = S (now_calls w) /\
  sql_untouched w (snd (store_raw_data_blob E batch w)).
Proof.
  intros filename. split; [| split].
  - unfold store_raw_data_blob, mbindW, now, emit. simpl. fold filename.
    destruct (blob_accepts E filename batch); simpl.
    + split; [| split].
      * rewrite dict_lookup_set, String.eqb_refl. reflexivity.
      * intros other Hne. apply dict_lookup_set_ne. exact Hne.
      * apply dict_set_length.
    + reflexivity.
  - unfold store_raw_data_blob, mbindW, now, emit. simpl.
    destruct (blob_accepts E _ batch); reflexivity.
  - apply blob_sql_untouched.
Qed.

End MoreCycle.

(** ** Retrying and the feed client *)

Section MoreRetrying.

Import retrying.

Context {St A : Type}.
Variable func : St -> result A * St.
Variable sleep : St -> St.

Lemma after_failures_shift (k : nat) (s : St) :
  after_failures func sleep (S k) s
  = after_failures func sleep k (sleep (snd (func s))).
Proof.
  induction k as [| k IH]; [reflexivity |].
  change (after_failures func sleep (S (S k)) s)
    with (sleep (snd (func (after_failures func sleep (S k) s)))).
  rewrite IH. reflexivity.
Qed.

Lemma attempts_first_success (max_retries : Z) (k : nat) :
  forall (remaining : nat) (attempt : Z) (last : option exn) (s s' : St) (a : A),
    (attempt + Z.of_nat remaining = max_retries + 1)%Z ->
    (k < remaining)%nat ->
    (forall j, (j < k)%nat -> fails_at func (after_failures func sleep j s)) ->
    func (after_failures func sleep k s) = (Ok a, s') ->
    attempts func sleep max_retries remaining attempt last s = (Ok a, s').
Proof.
  induction k as [| k IH]; intros remaining attempt last s s' a Hsum Hlt Hfail Hok;
    (destruct remaining as [| n]; [lia |]); simpl.
  - simpl in Hok. rewrite Hok. reflexivity.
  - destruct (Hfail 0%nat ltac:(lia)) as [e He]. simpl in He.
    destruct (func s) as [[x | e'] s1] eqn:Hcall; simpl in He; [discriminate He |].
    assert (Hsleep : (attempt <? max_retries)%Z = true) by (apply Z.ltb_lt; lia).
    rewrite Hsleep.
    apply (IH n (attempt + 1)%Z (Some e') (sleep s1) s' a); [lia | lia | |].
    + intros j Hj. specialize (Hfail (S j) ltac:(lia)).
      rewrite after_failures_shift, Hcall in Hfail. exact Hfail.
    + rewrite after_failures_shift, Hcall in Hok. exact Hok.
Qed.

Lemma attempts_all_fail (max_retries : Z) (n : nat) :
  forall (attempt : Z) (last : option exn) (s : St),
    (attempt + Z.of_nat (S n) = max_retries + 1)%Z ->
    (forall j, (j <= n)%nat -> fails_at func (after_failures func sleep j s)) ->
    attempts func sleep max_retries (S n) attempt last s
    = func (after_failures func sleep n s).
Proof.
  induction n as [| n IH]; intros attempt last s Hsum Hfail.
  - destruct (Hfail 0%nat ltac:(lia)) as [e He]. simpl in *.
    destruct (func s) as [[x | e'] s1]; simpl in He; [discriminate He |].
    assert (Hlast : (attempt <? max_retries)%Z = false) by (apply Z.ltb_ge; lia).
    rewrite Hlast. reflexivity.
  - destruct (Hfail 0%nat ltac:(lia)) as [e He]. simpl in He.
    change (attempts func sleep max_retries (S (S n)) attempt last s)
      with (match func s with
            | (Ok a, s') => (Ok a, s')
            | (Raise e, s') =>
                attempts func sleep max_retries (S n) (attempt + 1)%Z (Some e)
                  (if (attempt <? max_retries)%Z then sleep s' else s')
            end).
    destruct (func s) as [[x | e'] s1] eqn:Hcall; simpl in He; [discriminate He |].
    assert (Hsleep : (attempt <? max_retries)%Z = true) by (apply Z.ltb_lt; lia).
    rewrite Hsleep. rewrite after_failures_shift, Hcall. simpl.
    apply (IH (attempt + 1)%Z (Some e') (sleep s1)); [lia |].
    intros j Hj. specialize (Hfail (S j) ltac:(lia)).
    rewrite after_failures_shift, Hcall in Hfail. exact Hfail.
Qed.

(** X17.  [retry_on_failure] runs the call at most [max_retries + 1]
    times.  The first run that returns ends the loop with its result;
    when every run raises, the outcome is that of the last run, its
    exception included, with a sleep after each run but the last.  With
    a negative [max_retries] the call is never run and the wrapper
    raises TypeError. *)
Theorem retry_on_failure_outcomes (max_retries : Z) (s : St) :
  (forall k a s',
     (Z.of_nat k <= max_retries)%Z ->
     (forall j, (j < k)%nat -> fails_at func (after_failures func sleep j s)) ->
     func (after_failures func sleep k s) = (Ok a, s') ->
     retry_on_failure func sleep max_retries s = (Ok a, s')) /\
  ((0 <= max_retries)%Z ->
   (forall j, (Z.of_nat j <= max_retries)%Z ->
              fails_at func (after_failures func sleep j s)) ->
   retry_on_failure func sleep max_retries s
   = func (after_failures func sleep (Z.to_nat max_retries) s)) /\
  ((max_retries < 0)%Z ->
   retry_on_failure func sleep max_retries s = (Raise TypeError, s)).
Proof.
  unfold retry_on_failure. split; [| split].
  - intros k a s' Hk Hfail Hok.
    apply attempts_first_success with (k := k); try assumption; lia.
  - intros Hpos Hfail.
    replace (Z.to_nat (max_retries + 1)) with (S (Z.to_nat max_retries)) by lia.
    apply attempts_all_fail; [lia |].
    intros j Hj. apply Hfail. lia.
  - intros Hneg. replace (Z.to_nat (max_retries + 1)) with 0%nat by lia.
    reflexivity.
Qed.

End MoreRetrying.

Section MoreClient.

Import processor storage spec notions nasa_api_client.

Variable strftime_date : Z -> string.

(** X18.  The client caps what it asks for.  Whatever number of days is
    asked, one request goes out, for the window that ends at the clock
    reading and spans at most seven days; so the 30 days of the
    manual-full mode are answered exactly like the 7 of auto.  A page
    size above 20 is browsed as 20. *)
Theorem client_caps_requests (E : Env) (C : Client) (w : World) :
  (forall days,
     (7 <= days)%Z ->
     get_near_earth_objects strftime_date E C days w
     = get_near_earth_objects strftime_date E C 7 w) /\
  (forall mode,
     mode <> "manual-incremental"%string ->
     get_near_earth_objects strftime_date E C (days_of_mode mode) w
     = get_near_earth_objects strftime_date E C (days_of_mode "auto") w) /\
  (forall days neo_data w',
     get_near_earth_objects strftime_date E C days w = (Ok neo_data, w') ->
     exists response,
       feed_request strftime_date C (Z.min days 7) (clock E (now_calls w)) (feed_calls w)
       = Ok response) /\
  (forall page size,
     (20 <= size)%Z ->
     get_asteroid_browse C page size w = get_asteroid_browse C page 20 w).
Proof.
  split; [| split; [| split]].
  - intros days Hdays. unfold get_near_earth_objects.
    destruct (Z.ltb_spec 7 days); [reflexivity |].
    replace days with 7%Z by lia. reflexivity.
  - intros mode Hmode. unfold days_of_mode.
    destruct (String.eqb mode "manual-full"); [reflexivity |].
    destruct (String.eqb_spec mode "manual-incremental"); [contradiction |].
    destruct (String.eqb mode "auto"); reflexivity.
  - intros days neo_data w' Hrun. unfold get_near_earth_objects in Hrun.
    unfold mbindW at 1 in Hrun. unfold now at 1 in Hrun.
    unfold mbindW at 1 in Hrun. unfold _make_request at 1 in Hrun.
    unfold feed_request.
    replace (Z.min days 7) with (if (7 <? days)%Z then 7%Z else days)
      by (destruct (Z.ltb_spec 7 days); lia).
    simpl in Hrun.
    destruct (http_get C _ _ _) as [response | e]; [eauto | discriminate Hrun].
  - intros page size Hsize. unfold get_asteroid_browse.
    replace (Z.min size 20) with 20%Z by lia. reflexivity.
Qed.




End MoreClient.

(** ** Formatting a record without approaches *)

Section MoreFormatting.

Import formatting notions.

Local Open Scope list_scope.

Context `{Builtins}.

Lemma h_get_field (h ext : heap) (la : loc) (rec : gmap string val) (k : string)
  (default : val) :
  h !! la = Some (ODict rec) ->
  h_get (h ++ ext) (VRef la) k default = Ok (field_or rec k default).
Proof.
  intros Hla. simpl. rewrite (lookup_app_l_Some _ _ _ _ Hla). reflexivity.
Qed.

Lemma h_get_field_here (h : heap) (la : loc) (rec : gmap string val) (k : string)
  (default : val) :
  h !! la = Some (ODict rec) ->
  h_get h (VRef la) k default = Ok (field_or rec k default).
Proof. intros Hla. simpl. rewrite Hla. reflexivity. Qed.

(** The record [format_asteroid_data] builds for a dict. *)
Lemma new_formatted_record (h : heap) (la : loc) (rec : gmap string val) :
  h !! la = Some (ODict rec) ->
  new_formatted (VRef la) h =
  Ok (field_or rec "close_approach_data" (VRef (S (length h))),
      (4 + length h)%nat,
      (h ++ [ODict ∅; OList []; ODict ∅; ODict ∅;
             ODict (list_to_map
               [("id", field_or rec "id" VNone);
                ("name", field_or rec "name" VNone);
                ("nasa_jpl_url", field_or rec "nasa_jpl_url" VNone);
                ("absolute_magnitude_h", field_or rec "absolute_magnitude_h" VNone);
                ("estimated_diameter",
                   field_or rec "estimated_diameter" (VRef (length h)));
                ("is_potentially_hazardous_asteroid",
                   field_or rec "is_potentially_hazardous_asteroid" (VBool false));
                ("close_approach_data",
                   field_or rec "close_approach_data" (VRef (S (length h))));
                ("orbital_data",
                   field_or rec "orbital_data" (VRef (2 + length h)%nat));
                ("is_sentry_object",
                   field_or rec "is_sentry_object" (VBool false));
                ("links", field_or rec "links" (VRef (3 + length h)%nat))])])%list).
Proof.
  intros Hla. unfold new_formatted, alloc.
  rewrite !(h_get_field_here h la rec _ _ Hla). cbn [bind].
  rewrite !length_app. simpl length.
  replace (length h + 1)%nat with (S (length h)) by lia.
  replace (S (length h) + 1)%nat with (2 + length h)%nat by lia.
  replace (2 + length h + 1)%nat with (3 + length h)%nat by lia.
  replace (3 + length h + 1)%nat with (4 + length h)%nat by lia.
  rewrite <- !app_assoc.
  rewrite !(h_get_field h _ la rec _ _ Hla). cbn [bind].
  rewrite <- !app_assoc. reflexivity.
Qed.

Lemma h_truthy_ext (h ext : heap) (v : val) :
  h_truthy h v = false -> h_truthy (h ++ ext) v = false.
Proof.
  destruct v as [| | | | | l]; simpl; try (intros Heq; exact Heq).
  destruct (h !! l) as [o |] eqn:Hl; [| discriminate].
  rewrite (lookup_app_l_Some _ _ _ _ Hl). intros Heq. exact Heq.
Qed.

(** X20.  On a record without approaches (no close_approach_data, or a
    falsy one) the normalizer only allocates: the heap afterwards is
    the heap before followed by five new objects, the last of which is
    the result.  The result has exactly the ten fields, each with the
    value of the record where the record has the field, and else None
    for the scalars, False for the two flags, and a new empty dict or
    list of its own for the containers. *)
Theorem formatting_without_approaches (h : heap) (la : loc) (rec : gmap string val) :
  h !! la = Some (ODict rec) ->
  (forall v, rec !! "close_approach_data" = Some v -> h_truthy h v = false) ->
  exists lf ext fields,
    format_asteroid_data (VRef la) h = (Ok (VRef lf), (h ++ ext)%list) /\
    length ext = 5%nat /\
    fresh_at h (h ++ ext) lf (ODict fields) /\
    (forall k, is_Some (fields !! k) <-> In k formatted_keys) /\
    (forall k v, In k formatted_keys -> rec !! k = Some v -> fields !! k = Some v) /\
    (forall k, In k ["id"; "name"; "nasa_jpl_url"; "absolute_magnitude_h"]%string ->
               rec !! k = None -> fields !! k = Some VNone) /\
    (forall k, In k ["is_potentially_hazardous_asteroid"; "is_sentry_object"]%string ->
               rec !! k = None -> fields !! k = Some (VBool false)) /\
    (forall k, In k ["estimated_diameter"; "orbital_data"; "links"]%string ->
               rec !! k = None ->
               exists l, fields !! k = Some (VRef l) /\
                         fresh_at h (h ++ ext) l (ODict ∅)) /\
    (rec !! "close_approach_data" = None ->
     exists l, fields !! "close_approach_data" = Some (VRef l) /\
               fresh_at h (h ++ ext) l (OList [])).
Proof.
  intros Hla Hfalsy.
  pose proof (new_formatted_record h la rec Hla) as Hnew.
  match type of Hnew with
  | _ = Ok (_, _, (_ ++ ?e)%list) => set (ext := e) in *
  end.
  match eval unfold ext in ext with
  | [_; _; _; _; ODict ?f] => set (fields := f) in *
  end.
  assert (Hlen : forall n, (n < 5)%nat -> (h ++ ext) !! (n + length h)%nat = ext !! n).
  { intros n Hn. rewrite lookup_app_r by lia. f_equal. lia. }
  assert (Hnone : forall n, h !! (n + length h)%nat = None).
  { intros n. apply lookup_ge_None. lia. }
  exists (4 + length h)%nat, ext, fields.
  split.
  { unfold format_asteroid_data. rewrite Hnew.
    assert (Htruthy : h_truthy (h ++ ext)
                        (field_or rec "close_approach_data" (VRef (S (length h))))
                      = false).
    { unfold field_or. destruct (rec !! "close_approach_data") as [v |] eqn:Hcad.
      - apply h_truthy_ext. apply Hfalsy. reflexivity.
      - simpl. change (S (length h)) with (1 + length h)%nat.
        rewrite (Hlen 1%nat) by lia. reflexivity. }
    rewrite Htruthy. reflexivity. }
  split; [reflexivity |].
  split; [split; [apply Hnone | rewrite (Hlen 4%nat) by lia; reflexivity] |].
  assert (Hfield : forall k, In k formatted_keys ->
            exists default, fields !! k = Some (field_or rec k default) /\
              (In k ["id"; "name"; "nasa_jpl_url"; "absolute_magnitude_h"]%string ->
               default = VNone) /\
              (In k ["is_potentially_hazardous_asteroid"; "is_sentry_object"]%string ->
               default = VBool false) /\
              (In k ["estimated_diameter"; "orbital_data"; "links"]%string ->
               exists l, default = VRef l /\ fresh_at h (h ++ ext) l (ODict ∅)) /\
              (k = "close_approach_data"%string ->
               exists l, default = VRef l /\ fresh_at h (h ++ ext) l (OList []))).
  { intros k Hk. simpl in Hk.
    repeat (destruct Hk as [<- | Hk]); try contradiction;
      (eexists; split; [reflexivity |]);
      (split; [| split; [| split]]);
      try (intros Hin; discriminate Hin);
      try (intros Hin; simpl in Hin;
           repeat (destruct Hin as [Hin | Hin]; try discriminate Hin);
           try contradiction; reflexivity).
    - intros _. exists (0 + length h)%nat. split; [reflexivity |].
      split; [apply Hnone | rewrite (Hlen 0%nat) by lia; reflexivity].
    - intros _. exists (1 + length h)%nat. split; [reflexivity |].
      split; [apply Hnone | rewrite (Hlen 1%nat) by lia; reflexivity].
    - intros _. exists (2 + length h)%nat. split; [reflexivity |].
      split; [apply Hnone | rewrite (Hlen 2%nat) by lia; reflexivity].
    - intros _. exists (3 + length h)%nat. split; [reflexivity |].
      split; [apply Hnone | rewrite (Hlen 3%nat) by lia; reflexivity]. }
  split.
  { intros k. split.
    - intros Hsome. destruct (in_dec string_dec k formatted_keys) as [Hin | Hout];
        [exact Hin | exfalso].
      assert (Hk : fields !! k = None).
      { apply not_elem_of_list_to_map_1. simpl. intros Hin. apply Hout.
        apply list_elem_of_In in Hin. exact Hin. }
      rewrite Hk in Hsome. destruct Hsome as [? Hsome]. discriminate Hsome.
    - intros Hin. destruct (Hfield k Hin) as (default & -> & _). eauto. }
  split.
  { intros k v Hin Hk. destruct (Hfield k Hin) as (default & -> & _).
    unfold field_or. rewrite Hk. reflexivity. }
  split.
  { intros k Hin Hk.
    assert (Hin' : In k formatted_keys) by (simpl in *; intuition).
    destruct (Hfield k Hin') as (default & -> & Hd & _).
    unfold field_or. rewrite Hk, (Hd Hin). reflexivity. }
  split.
  { intros k Hin Hk.
    assert (Hin' : In k formatted_keys) by (simpl in *; intuition).
    destruct (Hfield k Hin') as (default & -> & _ & Hd & _).
    unfold field_or. rewrite Hk, (Hd Hin). reflexivity. }
  split.
  { intros k Hin Hk.
    assert (Hin' : In k formatted_keys) by (simpl in *; intuition).
    destruct (Hfield k Hin') as (default & -> & _ & _ & Hd & _).
    destruct (Hd Hin) as (l & -> & Hfresh).
    exists l. unfold field_or. rewrite Hk. split; [reflexivity | exact Hfresh]. }
  intros Hk.
  assert (Hin' : In "close_approach_data"%string formatted_keys) by (simpl; auto 10).
  destruct (Hfield _ Hin') as (default & -> & _ & _ & _ & Hd).
  destruct (Hd eq_refl) as (l & -> & Hfresh).
  exists l. unfold field_or. rewrite Hk. split; [reflexivity | exact Hfresh].
Qed.

(** X21.  What the normalizer refuses.  An argument that is not a dict
    raises AttributeError before anything is built; a dict whose
    close_approach_data is a number other than zero, or True, raises
    TypeError once the new record has been built, the objects that
    existed staying as they were. *)
Theorem format_asteroid_data_rejects (h : heap) :
  (forall asteroid,
     (forall l rec, asteroid = VRef l -> h !! l <> Some (ODict rec)) ->
     format_asteroid_data asteroid h = (Raise AttributeError, h)) /\
  (forall la rec v,
     h !! la = Some (ODict rec) ->
     rec !! "close_approach_data" = Some v ->
     match v with
     | VBool b => b = true
     | VInt z => z <> 0%Z
     | VFloat q => Qeq_bool q 0 = false
     | _ => False
     end ->
     exists ext, format_asteroid_data (VRef la) h = (Raise TypeError, h ++ ext)).
Proof.
  split.
  - intros asteroid Hshape. unfold format_asteroid_data, new_formatted.
    assert (Hget : h_get h asteroid "id" VNone = Raise AttributeError).
    { destruct asteroid as [| | | | | l]; try reflexivity. simpl.
      destruct (h !! l) as [[rec | items] |] eqn:Hl; try reflexivity.
      exfalso. eapply Hshape; [reflexivity | exact Hl]. }
    rewrite Hget. reflexivity.
  - intros la rec v Hla Hcad Hv. eexists.
    unfold format_asteroid_data. rewrite (new_formatted_record h la rec Hla).
    unfold field_or. rewrite Hcad.
    destruct v as [| b | z | q | |]; try contradiction; simpl.
    + rewrite Hv. reflexivity.
    + apply Z.eqb_neq in Hv. rewrite Hv. reflexivity.
    + rewrite Hv. reflexivity.
Qed.

End MoreFormatting.

(** ** The HTTP trigger *)

Section MoreHandler.

Import processor storage spec notions function_app.

Context `{Builtins}.

Variable py_str : pyval -> string.

Lemma tables_grow_tick (w : World) : tables_grow w (tick w).
Proof. split; reflexivity. Qed.

(** The mode the handler runs the cycle in. *)
Lemma read_mode_cases (req : Request) :
  match read_mode req with
  | Ok mode =>
      (get_json req = Raise ValueError /\ mode = PStr "auto") \/
      (exists d, get_json req = Ok (PDict d) /\
                 mode = match dict_lookup "mode" d with
                        | Some v => v
                        | None => PStr "auto"
                        end)
  | Raise e =>
      e <> ValueError /\
      (get_json req = Raise e \/
       exists v, get_json req = Ok v /\ e = AttributeError /\ forall d, v <> PDict d)
  end.
Proof.
  unfold read_mode, try_except.
  destruct (get_json req) as [v | e]; cbn [bind].
  - destruct v; simpl;
      try (split; [discriminate | right; eexists; repeat split; discriminate]).
    right. eauto.
  - destruct e; simpl; try (split; [discriminate | left; reflexivity]).
    left. split; reflexivity.
Qed.

(** X22.  The HTTP trigger never raises and answers 200 or 500.  It
    answers 200 exactly when both connection strings are set, the
    processor could be built, the body is a JSON object or no JSON at
    all, and the cycle, run in the mode of the body ('auto' without
    one), returned.  Without the connection strings nothing is touched;
    in every case the tables have only grown. *)
Theorem handler_reports_the_cycle (E : Env) (req : Request) (w : World) :
  exists response w',
    process_asteroids py_str E req w = (Ok response, w') /\
    (status_code response = 200%Z \/ status_code response = 500%Z) /\
    (status_code response = 200%Z <->
     env_set (storage_connection_string req) = true /\
     env_set (sql_connection_string req) = true /\
     processor_built req = Ok tt /\
     exists mode,
       (get_json req = Raise ValueError /\ mode = PStr "auto" \/
        exists d, get_json req = Ok (PDict d) /\
                  mode = match dict_lookup "mode" d with
                         | Some v => v
                         | None => PStr "auto"
                         end) /\
       fst (process_data (handler_env E) (mode_name mode) w) = Ok tt) /\
    (env_set (storage_connection_string req) = false \/
     env_set (sql_connection_string req) = false -> w' = w) /\
    tables_grow w w'.
Proof.
  unfold process_asteroids, process_asteroids_body.
  destruct (env_set (storage_connection_string req)) eqn:Hstorage; simpl.
  2:{ do 2 eexists. split; [reflexivity |]. simpl.
      split; [right; reflexivity |]. split.
      - split; [discriminate | intros (Hs & _); discriminate Hs].
      - split; [reflexivity | apply tables_grow_refl]. }
  destruct (env_set (sql_connection_string req)) eqn:Hsql; simpl.
  2:{ do 2 eexists. split; [reflexivity |]. simpl.
      split; [right; reflexivity |]. split.
      - split; [discriminate | intros (_ & Hs & _); discriminate Hs].
      - split; [reflexivity | apply tables_grow_refl]. }
  unfold mbindW at 1. unfold lift at 1.
  destruct (processor_built req) as [[] | e] eqn:Hbuilt.
  2:{ do 2 eexists. split; [reflexivity |]. simpl.
      split; [right; reflexivity |]. split.
      - split; [discriminate | intros (_ & _ & Hb & _); discriminate Hb].
      - split; [intros [Hs | Hs]; discriminate Hs | apply tables_grow_tick]. }
  unfold mbindW at 1. unfold lift at 1.
  pose proof (read_mode_cases req) as Hmode.
  destruct (read_mode req) as [mode | e].
  2:{ do 2 eexists. split; [reflexivity |]. simpl.
      split; [right; reflexivity |]. split.
      - split; [discriminate |].
        intros (_ & _ & _ & mode & [[Hjson _] | (d & Hjson & _)] & _);
          destruct Hmode as [Hne [Hraise | (v & Hv & _ & Hshape)]];
          congruence.
      - split; [intros [Hs | Hs]; discriminate Hs | apply tables_grow_tick]. }
  unfold mbindW at 1.
  pose proof (process_data_grows (handler_env E) (mode_name mode) w) as [Hgrow _].
  assert (Hsame : forall mode',
             (get_json req = Raise ValueError /\ mode' = PStr "auto" \/
              exists d, get_json req = Ok (PDict d) /\
                        mode' = match dict_lookup "mode" d with
                                | Some v => v
                                | None => PStr "auto"
                                end) ->
             mode' = mode).
  { intros mode' [[Hjson ->] | (d & Hjson & ->)];
      destruct Hmode as [[Hjson' ->] | (d' & Hjson' & ->)]; try congruence.
    rewrite Hjson in Hjson'. injection Hjson' as <-. reflexivity. }
  destruct (process_data (handler_env E) (mode_name mode) w) as [[[] | e] w1]
    eqn:Hcycle; simpl in Hgrow.
  - do 2 eexists. split; [reflexivity |]. simpl.
    split; [left; reflexivity |]. split.
    + split; [| reflexivity]. intros _. repeat split. exists mode.
      split; [exact Hmode | rewrite Hcycle; reflexivity].
    + split; [intros [Hs | Hs]; discriminate Hs |].
      eapply tables_grow_trans; [exact Hgrow | apply tables_grow_tick].
  - do 2 eexists. split; [reflexivity |]. simpl.
    split; [right; reflexivity |]. split.
    + split; [discriminate |].
      intros (_ & _ & _ & mode' & Hmode' & Hrun).
      rewrite (Hsame mode' Hmode'), Hcycle in Hrun. discriminate Hrun.
    + split; [intros [Hs | Hs]; discriminate Hs |].
      eapply tables_grow_trans; [exact Hgrow | apply tables_grow_tick].
Qed.

End MoreHandler.

(** ** Records through the cycle *)

Section MoreRecords.

Import utils processor storage spec notions.

Local Open Scope Q_scope.

Context `{Builtins}.

Lemma enrich_from (E : Env) (asteroid : pyval) (date : string) (w w' : World)
  (enriched : pyval) :
  _enrich_asteroid_data E asteroid date w = (Ok enriched, w') ->
  enriched_from asteroid enriched.
Proof.
  intros Hrun.
  destruct asteroid as [| | | | | | d]; try discriminate Hrun.
  unfold _enrich_asteroid_data in Hrun.
  unfold mbindW at 1 in Hrun. unfold now at 1 in Hrun.
  stepW Hrun Hrisk. apply lift_ok in Hrisk as [Hrisk ->].
  stepW Hrun Horbital. apply lift_ok in Horbital as [Horbital ->].
  unfold ret in Hrun. injection Hrun as <- <-.
  eexists d, _. split; [reflexivity |]. split; [reflexivity |].
  split.
  - intros k Hout. pose proof (not_in_eqb k enrichment_keys Hout) as Hne.
    rewrite (orbital_step_frame _ _ _ k Horbital) by (apply Hne; simpl; auto 6).
    rewrite (risk_step_frame _ _ _ k Hrisk) by (apply Hne; simpl; auto 6).
    rewrite !dict_lookup_set_ne by (apply Hne; simpl; auto 6). reflexivity.
  - rewrite (orbital_step_frame _ _ _ "data_source" Horbital eq_refl).
    rewrite (risk_step_frame _ _ _ "data_source" Hrisk eq_refl eq_refl).
    rewrite dict_lookup_set. reflexivity.
Qed.

Lemma enrich_all_from (E : Env) (date : string) (asteroids : list pyval) :
  forall (w w' : World) (enriched : list pyval),
    enrich_all E date asteroids w = (Ok enriched, w') ->
    Forall2 enriched_from asteroids enriched.
Proof.
  induction asteroids as [| a rest IH]; intros w w' enriched Hrun; simpl in Hrun.
  - injection Hrun as <- _. constructor.
  - stepW Hrun Hfirst. stepW Hrun Hrest. injection Hrun as <- _.
    constructor; [eapply enrich_from; eassumption | eapply IH; eassumption].
Qed.

Lemma enrich_dates_from (E : Env) (neo_data : list (string * list pyval)) :
  forall (w w' : World) (enriched : list pyval),
    enrich_dates E neo_data w = (Ok enriched, w') ->
    Forall2 enriched_from (feed_records neo_data) enriched.
Proof.
  induction neo_data as [| [date asteroids] rest IH]; intros w w' enriched Hrun;
    simpl in Hrun.
  - injection Hrun as <- _. constructor.
  - stepW Hrun Hhere. stepW Hrun Hrest. injection Hrun as <- _.
    unfold feed_records. simpl. apply Forall2_app.
    + eapply enrich_all_from. eassumption.
    + eapply IH. eassumption.
Qed.

Lemma retry_fetch_from (E : Env) (days : Z) (attempts : nat) :
  forall (w w' : World) (batch : list pyval),
    retry attempts (fetch_once E days) w = (Ok batch, w') ->
    exists n neo_data,
      (n < attempts)%nat /\
      feed E days (feed_calls w + n) = Ok neo_data /\
      Forall2 enriched_from (feed_records neo_data) batch.
Proof.
  induction attempts as [| k IH]; intros w w' batch Hrun; simpl in Hrun.
  - discriminate Hrun.
  - destruct (fetch_once_spec E days w) as [Hcount _].
    destruct (fetch_once E days w) as [[b | e] w1] eqn:Hcall; simpl in *.
    + injection Hrun as <- <-.
      unfold fetch_once, mbindW, emit in Hcall. simpl in Hcall.
      destruct (feed E days (feed_calls w)) as [neo_data | e] eqn:Hfeed;
        [| discriminate Hcall].
      exists 0%nat, neo_data. rewrite Nat.add_0_r.
      split; [lia |]. split; [exact Hfeed |].
      eapply enrich_dates_from. exact Hcall.
    + apply IH in Hrun as (n & neo_data & Hn & Hfeed & Hfrom).
      exists (S n), neo_data. split; [lia |]. split; [| exact Hfrom].
      rewrite Hcount in Hfeed. rewrite <- Hfeed. f_equal. lia.
Qed.

(** X24.  What [fetch_asteroid_data] returns is an answer of the feed,
    record for record and in the feed's order: each record is a dict
    that has every field the feed gave it, outside the five keys of
    enrichment, and the data source. *)
Theorem fetch_keeps_order_and_fields (E : Env) (days : Z) (w w' : World)
  (batch : list pyval) :
  fetch_asteroid_data E days w = (Ok batch, w') ->
  exists n neo_data,
    (n < 3)%nat /\
    feed E days (feed_calls w + n) = Ok neo_data /\
    Forall2 enriched_from (feed_records neo_data) batch.
Proof. apply retry_fetch_from. Qed.

Lemma enrich_all_fails (E : Env) (date : string) (asteroids : list pyval)
  (a : pyval) :
  In a asteroids -> enrichment_fails E a ->
  forall w, exists e, fst (enrich_all E date asteroids w) = Raise e.
Proof.
  intros Hin Hbad. induction asteroids as [| x rest IH]; [contradiction |].
  intros w. simpl. unfold mbindW at 1.
  destruct Hin as [-> | Hin].
  - destruct (Hbad date w) as [e He].
    destruct (_enrich_asteroid_data E a date w) as [[v | e'] w1]; simpl in He;
      [discriminate He | eauto].
  - destruct (_enrich_asteroid_data E x date w) as [[v | e'] w1]; [| simpl; eauto].
    unfold mbindW at 1. destruct (IH Hin w1) as [e He].
    destruct (enrich_all E date rest w1) as [[more | e'] w2]; simpl in He;
      [discriminate He | simpl; eauto].
Qed.

Lemma enrich_dates_fails (E : Env) (neo_data : list (string * list pyval))
  (a : pyval) :
  In a (feed_records neo_data) -> enrichment_fails E a ->
  forall w, exists e, fst (enrich_dates E neo_data w) = Raise e.
Proof.
  intros Hin Hbad. induction neo_data as [| [date asteroids] rest IH];
    [contradiction |].
  intros w. simpl. unfold mbindW at 1.
  unfold feed_records in Hin. simpl in Hin. apply in_app_or in Hin as [Hin | Hin].
  - destruct (enrich_all_fails E date asteroids a Hin Hbad w) as [e He].
    destruct (enrich_all E date asteroids w) as [[here | e'] w1]; simpl in He;
      [discriminate He | simpl; eauto].
  - destruct (enrich_all E date asteroids w) as [[here | e'] w1]; [| simpl; eauto].
    unfold mbindW at 1. destruct (IH Hin w1) as [e He].
    destruct (enrich_dates E rest w1) as [[more | e'] w2]; simpl in He;
      [discriminate He | simpl; eauto].
Qed.

Lemma retry_always_fails {A : Type} (call : M A) (attempts : nat) :
  (forall w, exists e, fst (call w) = Raise e) ->
  forall w, fst (retry attempts call w) = Raise RetryError.
Proof.
  intros Hfails. induction attempts as [| n IH]; intros w; simpl; [reflexivity |].
  destruct (Hfails w) as [e He].
  destruct (call w) as [[a | e'] w1]; simpl in He; [discriminate He | apply IH].
Qed.

Lemma fetch_blobs_kept (E : Env) (days : Z) :
  preserves blobs_kept (fetch_asteroid_data E days).
Proof.
  apply preserves_fetch with (allowed := any_event); unfold blobs_kept;
    first [intros; congruence | intros; reflexivity | intros; exact I].
Qed.

(** X25.  One record on which enrichment raises voids the whole batch:
    when the feed keeps giving an answer that holds such a record,
    every attempt of the fetch fails, [process_data] raises RetryError
    after three requests, and nothing is archived or stored, the good
    records of the answer included.  A record that is not a dict is
    such a record, and so is a dict with approaches and no
    estimated_diameter. *)
Theorem one_bad_record_voids_the_batch (E : Env) (mode : string)
  (neo_data : list (string * list pyval)) (a : pyval) (w : World) :
  (forall n, feed E (days_of_mode mode) n = Ok neo_data) ->
  In a (feed_records neo_data) ->
  (forall d, a <> PDict d) \/
  (exists d, a = PDict d /\ has_close_approach a = Ok true /\
             dict_lookup "estimated_diameter" d = None) \/
  enrichment_fails E a ->
  exists w',
    process_data E mode w = (Raise RetryError, w') /\
    feed_calls w' = (feed_calls w + 3)%nat /\
    sql_untouched w w' /\
    blobs_kept w w'.
Proof.
  intros Hfeed Hin Hbad.
  assert (Hfails : enrichment_fails E a).
  { destruct Hbad as [Hshape | [(d & -> & Hclose & Hnone) | Hbad]]; [| | exact Hbad].
    - intros date w0. destruct a as [| | | | | l | d]; try (eexists; reflexivity).
      exfalso. eapply Hshape. reflexivity.
    - intros date w0. unfold _enrich_asteroid_data, mbindW, now, lift.
      unfold risk_step. rewrite Hclose. cbn [bind].
      destruct (first_approach (PDict d)) as [approach | e]; cbn [bind];
        [| simpl; eauto].
      simpl. rewrite Hnone. simpl. eauto. }
  assert (Hattempt : forall w0, exists e,
             fst (fetch_once E (days_of_mode mode) w0) = Raise e).
  { intros w0. unfold fetch_once, mbindW, emit. simpl. rewrite Hfeed.
    apply (enrich_dates_fails E neo_data a Hin Hfails). }
  pose proof (retry_always_fails _ 3 Hattempt w) as Hretry.
  pose proof (retry_fetch_calls E (days_of_mode mode) 3 w) as Hcalls.
  pose proof (fetch_sql_untouched E (days_of_mode mode) w) as Hsql.
  pose proof (fetch_blobs_kept E (days_of_mode mode) w) as Hblobs.
  unfold process_data, mbindW. fold (fetch_asteroid_data E (days_of_mode mode)) in *.
  destruct (fetch_asteroid_data E (days_of_mode mode) w) as [[batch | e] w1];
    simpl in Hretry; [discriminate Hretry |].
  injection Hretry as ->. destruct Hcalls as [_ Hcalls].
  exists w1. split; [reflexivity |]. split; [exact Hcalls |].
  split; [exact Hsql | exact Hblobs].
Qed.





Lemma unposted_refl (w : World) : unposted w w.
Proof. exists []. rewrite app_nil_r. split; reflexivity. Qed.

Lemma unposted_trans (a b c : World) : unposted a b -> unposted b c -> unposted a c.
Proof.
  intros (evs1 & Htr1 & Hev1) (evs2 & Htr2 & Hev2).
  exists (evs1 ++ evs2)%list. split.
  - rewrite Htr2, Htr1, app_assoc. reflexivity.
  - unfold no_post in *. rewrite forallb_app, Hev1, Hev2. reflexivity.
Qed.

Lemma unposted_same (w w' : World) : trace w' = trace w -> unposted w w'.
Proof. intros Htr. exists []. rewrite app_nil_r. split; [exact Htr | reflexivity]. Qed.

Lemma unposted_event (ev : Event) (w : World) :
  not_a_post ev -> unposted w (log_event ev w).
Proof.
  intros Hev. exists [ev]. split; [reflexivity |].
  unfold no_post. simpl. rewrite Hev. reflexivity.
Qed.

Ltac unposted_side :=
  first
    [ exact unposted_refl
    | exact unposted_trans
    | exact unposted_event
    | intros; apply unposted_same; reflexivity
    | intros; reflexivity ].

Lemma blob_unposted (E : Env) (batch : list pyval) :
  preserves unposted (store_raw_data_blob E batch).
Proof. apply preserves_blob with (allowed := not_a_post); unposted_side. Qed.

Lemma store_raw_data_sql_unposted (E : Env) (batch : list pyval) :
  preserves unposted (store_raw_data_sql E batch).
Proof.
  intros w. unfold store_raw_data_sql, mbindW, _get_sql_connection.
  assert (Hconnect : unposted w (log_event EvConnect (count_connection w))).
  { eapply unposted_trans; [apply unposted_same | apply unposted_event];
      reflexivity. }
  destruct (sql_connects E (sql_connections w)); [| exact Hconnect].
  set (w1 := log_event EvConnect (count_connection w)) in *.
  assert (Hloop : unposted w1
            (snd (insert_all "raw_asteroid_data" (raw_values E) (raw_rejects E)
                    batch (raw_asteroid_data w1) w1))).
  { apply preserves_insert_all with (allowed := not_a_post); try unposted_side.
    intros a. apply preserves_raw_values; unposted_side. }
  destruct (insert_all _ _ _ _ _ w1) as [[pending | e] w2]; simpl in *.
  - destruct (sql_commits E _); simpl;
      (eapply unposted_trans; [exact Hconnect |]);
      (eapply unposted_trans; [exact Hloop |]).
    + eapply unposted_trans; [apply unposted_same | apply unposted_event];
        reflexivity.
    + apply unposted_event. reflexivity.
  - eapply unposted_trans; [exact Hconnect |].
    eapply unposted_trans; [exact Hloop |]. apply unposted_event. reflexivity.
Qed.

Lemma store_processed_insights_sql_unposted (E : Env) (batch : list pyval) :
  preserves unposted (store_processed_insights_sql E batch).
Proof.
  intros w. unfold store_processed_insights_sql, mbindW, _get_sql_connection.
  assert (Hconnect : unposted w (log_event EvConnect (count_connection w))).
  { eapply unposted_trans; [apply unposted_same | apply unposted_event];
      reflexivity. }
  destruct (sql_connects E (sql_connections w)); [| exact Hconnect].
  set (w1 := log_event EvConnect (count_connection w)) in *.
  assert (Hloop : unposted w1
            (snd (insert_all "processed_asteroid_insights" (insight_values E)
                    (insights_rejects E) batch (processed_asteroid_insights w1) w1))).
  { apply preserves_insert_all with (allowed := not_a_post); try unposted_side.
    intros a. apply preserves_insight_values; unposted_side. }
  destruct (insert_all _ _ _ _ _ w1) as [[pending | e] w2]; simpl in *.
  - destruct (sql_commits E _); simpl;
      (eapply unposted_trans; [exact Hconnect |]);
      (eapply unposted_trans; [exact Hloop |]).
    + eapply unposted_trans; [apply unposted_same | apply unposted_event];
        reflexivity.
    + apply unposted_event. reflexivity.
  - eapply unposted_trans; [exact Hconnect |].
    eapply unposted_trans; [exact Hloop |]. apply unposted_event. reflexivity.
Qed.

(** X23.  The function is called last, once, and only after success:
    when archival and both stores went through and a function URL is
    set, the last event of the cycle is one POST of the first ten
    records at most, and nothing was posted before it; in any other
    case, whichever step raised, nothing is posted at all. *)
Theorem function_is_called_last (E : Env) (batch : list pyval) (w : World) :
  exists evs,
    trace (snd (store_batch E batch w)) = (trace w ++ evs)%list /\
    match fst (store_batch E batch w), function_url E with
    | Ok _, Some url =>
        if String.eqb url "" then no_post evs
        else exists before,
               evs = (before ++ [EvPost (Nat.min 10 (length batch))])%list /\
               no_post before
    | _, _ => no_post evs
    end.
Proof.
  unfold store_batch, mbindW.
  pose proof (blob_unposted E batch w) as Hblob.
  destruct (store_raw_data_blob E batch w) as [[[] | e] w1]; simpl in Hblob;
    [| exact Hblob].
  pose proof (store_raw_data_sql_unposted E batch w1) as Hraw.
  destruct (store_raw_data_sql E batch w1) as [[[] | e] w2]; simpl in Hraw;
    [| eapply unposted_trans; eassumption].
  pose proof (store_processed_insights_sql_unposted E batch w2) as Hins.
  destruct (store_processed_insights_sql E batch w2) as [[[] | e] w3]; simpl in Hins;
    [| eapply unposted_trans; [eassumption |]; eapply unposted_trans; eassumption].
  assert (Hall : unposted w w3).
  { eapply unposted_trans; [eassumption |]. eapply unposted_trans; eassumption. }
  destruct (function_url E) as [url |]; [| exact Hall].
  destruct (String.eqb url ""); simpl; [exact Hall |].
  destruct Hall as (before & Htrace & Hquiet).
  exists (before ++ [EvPost (Nat.min 10 (length batch))])%list. split.
  - unfold _call_azure_function, emit. simpl.
    rewrite Htrace, length_firstn, app_assoc. reflexivity.
  - exists before. split; [reflexivity | exact Hquiet].
Qed.

End MoreRecords.

(** ** The two classifications of an orbit *)

Section MoreOrbits.

Import utils processor storage spec notions.

Local Open Scope Q_scope.

Context `{Builtins}.

(** What a step of the orbit classification leaves under its key. *)
Lemma orbit_type_step_same (orbital_data : pyval)
  (a a' b b' : list (string * pyval)) :
  orbit_type_step orbital_data a = Ok a' ->
  orbit_type_step orbital_data b = Ok b' ->
  dict_lookup "orbit_type" a = dict_lookup "orbit_type" b ->
  dict_lookup "orbit_type" a' = dict_lookup "orbit_type" b'.
Proof.
  unfold orbit_type_step. intros Ha Hb Hsame.
  destruct (py_contains "eccentricity" orbital_data) as [[|] |]; cbn [bind] in *;
    try discriminate Ha.
  - destruct (py_getitem orbital_data "eccentricity") as [v |]; cbn [bind] in *;
      [| discriminate Ha].
    destruct (py_float v) as [ecc |]; cbn [bind] in *; [| discriminate Ha].
    destruct (Qltb ecc 0.1); [| destruct (Qltb ecc 0.3)];
      injection Ha as <-; injection Hb as <-; rewrite !dict_lookup_set; reflexivity.
  - injection Ha as <-. injection Hb as <-. exact Hsame.
Qed.

Lemma inclination_type_step_same (orbital_data : pyval)
  (a a' b b' : list (string * pyval)) :
  inclination_type_step orbital_data a = Ok a' ->
  inclination_type_step orbital_data b = Ok b' ->
  dict_lookup "inclination_type" a = dict_lookup "inclination_type" b ->
  dict_lookup "inclination_type" a' = dict_lookup "inclination_type" b'.
Proof.
  unfold inclination_type_step. intros Ha Hb Hsame.
  destruct (py_contains "inclination" orbital_data) as [[|] |]; cbn [bind] in *;
    try discriminate Ha.
  - destruct (py_getitem orbital_data "inclination") as [v |]; cbn [bind] in *;
      [| discriminate Ha].
    destruct (py_float v) as [incl |]; cbn [bind] in *; [| discriminate Ha].
    destruct (Qltb incl 5); [| destruct (Qltb incl 20)];
      injection Ha as <-; injection Hb as <-; rewrite !dict_lookup_set; reflexivity.
  - injection Ha as <-. injection Hb as <-. exact Hsame.
Qed.

Lemma orbital_period_step_frame (orbital_data : pyval)
  (insights insights' : list (string * pyval)) (k : string) :
  orbital_period_step orbital_data insights = Ok insights' ->
  String.eqb k "orbital_period_days" = false ->
  dict_lookup k insights' = dict_lookup k insights.
Proof.
  intros Hstep Hk. unfold orbital_period_step in Hstep. unbind;
    first [reflexivity | apply dict_lookup_set_ne; exact Hk].
Qed.

(** The orbital insights without an error come from three steps that
    returned. *)
Lemma orbital_insights_inv (orbital_data : pyval) (insights : list (string * pyval)) :
  _calculate_orbital_insights orbital_data = Ok (PDict insights) ->
  dict_lookup "error" insights = None ->
  exists i1 i2,
    orbital_period_step orbital_data [] = Ok i1 /\
    orbit_type_step orbital_data i1 = Ok i2 /\
    inclination_type_step orbital_data i2 = Ok insights.
Proof.
  unfold _calculate_orbital_insights. intros Hrun Hclean.
  destruct (orbital_period_step orbital_data []) as [i1 | e] eqn:H1.
  2:{ destruct (orbital_catches e); [| discriminate Hrun].
      injection Hrun as <-. try rewrite dict_lookup_set in Hclean.
      simpl in Hclean. discriminate Hclean. }
  destruct (orbit_type_step orbital_data i1) as [i2 | e] eqn:H2.
  2:{ destruct (orbital_catches e); [| discriminate Hrun].
      injection Hrun as <-. try rewrite dict_lookup_set in Hclean.
      simpl in Hclean. discriminate Hclean. }
  destruct (inclination_type_step orbital_data i2) as [i3 | e] eqn:H3.
  2:{ destruct (orbital_catches e); [| discriminate Hrun].
      injection Hrun as <-. try rewrite dict_lookup_set in Hclean.
      simpl in Hclean. discriminate Hclean. }
  injection Hrun as <-. exists i1, i2. repeat split; assumption.
Qed.

(** X27.  An orbit is classified twice, by [_calculate_orbital_insights]
    at enrichment and by [_calculate_insights], and the two agree: when
    the first reports no error and the second returns, both give the
    same orbit type and the same inclination type.  They part where a
    value does not parse: with an eccentricity or inclination str that
    float() refuses, the second never returns. *)
Theorem orbit_classifications_agree (E : Env) (d od : list (string * pyval)) :
  dict_lookup "orbital_data" d = Some (PDict od) ->
  (forall orbital insights w w',
     _calculate_orbital_insights (PDict od) = Ok (PDict orbital) ->
     dict_lookup "error" orbital = None ->
     _calculate_insights E (PDict d) w = (Ok (PDict insights), w') ->
     dict_lookup "orbit_type" insights = dict_lookup "orbit_type" orbital /\
     dict_lookup "inclination_type" insights
     = dict_lookup "inclination_type" orbital) /\
  (forall key s,
     In key ["eccentricity"; "inclination"]%string ->
     dict_lookup key od = Some (PStr s) ->
     float_of_str s = None ->
     forall w v w', _calculate_insights E (PDict d) w <> (Ok v, w')).
Proof.
  intros Hod. split.
  - intros orbital insights w w' Horbital Hclean Hrun.
    apply orbital_insights_inv in Horbital as (o1 & o2 & Ho1 & Ho2 & Ho3);
      [| exact Hclean].
    apply calculate_insights_inv in Hrun
      as (i1 & od' & i2 & i3 & i4 & i5 & i6 & w6 & i7
          & H1 & H2 & H3 & H4 & H5 & H6 & H7 & H8 & _ & Hv).
    injection Hv as ->.
    simpl in H2. rewrite Hod in H2. injection H2 as <-.
    apply size_step_inv in H1 as (size & _ & ->).
    apply priority_step_inv in H8 as (q & threat & _ & ->).
    rewrite !dict_lookup_set. simpl.
    rewrite (days_step_frame _ _ _ _ _ _ "orbit_type" H7 eq_refl).
    rewrite (distance_step_frame _ _ _ "orbit_type" H6 eq_refl).
    rewrite (velocity_step_frame _ _ _ "orbit_type" H5 eq_refl).
    rewrite (inclination_type_step_frame _ _ _ "orbit_type" H4 eq_refl).
    rewrite (days_step_frame _ _ _ _ _ _ "inclination_type" H7 eq_refl).
    rewrite (distance_step_frame _ _ _ "inclination_type" H6 eq_refl).
    rewrite (velocity_step_frame _ _ _ "inclination_type" H5 eq_refl).
    rewrite (inclination_type_step_frame _ _ _ "orbit_type" Ho3 eq_refl).
    split.
    + apply (orbit_type_step_same _ _ _ _ _ H3 Ho2). simpl.
      rewrite (orbital_period_step_frame _ _ _ "orbit_type" Ho1 eq_refl).
      reflexivity.
    + apply (inclination_type_step_same _ _ _ _ _ H4 Ho3).
      rewrite (orbit_type_step_frame _ _ _ "inclination_type" H3 eq_refl).
      rewrite (orbit_type_step_frame _ _ _ "inclination_type" Ho2 eq_refl).
      rewrite (orbital_period_step_frame _ _ _ "inclination_type" Ho1 eq_refl).
      reflexivity.
  - intros key s Hkey Hlook Hparse w v w' Hrun.
    apply calculate_insights_inv in Hrun
      as (i1 & od' & i2 & i3 & i4 & i5 & i6 & w6 & i7
          & _ & H2 & H3 & H4 & _).
    simpl in H2. rewrite Hod in H2. injection H2 as <-.
    destruct Hkey as [<- | [<- | []]].
    + unfold orbit_type_step in H3. simpl in H3. unfold dict_mem in H3.
      rewrite Hlook in H3. simpl in H3. rewrite Hparse in H3. discriminate H3.
    + unfold inclination_type_step in H4. simpl in H4. unfold dict_mem in H4.
      rewrite Hlook in H4. simpl in H4. rewrite Hparse in H4. discriminate H4.
Qed.

End MoreOrbits.

(** ** The further properties on sample records *)

Section MoreWitnesses.

Import utils processor storage spec samples notions.

#[local] Existing Instance samples.builtins.

Local Open Scope Q_scope.

(** X3 at a score of 0.75: hazard HIGH, threat HIGH. *)
Lemma hazard_and_threat_agree_witness :
  threat_level (PFloat 0.75) = Ok "HIGH"%string \/
  threat_level (PFloat 0.75) = Ok "CRITICAL"%string.
Proof.
  destruct (hazard_and_threat_agree 0.75) as (_ & Hhigh & _).
  apply Hhigh. reflexivity.
Defined.

(** X4 on the record of [test_calculate_insights]. *)
Lemma insights_are_consistent_witness :
  exists insights threat,
    fst (_calculate_insights (permissive []) tracked empty_world) = Ok (PDict insights) /\
    dict_lookup "threat_level" insights = Some (PStr threat) /\
    dict_lookup "recommended_action" insights = Some (PStr (recommended_action threat)).
Proof.
  destruct (insights_are_consistent (permissive []) tracked empty_world
              (snd (_calculate_insights (permissive []) tracked empty_world))
              (match fst (_calculate_insights (permissive []) tracked empty_world) with
               | Ok v => v
               | Raise _ => PNone
               end))
    as (insights & size & threat & priority & metadata
        & Hv & _ & _ & Hthreat & _ & Haction & _).
  - vm_compute. reflexivity.
  - exists insights, threat. split; [| split; assumption].
    rewrite <- Hv. vm_compute. reflexivity.
Defined.

(** X5 on the record of [tests/test_duplicate_handling.py], whose
    readings are strs. *)
Lemma string_reading_stops_insights_witness :
  exists e w',
    store_processed_insights_sql (permissive []) [eros] empty_world = (Raise e, w') /\
    tables_kept empty_world w'.
Proof.
  destruct (string_reading_stops_insights (permissive []) eros "25000")
    as [_ Hstore].
  - reflexivity.
  - left. reflexivity.
  - apply (Hstore [eros] empty_world). left. reflexivity.
Defined.

(** X6: at ten in the morning of 2024-01-15 an approach dated
    2024-01-15 is one day away, backwards. *)
Lemma days_to_approach_rounds_down_witness :
  exists insights,
    fst (_calculate_insights (permissive []) due_today empty_world)
    = Ok (PDict insights) /\
    dict_lookup "days_to_approach" insights = Some (PInt (-1)).
Proof.
  destruct (days_to_approach_rounds_down (permissive []) due_today
              (PDict
                 [("close_approach_date", PStr "2024-01-15");
                  ("relative_velocity", PDict [("kilometers_per_hour", PInt 25000)]);
                  ("miss_distance", PDict [("kilometers", PInt 50000000)])])
              "2024-01-15" 1705276800000000 empty_world
              (snd (_calculate_insights (permissive []) due_today empty_world))
              (match fst (_calculate_insights (permissive []) due_today empty_world) with
               | Ok v => v
               | Raise _ => PNone
               end))
    as (insights & days & Hv & Hdays & _ & Htoday & _).
  - reflexivity.
  - reflexivity.
  - reflexivity.
  - reflexivity.
  - vm_compute. reflexivity.
  - vm_compute. reflexivity.
  - exists insights. split.
    + rewrite <- Hv. vm_compute. reflexivity.
    + rewrite Hdays, Htoday; [reflexivity |]. vm_compute.
      split; [reflexivity | discriminate].
Defined.

(** X7 on orbital data whose eccentricity does not parse. *)
Lemma orbital_insights_escapes_witness :
  exists insights,
    _calculate_orbital_insights (PDict [("eccentricity", PStr "n/a")])
    = Ok (PDict insights).
Proof.
  destruct orbital_insights_escapes as [_ Hreturns].
  apply Hreturns. intros k v Hin Hk. simpl in Hk.
  destruct (String.eqb k "eccentricity"); [| discriminate Hk].
  injection Hk as <-. exact I.
Defined.

(** X8 on orbital data with a period, an eccentricity that does not
    parse and an inclination. *)
Lemma orbital_insights_stop_at_first_error_witness :
  exists insights,
    _calculate_orbital_insights
      (PDict [("orbital_period", PStr "643.2");
              ("eccentricity", PStr "n/a");
              ("inclination", PFloat 10.8)])
    = Ok (PDict insights) /\
    dict_lookup "orbital_period_days" insights = Some (PFloat 643.2) /\
    dict_lookup "inclination_type" insights = None.
Proof.
  destruct (orbital_insights_stop_at_first_error
              [("orbital_period", PStr "643.2");
               ("eccentricity", PStr "n/a");
               ("inclination", PFloat 10.8)] "n/a")
    as (insights & Hrun & _ & _ & Hincl & Hperiod & _).
  - reflexivity.
  - vm_compute. reflexivity.
  - intros v Hv. injection Hv as <-. eexists. vm_compute. reflexivity.
  - exists insights. split; [exact Hrun |]. split; [| exact Hincl].
    apply (Hperiod (PStr "643.2")); [reflexivity |]. vm_compute. reflexivity.
Defined.

(** X9 on the record of [test_calculate_insights] once enriched, which
    carries orbital insights. *)
Lemma insight_detail_columns_are_empty_witness :
  exists enriched row,
    fst (_enrich_asteroid_data (permissive []) tracked "2024-01-15" empty_world)
    = Ok (PDict enriched) /\
    dict_lookup "orbital_insights" enriched
    = Some (PDict [("orbit_type", PStr "Low Eccentricity");
                   ("inclination_type", PStr "Medium Inclination")]) /\
    row_of (insight_values (permissive [])) (PDict enriched) row /\
    dict_lookup "orbital_insights" row = Some (SqlJson (PDict [])).
Proof.
  eexists _, _. split; [vm_compute; reflexivity |].
  split; [vm_compute; reflexivity |].
  match goal with
  | |- row_of ?values ?a _ /\ _ =>
      assert (Hrow : row_of values a
                (match fst (values a empty_world) with
                 | Ok row => row
                 | Raise _ => []
                 end))
        by (exists empty_world, (snd (values a empty_world)); vm_compute; reflexivity);
      split; [exact Hrow |];
      apply (insight_detail_columns_are_empty _ _ _ Hrow)
  end.
Defined.

(** X10 on a record that nests its orbital elements under 'orbit'. *)
Lemma nested_orbit_is_stored_but_not_classified_witness :
  exists raw_row insight_row,
    row_of (raw_values (permissive [])) due_today raw_row /\
    dict_lookup "eccentricity" raw_row = Some (SqlParam (PFloat 0.223)) /\
    row_of (insight_values (permissive [])) due_today insight_row /\
    dict_lookup "orbit_type" insight_row = Some (SqlParam PNone).
Proof.
  destruct (nested_orbit_is_stored_but_not_classified (permissive [])
              (match due_today with PDict d => d | _ => [] end)
              [("orbit_id", PStr "1");
               ("orbit",
                  PDict [("eccentricity", PFloat 0.223);
                         ("inclination", PFloat 10.829)])]
              [("eccentricity", PFloat 0.223); ("inclination", PFloat 10.829)])
    as [Hraw Hinsight]; try reflexivity.
  assert (Hraw_row :
            row_of (raw_values (permissive [])) due_today
              (match fst (raw_values (permissive []) due_today empty_world) with
               | Ok row => row
               | Raise _ => []
               end))
    by (exists empty_world,
          (snd (raw_values (permissive []) due_today empty_world));
        vm_compute; reflexivity).
  assert (Hinsight_row :
            row_of (insight_values (permissive [])) due_today
              (match fst (insight_values (permissive []) due_today empty_world) with
               | Ok row => row
               | Raise _ => []
               end))
    by (exists empty_world,
          (snd (insight_values (permissive []) due_today empty_world));
        vm_compute; reflexivity).
  eexists _, _. split; [exact Hraw_row |].
  split; [apply (Hraw _ Hraw_row) |].
  split; [exact Hinsight_row |].
  apply (Hinsight _ Hinsight_row).
Defined.

(** X11 on a record that has an id, a name and a diameter only. *)
Lemma enrichment_only_adds_witness :
  exists enriched,
    fst (_enrich_asteroid_data (permissive []) (PDict bare) "2024-01-15" empty_world)
    = Ok (PDict enriched) /\
    dict_lookup "name" enriched = Some (PStr "(2024 AB)") /\
    dict_lookup "data_source" enriched = Some (PStr "NASA NEO API").
Proof.
  destruct (enrichment_only_adds (permissive []) bare "2024-01-15" empty_world
              (snd (_enrich_asteroid_data (permissive []) (PDict bare) "2024-01-15"
                      empty_world))
              enriched_bare)
    as (enriched & Hv & Hkept & _ & Hsource & _).
  - vm_compute. reflexivity.
  - exists enriched. split; [rewrite <- Hv; vm_compute; reflexivity |].
    split; [| exact Hsource].
    rewrite Hkept; [reflexivity |].
    simpl. intros [Hk | [Hk | [Hk | [Hk | [Hk | []]]]]]; discriminate Hk.
Defined.

(** X13 on a feed that has nothing to report. *)
Lemma empty_feed_ends_cycle_witness :
  exists w',
    process_data (permissive []) "auto" empty_world = (Ok tt, w') /\
    trace w' = [EvFeed 7] /\
    blobs_kept empty_world w'.
Proof.
  destruct (empty_feed_ends_cycle (permissive []) "auto" empty_world [])
    as (w' & Hrun & Htrace & _ & _ & Hblobs & _).
  - reflexivity.
  - reflexivity.
  - exists w'. split; [exact Hrun |]. split; [exact Htrace | exact Hblobs].
Defined.

(** X14 on a cycle that stops at the archival write. *)
Lemma cycle_only_appends_witness :
  processed_asteroid_insights
    (snd (process_data (sink_down (one_day [tracked])) "auto" empty_world))
  = processed_asteroid_insights empty_world.
Proof.
  destruct (cycle_only_appends (sink_down (one_day [tracked])) "auto" empty_world)
    as [_ Hfailed].
  apply (Hfailed ArchivalError). vm_compute. reflexivity.
Defined.

(** X15 on a cycle of one record. *)
Lemma insight_rows_follow_raw_rows_witness :
  exists raw_rows insight_rows,
    raw_asteroid_data
      (snd (store_batch (permissive []) [tracked] empty_world)) = raw_rows /\
    processed_asteroid_insights
      (snd (store_batch (permissive []) [tracked] empty_world)) = insight_rows /\
    map (dict_lookup "raw_asteroid_id") insight_rows = map (dict_lookup "id") raw_rows.
Proof.
  destruct (insight_rows_follow_raw_rows (permissive []) [tracked] empty_world
              (snd (store_batch (permissive []) [tracked] empty_world)))
    as (raw_rows & insight_rows & Hraw & Hinsight & Hkeys & _).
  - vm_compute. reflexivity.
  - exists raw_rows, insight_rows. split; [exact Hraw |].
    split; [exact Hinsight | exact Hkeys].
Defined.

(** X24 on a feed of one record. *)
Lemma fetch_keeps_order_and_fields_witness :
  exists n neo_data,
    (n < 3)%nat /\
    feed (permissive (one_day [tracked])) 7 n = Ok neo_data /\
    Forall2 enriched_from (feed_records neo_data)
      (match fst (fetch_asteroid_data (permissive (one_day [tracked])) 7 empty_world) with
       | Ok batch => batch
       | Raise _ => []
       end).
Proof.
  destruct (fetch_keeps_order_and_fields (permissive (one_day [tracked])) 7 empty_world
              (snd (fetch_asteroid_data (permissive (one_day [tracked])) 7 empty_world))
              (match fst (fetch_asteroid_data (permissive (one_day [tracked])) 7
                            empty_world) with
               | Ok batch => batch
               | Raise _ => []
               end))
    as (n & neo_data & Hn & Hfeed & Hfrom).
  - vm_compute. reflexivity.
  - exists n, neo_data. split; [exact Hn |]. split; [exact Hfeed | exact Hfrom].
Defined.

(** X25 on a feed of two records, the second with approaches and no
    estimated_diameter. *)
Lemma one_bad_record_voids_the_batch_witness :
  exists w',
    process_data (permissive (one_day [tracked; undersized])) "auto" empty_world
    = (Raise RetryError, w') /\
    feed_calls w' = 3%nat /\
    blobs_kept empty_world w'.
Proof.
  destruct (one_bad_record_voids_the_batch
              (permissive (one_day [tracked; undersized])) "auto"
              (one_day [tracked; undersized]) undersized empty_world)
    as (w' & Hrun & Hcalls & _ & Hblobs).
  - intros n. reflexivity.
  - right. left. reflexivity.
  - right. left. eexists. split; [reflexivity |]. split; reflexivity.
  - exists w'. split; [exact Hrun |]. split; [exact Hcalls | exact Hblobs].
Defined.


(** X27 on the record of [test_calculate_insights]. *)
Lemma orbit_classifications_agree_witness :
  exists insights,
    fst (_calculate_insights (permissive []) tracked empty_world) = Ok (PDict insights) /\
    dict_lookup "orbit_type" insights = Some (PStr "Low Eccentricity") /\
    dict_lookup "inclination_type" insights = Some (PStr "Medium Inclination").
Proof.
  destruct (orbit_classifications_agree (permissive [])
              (match tracked with PDict d => d | _ => [] end)
              [("eccentricity", PFloat 0.15); ("inclination", PFloat 10.5)])
    as [Hagree _].
  - reflexivity.
  - eexists. split; [vm_compute; reflexivity |].
    apply (Hagree [("orbit_type", PStr "Low Eccentricity");
                   ("inclination_type", PStr "Medium Inclination")]
             _ empty_world
             (snd (_calculate_insights (permissive []) tracked empty_world))).
    + vm_compute. reflexivity.
    + reflexivity.
    + vm_compute. reflexivity.
Defined.

End MoreWitnesses.

Section MoreWitnessesOutside.

Import processor storage spec samples notions retrying nasa_api_client formatting.

#[local] Existing Instance samples.builtins.

(** X17 on a call that fails twice: the third run returns. *)
Lemma retry_on_failure_outcomes_witness :
  retry_on_failure flaky (fun runs => runs) 3 0%nat = (Ok 2%nat, 3%nat).
Proof.
  destruct (retry_on_failure_outcomes flaky (fun runs => runs) 3 0%nat)
    as [Hfirst _].
  apply (Hfirst 2%nat).
  - lia.
  - intros j Hj. destruct j as [| [| j]]; [eexists; reflexivity .. | lia].
  - reflexivity.
Defined.

(** X18: thirty days are asked as seven. *)
Lemma client_caps_requests_witness :
  get_near_earth_objects date_string (permissive []) one_record 30 empty_world
  = get_near_earth_objects date_string (permissive []) one_record 7 empty_world.
Proof.
  destruct (client_caps_requests date_string (permissive []) one_record empty_world)
    as [Hcap _].
  apply Hcap. lia.
Defined.


(** X20 on a heap that holds one record with an id and a name. *)
Lemma formatting_without_approaches_witness :
  exists lf ext,
    format_asteroid_data (VRef 0)
      [ODict (list_to_map [("id", VStr "54321"); ("name", VStr "(2024 AB)")])]
    = (Ok (VRef lf),
       ([ODict (list_to_map [("id", VStr "54321"); ("name", VStr "(2024 AB)")])]
        ++ ext)%list) /\
    length ext = 5%nat.
Proof.
  destruct (formatting_without_approaches
              [ODict (list_to_map [("id", VStr "54321"); ("name", VStr "(2024 AB)")])]
              0%nat
              (list_to_map [("id", VStr "54321"); ("name", VStr "(2024 AB)")]))
    as (lf & ext & fields & Hrun & Hlength & _).
  - reflexivity.
  - intros v Hv. vm_compute in Hv. discriminate Hv.
  - exists lf, ext. split; [exact Hrun | exact Hlength].
Defined.

(** X21 on None. *)
Lemma format_asteroid_data_rejects_witness :
  format_asteroid_data VNone [] = (Raise AttributeError, []).
Proof.
  destruct (format_asteroid_data_rejects []) as [Hshape _].
  apply Hshape. intros l rec Heq. discriminate Heq.
Defined.

End MoreWitnessesOutside.
